(** * Session bridge of the Gemini CLI: A2A service, UI mirror, remote server

    A shallow embedding of
      - packages/cli/src/services/a2aService.ts     (module [A2A]),
      - packages/cli/src/services/uiMirrorService.ts (module [UiMirror]),
      - packages/cli/src/core/remoteServer.ts and
        packages/cli/src/ui/utils/remoteBridge.ts    (module [Remote]),
    over a model of the JavaScript values these files handle (module [Js])
    and of JSON.stringify / JSON.parse (module [Json]); of the two
    services over their life, from [start()] to [stop()] (modules
    [A2ALife] and [UiMirrorLife]); and of the price table of costs.ts
    (module [Costs]).

    Side effects (message-bus publishes, injected prompts, socket sends, SSE
    writes, bridge submissions) are logged in explicit state records that the
    handlers thread through. *)

From Stdlib Require Import String Ascii List ZArith Bool Arith Lia.
From Stdlib Require Decimal DecimalString DecimalFacts DecimalN.
From Stdlib Require PrimFloat.
Import ListNotations.
Local Open Scope string_scope.
Local Open Scope list_scope.

(* ================================================================== *)
(** ** JavaScript values *)
(* ================================================================== *)

Module Js.

(** A JavaScript value as it occurs in this program: what [JSON.parse]
    returns, plus [undefined].  An object is its list of own properties in
    enumeration order (keys pairwise distinct, see [Json.uniq]); a number is
    an integer (fractions and exponents are outside the model); a string is
    its sequence of UTF-8 bytes. *)
#[local] Unset Elimination Schemes.
Inductive value : Type :=
| Undefined
| Null
| Bool (b : bool)
| Num (z : Z)
| Str (s : string)
| Arr (elems : list value)
| Obj (props : list (string * value)).
#[local] Set Elimination Schemes.

Fixpoint lookup (k : string) (props : list (string * value)) : value :=
  match props with
  | [] => Undefined
  | (k', v) :: rest => if String.eqb k k' then v else lookup k rest
  end.

(** [v.k] where the source guards the access ([v] is known to be an object)
    and [v?.k]: [undefined] on everything that is not an object.  The keys
    read by the program are plain identifiers, none of them an array index
    or a property of a prototype. *)
Definition get (v : value) (k : string) : value :=
  match v with
  | Obj props => lookup k props
  | _ => Undefined
  end.

(** ToBoolean. *)
Definition truthy (v : value) : bool :=
  match v with
  | Undefined | Null => false
  | Bool b => b
  | Num z => negb (Z.eqb z 0)
  | Str s => negb (String.eqb s EmptyString)
  | Arr _ | Obj _ => true
  end.

(** [typeof v === 'object'] (true of [null] and of arrays too). *)
Definition typeof_object (v : value) : bool :=
  match v with
  | Null | Arr _ | Obj _ => true
  | _ => false
  end.

Definition isArray (v : value) : bool :=
  match v with Arr _ => true | _ => false end.

(** [v && typeof v === 'object' && !Array.isArray(v)] *)
Definition plain_object (v : value) : bool :=
  truthy v && typeof_object v && negb (isArray v).

(** [typeof v === 'string'] with the string it then is. *)
Definition as_string (v : value) : option string :=
  match v with Str s => Some s | _ => None end.

(** [v === 'lit'] for a string literal. *)
Definition is_str (v : value) (lit : string) : bool :=
  match v with Str s => String.eqb s lit | _ => false end.

(** [a || b] *)
Definition or (a b : value) : value := if truthy a then a else b.

(** [k in v], for an object. *)
Definition has_key (k : string) (v : value) : bool :=
  match v with
  | Obj props => existsb (String.eqb k) (map fst props)
  | _ => false
  end.

(** Defining property [k] on an object: an existing property keeps its
    place in the enumeration order and takes the new value, a new one goes
    last.  This is what [{...message, k: v}] does with the copy of
    [message]. *)
Fixpoint set_prop (k : string) (v : value) (props : list (string * value))
  : list (string * value) :=
  match props with
  | [] => [(k, v)]
  | (k', v') :: rest =>
      if String.eqb k k' then (k, v) :: rest else (k', v') :: set_prop k v rest
  end.

End Js.

(* ================================================================== *)
(** ** JSON.stringify and JSON.parse *)
(* ================================================================== *)

Module Json.
Import Js.
Local Open Scope string_scope.

Definition dquote : ascii := "034"%char.
Definition backslash : ascii := "092"%char.
Definition nul : ascii := "000"%char.

Definition str1 (c : ascii) : string := String c EmptyString.

(** *** Serialization *)

Definition hex_digit (n : nat) : ascii :=
  match String.get n "0123456789abcdef" with
  | Some c => c
  | None => "0"%char
  end.

(** QuoteJSONString on one code unit: the two-character escapes, [\u00xx]
    for the other control characters, everything else as it is. *)
Definition escape (c : ascii) : string :=
  if Ascii.eqb c dquote then String backslash (str1 dquote)
  else if Ascii.eqb c backslash then String backslash (str1 backslash)
  else if Ascii.eqb c "008"%char then String backslash "b"
  else if Ascii.eqb c "012"%char then String backslash "f"
  else if Ascii.eqb c "010"%char then String backslash "n"
  else if Ascii.eqb c "013"%char then String backslash "r"
  else if Ascii.eqb c "009"%char then String backslash "t"
  else if Nat.ltb (nat_of_ascii c) 32 then
    String backslash
      ("u00" ++ String (hex_digit (Nat.div (nat_of_ascii c) 16))
                       (str1 (hex_digit (Nat.modulo (nat_of_ascii c) 16))))
  else str1 c.

Fixpoint quote_chars (s : string) : string :=
  match s with
  | EmptyString => EmptyString
  | String c rest => escape c ++ quote_chars rest
  end.

Definition quote (s : string) : string :=
  String dquote (quote_chars s ++ str1 dquote).

(** Number::toString of an integer. *)
Definition render_int (z : Z) : string :=
  (if Z.ltb z 0 then "-" else EmptyString)
    ++ DecimalString.NilEmpty.string_of_uint (N.to_uint (Z.abs_N z)).

(** SerializeJSONProperty without indentation.  Inside an array
    [undefined] is written as [null]; a property whose value is [undefined]
    is left out. *)
Fixpoint render (v : value) : string :=
  match v with
  | Undefined | Null => "null"
  | Bool true => "true"
  | Bool false => "false"
  | Num z => render_int z
  | Str s => quote s
  | Arr elems =>
      "[" ++ (fix items (first : bool) (l : list value) : string :=
                match l with
                | [] => "]"
                | x :: rest =>
                    (if first then EmptyString else ",")
                      ++ render x ++ items false rest
                end) true elems
  | Obj props =>
      "{" ++ (fix members (first : bool) (l : list (string * value)) : string :=
                match l with
                | [] => "}"
                | (k, x) :: rest =>
                    match x with
                    | Undefined => members first rest
                    | _ => (if first then EmptyString else ",")
                             ++ quote k ++ ":" ++ render x ++ members false rest
                    end
                end) true props
  end.

(** [JSON.stringify(v)]; [None] is the [undefined] it returns for
    [undefined]. *)
Definition stringify (v : value) : option string :=
  match v with
  | Undefined => None
  | _ => Some (render v)
  end.

(** What is left of a value once serialized: the value [JSON.parse] gives
    back. *)
Fixpoint to_json (v : value) : value :=
  match v with
  | Undefined => Null
  | Arr elems => Arr (map to_json elems)
  | Obj props =>
      Obj ((fix keep (l : list (string * value)) : list (string * value) :=
              match l with
              | [] => []
              | (k, x) :: rest =>
                  match x with
                  | Undefined => keep rest
                  | _ => (k, to_json x) :: keep rest
                  end
              end) props)
  | _ => v
  end.

(** *** Parsing *)

Definition is_ws (c : ascii) : bool :=
  Ascii.eqb c " "%char || Ascii.eqb c "009"%char
  || Ascii.eqb c "010"%char || Ascii.eqb c "013"%char.

Fixpoint skip_ws (s : string) : string :=
  match s with
  | EmptyString => EmptyString
  | String c rest => if is_ws c then skip_ws rest else s
  end.

Definition is_digit (c : ascii) : bool :=
  Nat.leb 48 (nat_of_ascii c) && Nat.leb (nat_of_ascii c) 57.

Fixpoint take_digits (s : string) : string * string :=
  match s with
  | EmptyString => (EmptyString, EmptyString)
  | String c rest =>
      if is_digit c
      then let (ds, r) := take_digits rest in (String c ds, r)
      else (EmptyString, s)
  end.

(** A number token ends here: no digit, fraction or exponent follows. *)
Definition delimited (s : string) : bool :=
  match s with
  | EmptyString => true
  | String c _ =>
      negb (is_digit c || Ascii.eqb c "."%char
            || Ascii.eqb c "e"%char || Ascii.eqb c "E"%char)
  end.

(** An integer literal: an optional minus and digits without a leading
    zero.  A fraction or an exponent is rejected, numbers being integers
    here. *)
Definition parse_number (s : string) : option (value * string) :=
  let (neg, s1) :=
    match s with
    | String c rest => if Ascii.eqb c "-"%char then (true, rest) else (false, s)
    | EmptyString => (false, s)
    end in
  let (ds, r) := take_digits s1 in
  match DecimalString.NilEmpty.uint_of_string ds with
  | Some d =>
      if Decimal.uint_beq (Decimal.unorm d) d && delimited r
      then let n := Z.of_N (N.of_uint d) in
           Some (Num (if neg then Z.opp n else n), r)
      else None
  | None => None
  end.

Definition hex_value (c : ascii) : option nat :=
  let n := nat_of_ascii c in
  if Nat.leb 48 n && Nat.leb n 57 then Some (n - 48)
  else if Nat.leb 97 n && Nat.leb n 102 then Some (n - 87)
  else if Nat.leb 65 n && Nat.leb n 70 then Some (n - 55)
  else None.

(** The bytes of a [\uXXXX] escape: the UTF-8 encoding of its code point.
    A surrogate has none on its own and is rejected. *)
Definition utf8 (cp : N) : option string :=
  if N.ltb cp 128 then Some (str1 (ascii_of_N cp))
  else if N.ltb cp 2048 then
    Some (String (ascii_of_N (192 + N.div cp 64))
                 (str1 (ascii_of_N (128 + N.modulo cp 64))))
  else if N.leb 55296 cp && N.ltb cp 57344 then None
  else
    Some (String (ascii_of_N (224 + N.div cp 4096))
            (String (ascii_of_N (128 + N.modulo (N.div cp 64) 64))
                    (str1 (ascii_of_N (128 + N.modulo cp 64)))))%N.

Definition unicode_escape (h1 h2 h3 h4 : ascii) : option string :=
  match hex_value h1, hex_value h2, hex_value h3, hex_value h4 with
  | Some a, Some b, Some c, Some d =>
      utf8 (((N.of_nat a * 16 + N.of_nat b) * 16 + N.of_nat c) * 16
            + N.of_nat d)%N
  | _, _, _, _ => None
  end.

(** The characters of a string literal after its opening quote, up to and
    including the closing one. *)
Fixpoint parse_chars (s : string) : option (string * string) :=
  match s with
  | EmptyString => None
  | String c rest =>
      if Ascii.eqb c dquote then Some (EmptyString, rest)
      else if Ascii.eqb c backslash then
        match rest with
        | EmptyString => None
        | String e rest1 =>
            let continue (decoded : string) (tail : option (string * string)) :=
              match tail with
              | Some (str, r) => Some (decoded ++ str, r)
              | None => None
              end in
            if Ascii.eqb e dquote
            then continue (str1 dquote) (parse_chars rest1)
            else if Ascii.eqb e backslash
            then continue (str1 backslash) (parse_chars rest1)
            else if Ascii.eqb e "/"%char then continue "/" (parse_chars rest1)
            else if Ascii.eqb e "b"%char
            then continue (str1 "008"%char) (parse_chars rest1)
            else if Ascii.eqb e "f"%char
            then continue (str1 "012"%char) (parse_chars rest1)
            else if Ascii.eqb e "n"%char
            then continue (str1 "010"%char) (parse_chars rest1)
            else if Ascii.eqb e "r"%char
            then continue (str1 "013"%char) (parse_chars rest1)
            else if Ascii.eqb e "t"%char
            then continue (str1 "009"%char) (parse_chars rest1)
            else if Ascii.eqb e "u"%char then
              match rest1 with
              | String h1 (String h2 (String h3 (String h4 rest2))) =>
                  match unicode_escape h1 h2 h3 h4 with
                  | Some decoded => continue decoded (parse_chars rest2)
                  | None => None
                  end
              | _ => None
              end
            else None
        end
      else if Nat.ltb (nat_of_ascii c) 32 then None
      else
        match parse_chars rest with
        | Some (str, r) => Some (String c str, r)
        | None => None
        end
  end.

Fixpoint strip_prefix (word s : string) : option string :=
  match word with
  | EmptyString => Some s
  | String c word' =>
      match s with
      | EmptyString => None
      | String c' s' => if Ascii.eqb c c' then strip_prefix word' s' else None
      end
  end.

(** The rest of a literal after its first letter. *)
Definition expect (word : string) (s : string) (v : value)
  : option (value * string) :=
  match strip_prefix word s with
  | Some r => Some (v, r)
  | None => None
  end.

(** CreateDataProperty for each member in turn: a repeated key keeps its
    first place and its last value. *)
Definition obj_of_members (ms : list (string * value))
  : list (string * value) :=
  fold_left (fun acc kv => set_prop (fst kv) (snd kv) acc) ms [].

Fixpoint parse_value (fuel : nat) (s : string) : option (value * string) :=
  match fuel with
  | O => None
  | S fuel' =>
      match skip_ws s with
      | EmptyString => None
      | String c rest =>
          if is_digit c || Ascii.eqb c "-"%char
          then parse_number (String c rest)
          else if Ascii.eqb c "n"%char then expect "ull" rest Null
          else if Ascii.eqb c "t"%char then expect "rue" rest (Bool true)
          else if Ascii.eqb c "f"%char then expect "alse" rest (Bool false)
          else if Ascii.eqb c dquote then
            match parse_chars rest with
            | Some (str, r) => Some (Str str, r)
            | None => None
            end
          else if Ascii.eqb c "["%char then
            match skip_ws rest with
            | EmptyString => None
            | String c1 rest1 =>
                if Ascii.eqb c1 "]"%char then Some (Arr [], rest1)
                else
                  match parse_items fuel' (String c1 rest1) with
                  | Some (vs, r) => Some (Arr vs, r)
                  | None => None
                  end
            end
          else if Ascii.eqb c "{"%char then
            match skip_ws rest with
            | EmptyString => None
            | String c1 rest1 =>
                if Ascii.eqb c1 "}"%char then Some (Obj [], rest1)
                else
                  match parse_members fuel' (String c1 rest1) with
                  | Some (ms, r) => Some (Obj (obj_of_members ms), r)
                  | None => None
                  end
            end
          else None
      end
  end

with parse_items (fuel : nat) (s : string) : option (list value * string) :=
  match fuel with
  | O => None
  | S fuel' =>
      match parse_value fuel' s with
      | None => None
      | Some (v, r) =>
          match skip_ws r with
          | EmptyString => None
          | String c rest =>
              if Ascii.eqb c ","%char then
                match parse_items fuel' rest with
                | Some (vs, r') => Some (v :: vs, r')
                | None => None
                end
              else if Ascii.eqb c "]"%char then Some ([v], rest)
              else None
          end
      end
  end

with parse_members (fuel : nat) (s : string)
  : option (list (string * value) * string) :=
  match fuel with
  | O => None
  | S fuel' =>
      match skip_ws s with
      | EmptyString => None
      | String c rest =>
          if Ascii.eqb c dquote then
            match parse_chars rest with
            | None => None
            | Some (k, r1) =>
                match skip_ws r1 with
                | EmptyString => None
                | String c1 r2 =>
                    if Ascii.eqb c1 ":"%char then
                      match parse_value fuel' r2 with
                      | None => None
                      | Some (v, r3) =>
                          match skip_ws r3 with
                          | EmptyString => None
                          | String c3 r4 =>
                              if Ascii.eqb c3 ","%char then
                                match parse_members fuel' r4 with
                                | Some (ms, r5) => Some ((k, v) :: ms, r5)
                                | None => None
                                end
                              else if Ascii.eqb c3 "}"%char
                              then Some ([(k, v)], r4)
                              else None
                          end
                      end
                    else None
                end
            end
          else None
      end
  end.

(** [JSON.parse(s)]; [None] is the SyntaxError.  Every value and every
    separator read takes a character of the text, so the fuel, one more than
    the length, does not run out before the text does. *)
Definition parse (s : string) : option value :=
  match parse_value (S (String.length s)) s with
  | Some (v, r) =>
      match skip_ws r with
      | EmptyString => Some v
      | String _ _ => None
      end
  | None => None
  end.

(** *** Auxiliaries of the round trip *)

(** The two local functions of [render] and the one of [to_json], by
    name. *)
Fixpoint render_items (first : bool) (l : list value) : string :=
  match l with
  | [] => "]"
  | x :: rest =>
      (if first then EmptyString else ",")
        ++ render x ++ render_items false rest
  end.

Fixpoint render_members (first : bool) (l : list (string * value)) : string :=
  match l with
  | [] => "}"
  | (k, x) :: rest =>
      match x with
      | Undefined => render_members first rest
      | _ => (if first then EmptyString else ",")
               ++ quote k ++ ":" ++ render x ++ render_members false rest
      end
  end.

Fixpoint json_members (l : list (string * value)) : list (string * value) :=
  match l with
  | [] => []
  | (k, x) :: rest =>
      match x with
      | Undefined => json_members rest
      | _ => (k, to_json x) :: json_members rest
      end
  end.

(** Keys pairwise distinct in every object of a value. *)
Fixpoint distinct (ks : list string) : bool :=
  match ks with
  | [] => true
  | k :: rest => negb (existsb (String.eqb k) rest) && distinct rest
  end.

Fixpoint uniq (v : value) : bool :=
  match v with
  | Arr elems => forallb uniq elems
  | Obj props =>
      distinct (map fst props) && forallb (fun kv => uniq (snd kv)) props
  | _ => true
  end.

(** No [undefined] anywhere in a value: it is JSON data. *)
Fixpoint is_json (v : value) : bool :=
  match v with
  | Undefined => false
  | Arr elems => forallb is_json elems
  | Obj props => forallb (fun kv => is_json (snd kv)) props
  | _ => true
  end.

(** Fuel that suffices to parse the text of a value. *)
Fixpoint need (v : value) : nat :=
  match v with
  | Arr elems =>
      S ((fix items (l : list value) : nat :=
            match l with
            | [] => 0
            | x :: rest => S (need x + items rest)
            end) elems)
  | Obj props =>
      S ((fix members (l : list (string * value)) : nat :=
            match l with
            | [] => 0
            | (_, x) :: rest =>
                match x with
                | Undefined => members rest
                | _ => S (need x + members rest)
                end
            end) props)
  | _ => 1
  end.

Fixpoint need_items (l : list value) : nat :=
  match l with
  | [] => 0
  | x :: rest => S (need x + need_items rest)
  end.

Fixpoint need_members (l : list (string * value)) : nat :=
  match l with
  | [] => 0
  | (_, x) :: rest =>
      match x with
      | Undefined => need_members rest
      | _ => S (need x + need_members rest)
      end
  end.

(** The number of null bytes of a text. *)
Fixpoint count_nul (s : string) : nat :=
  match s with
  | EmptyString => 0
  | String c rest => (if Ascii.eqb c nul then 1 else 0) + count_nul rest
  end.

(** [s.slice(0, -1)] *)
Fixpoint drop_last (s : string) : string :=
  match s with
  | EmptyString => EmptyString
  | String c EmptyString => EmptyString
  | String c rest => String c (drop_last rest)
  end.

(** [s.endsWith(c)] for one character. *)
Fixpoint ends_with (c : ascii) (s : string) : bool :=
  match s with
  | EmptyString => false
  | String c' EmptyString => Ascii.eqb c' c
  | String _ rest => ends_with c rest
  end.

End Json.

(* ================================================================== *)
(** ** The A2A service (a2aService.ts) *)
(* ================================================================== *)

Module A2A.
Import Js.

(** Modelled from the spec: the enum [CoreToolCallStatus] is declared in
    @google/gemini-cli-core, outside src/.  The five members the source
    names are kept; every other member (the spec's "any other value") is
    [OtherStatus] with its tag. *)
Inductive CoreToolCallStatus : Type :=
| AwaitingApproval
| Executing
| Success
| Error
| Cancelled
| OtherStatus (tag : string).

Inductive MessageBusType : Type :=
| TOOL_CONFIRMATION_REQUEST
| TOOL_CONFIRMATION_RESPONSE
| TOOL_CALLS_UPDATE.

(** The object handed to [messageBus.publish]. *)
Record BusMessage : Type := mkBusMessage {
  type : MessageBusType;
  correlationId : string;
  confirmed : bool
}.

Inductive ReadyState : Type := CONNECTING | OPEN | CLOSING | CLOSED.

Definition is_open (r : ReadyState) : bool :=
  match r with OPEN => true | _ => false end.

(** The service with its collaborators.  [clients] and [sseClients] are the
    two [Set]s, in insertion order; sockets and responses are named by
    numbers.  The four logs record, oldest first, the calls made on the
    host's message bus, on the input-injection hook, on the sockets and on
    the SSE responses. *)
Record State : Type := mkState {
  sessionId : string;
  clients : list (nat * ReadyState);
  sseClients : list nat;
  published : list BusMessage;
  injected : list string;
  ws_sent : list (nat * string);
  sse_written : list (nat * string)
}.

Definition publish (m : BusMessage) (st : State) : State :=
  mkState (sessionId st) (clients st) (sseClients st)
          (published st ++ [m]) (injected st) (ws_sent st) (sse_written st).

(** [appEvents.emit(AppEvent.InjectInput, input)] *)
Definition emit_InjectInput (input : string) (st : State) : State :=
  mkState (sessionId st) (clients st) (sseClients st)
          (published st) (injected st ++ [input]) (ws_sent st) (sse_written st).

(** [Set.prototype.add] *)
Definition set_add (x : nat) (s : list nat) : list nat :=
  if existsb (Nat.eqb x) s then s else s ++ [x].

(** [Set.prototype.delete] *)
Definition set_delete (x : nat) (s : list nat) : list nat :=
  filter (fun y => negb (Nat.eqb x y)) s.

Definition sseClients_add (res : nat) (st : State) : State :=
  mkState (sessionId st) (clients st) (set_add res (sseClients st))
          (published st) (injected st) (ws_sent st) (sse_written st).

Definition sseClients_delete (res : nat) (st : State) : State :=
  mkState (sessionId st) (clients st) (set_delete res (sseClients st))
          (published st) (injected st) (ws_sent st) (sse_written st).

(** The publish both handlers make once [tool_call_id] and
    [selected_option_id] are known to be strings. *)
Definition publish_confirmation (toolCallId selectedOptionId : string)
                                (st : State) : State :=
  publish (mkBusMessage TOOL_CONFIRMATION_RESPONSE toolCallId
                        (String.eqb selectedOptionId "proceed_once")) st.

(** [handleClientMessage], the handler of a framed-socket message. *)
Definition handleClientMessage (message : value) (st : State) : State :=
  if is_str (get message "method") "message/stream" then
    let params := get message "params" in
    if plain_object params then
      let msg := get params "message" in
      if plain_object msg then
        let content := get msg "content" in
        if plain_object content then
          let data := get content "data" in
          if plain_object data then
            let dataObj := data in
            if is_str (get dataObj "kind") "TOOL_CALL_CONFIRMATION" then
              let toolCallId := get dataObj "tool_call_id" in
              let selectedOptionId := get dataObj "selected_option_id" in
              match as_string toolCallId, as_string selectedOptionId with
              | Some id, Some opt => publish_confirmation id opt st
              | _, _ => st
              end
            else st
          else
            let input := get content "text" in
            match as_string input with
            | Some s => emit_InjectInput s st
            | None => st
            end
        else st
      else st
    else st
  else st.

(** An express request as [handleStreamRequest] reads it: [req.params.taskId]
    ([None] on the routes without a [:taskId] segment), [req.body] as
    [express.json()] left it, and the response object [res]. *)
Record Request : Type := mkRequest {
  params_taskId : option string;
  body : value;
  res : nat
}.

(** What the handler did with [res]. *)
Inductive Reply : Type :=
| ReplyJson (status : nat) (payload : value)
    (** [res.status(status).json(payload)] *)
| ReplyStream (headers : list (string * string))
    (** headers set and flushed, the stream left open *)
| ReplyStreamThrew (headers : list (string * string)).
    (** the same, and then a TypeError from [body.params] on a missing body *)

Definition sse_headers : list (string * string) :=
  [("Content-Type", "text/event-stream");
   ("Cache-Control", "no-cache");
   ("Connection", "keep-alive")].

(** The part of [handleStreamRequest] after [const content = ...]. *)
Definition route_content (content : value) (st : State) : State :=
  let input := get content "text" in
  match as_string input with
  | Some s => emit_InjectInput s st
  | None =>
      let data := get content "data" in
      if plain_object data && is_str (get data "kind") "TOOL_CALL_CONFIRMATION"
      then
        let dataObj := data in
        let toolCallId := get dataObj "tool_call_id" in
        let selectedOptionId := get dataObj "selected_option_id" in
        match as_string toolCallId, as_string selectedOptionId with
        | Some id, Some opt => publish_confirmation id opt st
        | _, _ => st
        end
      else st
  end.

(** [req.params.taskId && req.params.taskId !== this.config.sessionId] *)
Definition taskId_mismatch (taskId : option string) (sid : string) : bool :=
  match taskId with
  | Some t => negb (String.eqb t EmptyString) && negb (String.eqb t sid)
  | None => false
  end.

Definition handleStreamRequest (req : Request) (st : State) : State * Reply :=
  if taskId_mismatch (params_taskId req) (sessionId st) then
    (st, ReplyJson 404 (Obj [("error", Str "Task not found")]))
  else
    let st1 := sseClients_add (res req) st in
    match body req with
    | Undefined | Null => (st1, ReplyStreamThrew sse_headers)
    | body =>
        let params := get body "params" in
        let message := get params "message" in
        let content := get message "content" in
        (route_content content st1, ReplyStream sse_headers)
    end.

(** [req.on('close', ...)] of a stream request. *)
Definition on_request_close (res : nat) (st : State) : State :=
  sseClients_delete res st.

(** [app.post('/tasks', ...)] *)
Definition post_tasks (st : State) : State * Reply :=
  (st, ReplyJson 201 (Obj [("id", Str (sessionId st))])).

(** [{ ...message, taskId: this.config.sessionId }] *)
Definition stamp (sid : string) (message : list (string * value)) : value :=
  Obj (set_prop "taskId" (Str sid) message).

(** [{ jsonrpc: '2.0', id: payload.taskId, result: payload }] *)
Definition jsonRpcResponse (payload : value) : value :=
  Obj [("jsonrpc", Str "2.0");
       ("id", get payload "taskId");
       ("result", payload)].

Definition sseData (payload : value) : string :=
  ("data: " ++ Json.render (jsonRpcResponse payload)
     ++ String "010"%char (String "010"%char EmptyString))%string.

(** [broadcast]: the event stamped with the session identifier goes, as one
    JSON text, to every socket that is open, and inside a JSON-RPC envelope
    to every SSE response. *)
Definition broadcast (message : list (string * value)) (st : State) : State :=
  let payload := stamp (sessionId st) message in
  let data := Json.render payload in
  mkState (sessionId st) (clients st) (sseClients st)
          (published st) (injected st)
          (ws_sent st
             ++ map (fun client => (fst client, data))
                    (filter (fun client => is_open (snd client)) (clients st)))
          (sse_written st
             ++ map (fun res => (res, sseData payload)) (sseClients st)).

(** The host-side records the listeners read.  Their declarations are in
    @google/gemini-cli-core; the fields are the ones the source reads. *)
Record ToolCallRequestInfo : Type := mkToolCallRequestInfo {
  callId : string;
  name : string;
  args : value
}.

Record ToolCallResponseInfo : Type := mkToolCallResponseInfo {
  resultDisplay : value;            (** [undefined] when there is none *)
  error : option string             (** the [message] of [response.error] *)
}.

Record ToolCall : Type := mkToolCall {
  status : CoreToolCallStatus;
  request : ToolCallRequestInfo;
  liveOutput : value;               (** [undefined] when the call has none *)
  response : ToolCallResponseInfo
}.

Definition mapToolCallStatus (status : CoreToolCallStatus) : string :=
  match status with
  | AwaitingApproval => "PENDING"
  | Executing => "EXECUTING"
  | Success => "SUCCEEDED"
  | Error => "FAILED"
  | Cancelled => "CANCELLED"
  | OtherStatus _ => "PENDING"
  end.

Definition mapToolCallResult (toolCall : ToolCall) : value :=
  match status toolCall with
  | Success =>
      Obj [("output",
            Obj [("text", or (resultDisplay (response toolCall))
                             (Str "Success"))])]
  | Error =>
      Obj [("error",
            Obj [("message",
                  or (match error (response toolCall) with
                      | Some m => Str m
                      | None => Undefined
                      end)
                     (Str "Unknown error"))])]
  | _ => Undefined
  end.

(** The event the TOOL_CALLS_UPDATE listener builds for one tool call. *)
Definition toolCallUpdate (toolCall : ToolCall) : list (string * value) :=
  [("kind", Str "TOOL_CALL_UPDATE");
   ("tool_call_id", Str (callId (request toolCall)));
   ("status", Str (mapToolCallStatus (status toolCall)));
   ("tool_name", Str (name (request toolCall)));
   ("input_parameters", args (request toolCall));
   ("live_content",
    match as_string (liveOutput toolCall) with
    | Some s => Str s
    | None => Undefined
    end);
   ("result", mapToolCallResult toolCall)].

(** [ToolConfirmationRequest.details], by its [type] tag. *)
Inductive ConfirmationDetails : Type :=
| ExecDetails (command : string)
| EditDetails (fileName filePath originalContent newContent fileDiff : string)
| McpDetails (serverName toolName : string)
| OtherDetails (title : value).

Definition mapConfirmationDetails (details : option ConfirmationDetails)
  : value :=
  match details with
  | None =>
      Obj [("generic_details",
            Obj [("description", Str "Tool confirmation required")])]
  | Some (ExecDetails command) =>
      Obj [("execute_details", Obj [("command", Str command)])]
  | Some (EditDetails fileName filePath originalContent newContent fileDiff) =>
      Obj [("file_edit_details",
            Obj [("file_name", Str fileName);
                 ("file_path", Str filePath);
                 ("old_content", Str originalContent);
                 ("new_content", Str newContent);
                 ("formatted_diff", Str fileDiff)])]
  | Some (McpDetails serverName toolName) =>
      Obj [("mcp_details",
            Obj [("server_name", Str serverName);
                 ("tool_name", Str toolName)])]
  | Some (OtherDetails title) =>
      Obj [("generic_details",
            Obj [("description", or title (Str "Tool confirmation required"))])]
  end.

(** What the host delivers to the listeners of [setupEventListeners]. *)
Inductive HostEvent : Type :=
| ModelThought (subject description : string)
| ModelContent (text : string)
| ModelToolCallRequest (info : ToolCallRequestInfo)
| ModelOther
| ToolConfirmationRequest (correlationId toolName : string)
                          (details : option ConfirmationDetails)
| ToolCallsUpdate (toolCalls : list ToolCall)
| Output (chunk : string) (isStderr : bool)   (** the chunk, decoded *)
| ConsoleLog (logType content : string).

(** The events a listener builds for what it is delivered. *)
Definition events_of (e : HostEvent) : list (list (string * value)) :=
  match e with
  | ModelThought subject description =>
      [[("kind", Str "THOUGHT");
        ("thought", Obj [("subject", Str subject);
                         ("description", Str description)])]]
  | ModelContent text =>
      [[("kind", Str "TEXT_CONTENT");
        ("content", Obj [("text", Str text)])]]
  | ModelToolCallRequest info =>
      [[("kind", Str "TOOL_CALL_UPDATE");
        ("tool_call_id", Str (callId info));
        ("status", Str "PENDING");
        ("tool_name", Str (name info));
        ("input_parameters", args info)]]
  | ModelOther => []
  | ToolConfirmationRequest cid toolName details =>
      [[("kind", Str "TOOL_CALL_UPDATE");
        ("tool_call_id", Str cid);
        ("status", Str "PENDING");
        ("tool_name", Str toolName);
        ("confirmation_request",
         Obj [("options",
               Arr [Obj [("id", Str "proceed_once");
                         ("name", Str "Allow Once")];
                    Obj [("id", Str "cancel");
                         ("name", Str "Cancel")]]);
              ("details", mapConfirmationDetails details)]);
        ("metadata", Obj [("correlationId", Str cid)])]]
  | ToolCallsUpdate toolCalls => map toolCallUpdate toolCalls
  | Output chunk isStderr =>
      [[("kind", Str "TEXT_CONTENT");
        ("content", Obj [("text", Str chunk)]);
        ("isStderr", Bool isStderr)]]
  | ConsoleLog logType content =>
      [[("kind", Str "CONSOLE_LOG");
        ("type", Str logType);
        ("content", Str content)]]
  end.

(** The listeners of [setupEventListeners]: each event built is
    broadcast, in turn. *)
Definition on_host_event (e : HostEvent) (st : State) : State :=
  fold_left (fun s message => broadcast message s) (events_of e) st.

(** What reaches the service from its peers. *)
Inductive Inbound : Type :=
| SocketMessage (message : value)     (** a parsed socket message *)
| StreamPost (req : Request).         (** a POST on one of the stream routes *)

(** The [ws.on('message')] callback once the text is parsed: only a plain
    object is handed to [handleClientMessage]. *)
Definition on_socket_message (message : value) (st : State) : State :=
  if plain_object message then handleClientMessage message st else st.

(** The [ws.on('message')] callback: a text that does not parse is logged
    and dropped. *)
Definition on_socket_data (data : string) (st : State) : State :=
  match Json.parse data with
  | Some message => on_socket_message message st
  | None => st
  end.

Definition receive (i : Inbound) (st : State) : State :=
  match i with
  | SocketMessage message => on_socket_message message st
  | StreamPost req => fst (handleStreamRequest req st)
  end.

Definition receive_all (inbound : list Inbound) (st : State) : State :=
  fold_left (fun s i => receive i s) inbound st.

End A2A.

(* ================================================================== *)
(** ** The UI mirror (uiMirrorService.ts) *)
(* ================================================================== *)

Module UiMirror.
Import Js.

Record State : Type := mkState {
  wss : bool;                              (** [this.wss !== null] *)
  clients : list (nat * A2A.ReadyState);
  sent : list (nat * string)
}.

(** [broadcast(type, data)] *)
Definition broadcast (type : string) (data : value) (st : State) : State :=
  if negb (wss st) || Nat.eqb (List.length (clients st)) 0 then st
  else
    let payload := Json.render (Obj [("type", Str type); ("data", data)]) in
    let message := (payload ++ String Json.nul EmptyString)%string in
    mkState (wss st) (clients st)
            (sent st
               ++ map (fun client => (fst client, message))
                      (filter (fun client => A2A.is_open (snd client))
                              (clients st))).

End UiMirror.

(* ================================================================== *)
(** ** The remote-control server (remoteServer.ts, remoteBridge.ts) *)
(* ================================================================== *)

Module Remote.
Import Js.

(** Modelled from the spec: [HistoryItem] is declared in ui/types.ts,
    outside src/.  The two fields the server reads are kept; [text] is
    [None] on the items that have none. *)
Record HistoryItem : Type := mkHistoryItem {
  type : string;
  text : option string
}.

(** [TuiRemoteBridge].  A registered message handler is named by a number
    and the calls made to it are logged in [submitted]; a registered
    history provider is given by the history it returns. *)
Record TuiRemoteBridge : Type := mkBridge {
  onMessage : option nat;
  getHistory : option (list HistoryItem);
  submitted : list (nat * value)
}.

Definition register (handler : nat) (history : list HistoryItem)
                    (b : TuiRemoteBridge) : TuiRemoteBridge :=
  mkBridge (Some handler) (Some history) (submitted b).

Definition unregister (b : TuiRemoteBridge) : TuiRemoteBridge :=
  mkBridge None None (submitted b).

Definition submitMessage (msg : value) (b : TuiRemoteBridge)
  : TuiRemoteBridge * bool :=
  match onMessage b with
  | Some handler =>
      (mkBridge (onMessage b) (getHistory b) (submitted b ++ [(handler, msg)]),
       true)
  | None => (b, false)
  end.

Definition getCurrentHistory (b : TuiRemoteBridge) : list HistoryItem :=
  match getHistory b with
  | Some history => history
  | None => []
  end.

Definition isRegistered (b : TuiRemoteBridge) : bool :=
  match onMessage b, getHistory b with
  | Some _, Some _ => true
  | _, _ => false
  end.

(** WhiteSpace and LineTerminator among the one-byte characters. *)
Definition is_js_space (c : ascii) : bool :=
  let n := nat_of_ascii c in
  (Nat.leb 9 n && Nat.leb n 13) || Nat.eqb n 32.

Fixpoint trim_start (s : string) : string :=
  match s with
  | EmptyString => EmptyString
  | String c rest => if is_js_space c then trim_start rest else s
  end.

Fixpoint digits_value (acc : Z) (ds : string) : Z :=
  match ds with
  | EmptyString => acc
  | String c rest =>
      digits_value (10 * acc + Z.of_nat (nat_of_ascii c - 48)) rest
  end.

(** [parseInt(s, 10)]; [None] is NaN. *)
Definition parseInt (s : string) : option Z :=
  let s0 := trim_start s in
  let (neg, s1) :=
    match s0 with
    | String c rest =>
        if Ascii.eqb c "-"%char then (true, rest)
        else if Ascii.eqb c "+"%char then (false, rest)
        else (false, s0)
    | EmptyString => (false, s0)
    end in
  match fst (Json.take_digits s1) with
  | EmptyString => None
  | ds => Some (if neg then Z.opp (digits_value 0 ds) else digits_value 0 ds)
  end.

(** [history.slice(-limit)] for [limit > 0] *)
Definition slice_last {A : Type} (limit : Z) (l : list A) : list A :=
  skipn (List.length l - Z.to_nat limit) l.

Record Request : Type := mkRequest {
  method : string;
  pathname : string;
  limit_param : option string;    (** [url.searchParams.get('limit')] *)
  body : string
}.

Record Response : Type := mkResponse {
  statusCode : nat;
  contentType : string;
  payload : string
}.

Definition json_response (status : nat) (v : value) : Response :=
  mkResponse status "application/json" (Json.render v).

Definition history_filter (item : HistoryItem) : bool :=
  (String.eqb (type item) "user"
   || String.eqb (type item) "gemini"
   || String.eqb (type item) "gemini_content")
  && match text item with
     | Some t => negb (String.eqb t EmptyString)
     | None => false
     end.

Definition history_map (item : HistoryItem) : value :=
  Obj [("role",
        Str (if String.eqb (type item) "user" then "user" else "model"));
       ("text", match text item with
                | Some t => Str t
                | None => Undefined
                end)].

Definition post_message (req : Request) (b : TuiRemoteBridge)
  : TuiRemoteBridge * Response :=
  match Json.parse (body req) with
  | None => (b, json_response 400 (Obj [("error", Str "Invalid JSON")]))
  | Some Null =>
      (* destructuring [null] throws, and the [catch] answers *)
      (b, json_response 400 (Obj [("error", Str "Invalid JSON")]))
  | Some parsed =>
      let message := get parsed "message" in
      if negb (truthy message) then
        (b, json_response 400 (Obj [("error", Str "Message is required")]))
      else if negb (isRegistered b) then
        (b, json_response 503
              (Obj [("error", Str "TUI bridge is not yet registered")]))
      else
        (fst (submitMessage message b),
         json_response 200 (Obj [("status", Str "Message submitted")]))
  end.

Definition get_history (req : Request) (b : TuiRemoteBridge)
  : TuiRemoteBridge * Response :=
  if negb (isRegistered b) then
    (b, json_response 503
          (Obj [("error", Str "TUI bridge is not yet registered")]))
  else
    let limit :=
      parseInt (match limit_param req with
                | Some s => if String.eqb s EmptyString then "0" else s
                | None => "0"
                end) in
    let history := getCurrentHistory b in
    let history := map history_map (filter history_filter history) in
    let history :=
      match limit with
      | Some n => if Z.ltb 0 n then slice_last n history else history
      | None => history
      end in
    (b, json_response 200 (Arr history)).

(** The request listener of [startRemoteServer]. *)
Definition handle (req : Request) (b : TuiRemoteBridge)
  : TuiRemoteBridge * Response :=
  if String.eqb (method req) "POST" && String.eqb (pathname req) "/message"
  then post_message req b
  else if String.eqb (method req) "GET" && String.eqb (pathname req) "/history"
  then get_history req b
  else (b, json_response 404 (Obj [("error", Str "Not Found")])).

End Remote.

(* ================================================================== *)
(** ** Vocabulary of the statements *)
(* ================================================================== *)

Module Wire.
Import Js A2A.

(** The JSON-RPC request a peer sends, around a given [content]. *)
Definition rpc (content : value) : value :=
  Obj [("jsonrpc", Str "2.0");
       ("method", Str "message/stream");
       ("params", Obj [("message", Obj [("content", content)])])].

(** The answer of a peer to the confirmation request [cid], as documented. *)
Definition confirmation (cid opt : string) : value :=
  rpc (Obj [("data", Obj [("kind", Str "TOOL_CALL_CONFIRMATION");
                          ("tool_call_id", Str cid);
                          ("selected_option_id", Str opt)])]).

(** [params.message.content] of what a peer sent. *)
Definition content_of (i : Inbound) : value :=
  match i with
  | SocketMessage message =>
      get (get (get message "params") "message") "content"
  | StreamPost req => get (get (get (body req) "params") "message") "content"
  end.

Definition data_of (i : Inbound) : value := get (content_of i) "data".

(** A participant answering a confirmation request: over the socket, or by
    a POST on a stream route (with or without the [:taskId] segment). *)
Inductive Peer : Type :=
| SocketPeer
| StreamPeer (res : nat) (withTaskId : bool).

Definition answer (sid cid : string) (a : Peer * string) : Inbound :=
  match fst a with
  | SocketPeer => SocketMessage (confirmation cid (snd a))
  | StreamPeer res withTaskId =>
      StreamPost (mkRequest (if withTaskId then Some sid else None)
                            (confirmation cid (snd a)) res)
  end.

(** The number of responses for [cid] the bus has seen. *)
Definition responses_for (cid : string) (bus : list BusMessage) : nat :=
  List.length (filter (fun m => String.eqb (correlationId m) cid) bus).

(** An empty service with session [sid]. *)
Definition idle (sid : string) : State := mkState sid [] [] [] [] [] [].

(** The sockets a broadcast reaches. *)
Definition open_clients (st : State) : list (nat * ReadyState) :=
  filter (fun client => is_open (snd client)) (clients st).

(** What a broadcast of [message] sends on the sockets and writes on the
    SSE responses. *)
Definition socket_frames (st : State) (message : list (string * value))
  : list (nat * string) :=
  map (fun client => (fst client, Json.render (stamp (sessionId st) message)))
      (open_clients st).

Definition sse_frames (st : State) (message : list (string * value))
  : list (nat * string) :=
  map (fun res => (res, sseData (stamp (sessionId st) message)))
      (sseClients st).

End Wire.

(* ================================================================== *)
(** ** Vocabulary of the statements on JSON texts *)
(* ================================================================== *)

Module JsonWords.
Import Js Json.
Local Open Scope string_scope.

(** The text of a value starts with a character that is neither white
    space nor a closing bracket. *)
Definition opens_value (s : string) : Prop :=
  exists c t, s = String c t
              /\ is_ws c = false
              /\ Ascii.eqb c "]"%char = false
              /\ Ascii.eqb c "}"%char = false.

(** What the round trip shows of one value: its text, whatever follows
    it, is read back as the value serialization left. *)
Definition reads_back (v : value) : Prop :=
  forall fuel rest,
    uniq v = true -> delimited rest = true -> need v <= fuel ->
    parse_value fuel (render v ++ rest) = Some (to_json v, rest).

End JsonWords.

Module RemoteWords.
Import Js Remote.

(** The history as the clients of GET /history are to see it: the items of
    type user, gemini or gemini_content that have a non-empty text, each as
    [{role, text}]. *)
Definition chat_messages (history : list HistoryItem) : list value :=
  flat_map
    (fun item =>
       match text item with
       | Some t =>
           if String.eqb t EmptyString then []
           else if String.eqb (type item) "user"
           then [Obj [("role", Str "user"); ("text", Str t)]]
           else if String.eqb (type item) "gemini"
                   || String.eqb (type item) "gemini_content"
           then [Obj [("role", Str "model"); ("text", Str t)]]
           else []
       | None => []
       end)
    history.

(** The last [n] elements of a list. *)
Definition last_n {A : Type} (n : nat) (l : list A) : list A :=
  rev (firstn n (rev l)).

Definition get_history_request (limit : option string) : Request :=
  mkRequest "GET" "/history" limit EmptyString.

Definition post_message_request (body : string) : Request :=
  mkRequest "POST" "/message" None body.

End RemoteWords.

(* ================================================================== *)
(** ** The A2A service over its life: start, peers, stop *)
(* ================================================================== *)

Module A2ALife.
Import Js A2A.

(** The service object.  [core] is the part the handlers thread through;
    around it, the two servers [start] creates, the number of times the
    listeners of [setupEventListeners] are subscribed, the responses whose
    request has a [close] listener, and the calls [stop] makes: [close()]
    on each server and [end()] on the responses, oldest first. *)
Record Service : Type := mkService {
  core : State;
  http_server : bool;             (** [this.server !== null] *)
  socket_server : bool;           (** [this.wss !== null] *)
  subscribed : nat;
  closing : list nat;
  socket_server_closes : nat;
  http_server_closes : nat;
  ended : list nat
}.

(** [new A2AService(config)], [sid] being [config.sessionId]. *)
Definition create (sid : string) : Service :=
  mkService (mkState sid [] [] [] [] [] []) false false 0 [] 0 0 [].

Definition with_core (f : State -> State) (srv : Service) : Service :=
  mkService (f (core srv)) (http_server srv) (socket_server srv)
            (subscribed srv) (closing srv)
            (socket_server_closes srv) (http_server_closes srv) (ended srv).

(** [start()]; [port] is [this.config.getA2APort()], [None] when it is
    [undefined]. *)
Definition start (port : option nat) (srv : Service) : Service :=
  match port with
  | None | Some 0 => srv
  | Some _ =>
      mkService (core srv) true true (S (subscribed srv)) (closing srv)
                (socket_server_closes srv) (http_server_closes srv)
                (ended srv)
  end.

(** [this.clients.add(ws)] of the [connection] callback; the socket is
    open when the callback runs. *)
Definition clients_add (ws : nat) (st : State) : State :=
  if existsb (fun client => Nat.eqb ws (fst client)) (clients st) then st
  else
    mkState (sessionId st) (clients st ++ [(ws, OPEN)]) (sseClients st)
            (published st) (injected st) (ws_sent st) (sse_written st).

(** [this.clients.delete(ws)] of the [close] callback of a socket. *)
Definition clients_delete (ws : nat) (st : State) : State :=
  mkState (sessionId st)
          (filter (fun client => negb (Nat.eqb ws (fst client))) (clients st))
          (sseClients st)
          (published st) (injected st) (ws_sent st) (sse_written st).

(** The [readyState] of a socket changes under the service (the [ws]
    library and the network do that). *)
Definition set_readyState (ws : nat) (r : ReadyState) (st : State) : State :=
  mkState (sessionId st)
          (map (fun client =>
                  if Nat.eqb ws (fst client) then (ws, r) else client)
               (clients st))
          (sseClients st)
          (published st) (injected st) (ws_sent st) (sse_written st).

(** A POST on one of the stream routes.  [req.on('close', ...)] is the
    last statement of [handleStreamRequest]: the listener is there only
    when the handler ran to its end. *)
Definition on_stream_request (req : Request) (srv : Service) : Service :=
  mkService (fst (handleStreamRequest req (core srv)))
            (http_server srv) (socket_server srv) (subscribed srv)
            (match snd (handleStreamRequest req (core srv)) with
             | ReplyStream _ => set_add (res req) (closing srv)
             | _ => closing srv
             end)
            (socket_server_closes srv) (http_server_closes srv) (ended srv).

(** The [close] event of the request that came with [res]. *)
Definition on_close (res : nat) (srv : Service) : Service :=
  if existsb (Nat.eqb res) (closing srv)
  then with_core (on_request_close res) srv
  else srv.

(** [stop()] *)
Definition stop (srv : Service) : Service :=
  mkService (mkState (sessionId (core srv)) (clients (core srv)) []
                     (published (core srv)) (injected (core srv))
                     (ws_sent (core srv)) (sse_written (core srv)))
            (http_server srv) (socket_server srv) (subscribed srv)
            (closing srv)
            (if socket_server srv then S (socket_server_closes srv)
             else socket_server_closes srv)
            (if http_server srv then S (http_server_closes srv)
             else http_server_closes srv)
            (ended srv ++ sseClients (core srv)).

(** What happens to a service between [start()] and the end of the
    process. *)
Inductive Step : Type :=
| Connection (ws : nat)                       (** [wss.on('connection')] *)
| SocketData (data : string)                  (** [ws.on('message')] *)
| SocketClose (ws : nat)                      (** [ws.on('close')] *)
| ReadyStateChange (ws : nat) (r : ReadyState)
| StreamRequest (req : Request)
| RequestClose (res : nat)                    (** [req.on('close')] *)
| Host (e : HostEvent)     (** an event of the host, for every subscription *)
| Stop.

Definition step (s : Step) (srv : Service) : Service :=
  match s with
  | Connection ws => with_core (clients_add ws) srv
  | SocketData data => with_core (on_socket_data data) srv
  | SocketClose ws => with_core (clients_delete ws) srv
  | ReadyStateChange ws r => with_core (set_readyState ws r) srv
  | StreamRequest req => on_stream_request req srv
  | RequestClose res => on_close res srv
  | Host e => with_core (Nat.iter (subscribed srv) (on_host_event e)) srv
  | Stop => stop srv
  end.

Definition run (trace : list Step) (srv : Service) : Service :=
  fold_left (fun s x => step x s) trace srv.

End A2ALife.

(* ================================================================== *)
(** ** The UI mirror over its life (uiMirrorService.ts) *)
(* ================================================================== *)

Module UiMirrorLife.
Import Js.

(** The singleton: the part [broadcast] reads ([mirror]), the number of
    times [onHookStart] and [onHookEnd] are subscribed to the core events,
    and the calls of [wss.close()]. *)
Record Service : Type := mkService {
  mirror : UiMirror.State;
  hook_listeners : nat;
  closes : nat
}.

(** [new UiMirrorService()], what the first [getInstance()] returns. *)
Definition instance : Service :=
  mkService (UiMirror.mkState false [] []) 0 0.

Definition isRunning (s : Service) : bool := UiMirror.wss (mirror s).

(** What [new WebSocketServer({ port })] does: it comes to listen, it emits
    [error] (the port is taken), or the constructor throws. *)
Inductive Outcome : Type := Listening | ErrorEvent | Thrown.

(** How the promise of [start] settles. *)
Inductive Settled : Type := Resolved | Rejected.

Definition start (port : nat) (outcome : Outcome) (s : Service)
  : Service * Settled :=
  if UiMirror.wss (mirror s) then (s, Resolved)
  else
    let listeners := S (hook_listeners s) in
    match outcome with
    | Listening =>
        (mkService (UiMirror.mkState true (UiMirror.clients (mirror s))
                                     (UiMirror.sent (mirror s)))
                   listeners (closes s),
         Resolved)
    | ErrorEvent =>
        (mkService (UiMirror.mkState true (UiMirror.clients (mirror s))
                                     (UiMirror.sent (mirror s)))
                   listeners (closes s),
         Rejected)
    | Thrown => (mkService (mirror s) listeners (closes s), Rejected)
    end.

(** [stop()]; [coreEvents.off] takes one subscription away, if there is
    one. *)
Definition stop (s : Service) : Service :=
  if UiMirror.wss (mirror s) then
    mkService (UiMirror.mkState false [] (UiMirror.sent (mirror s)))
              (Nat.pred (hook_listeners s)) (S (closes s))
  else mkService (mirror s) (Nat.pred (hook_listeners s)) (closes s).

Definition with_mirror (f : UiMirror.State -> UiMirror.State) (s : Service)
  : Service :=
  mkService (f (mirror s)) (hook_listeners s) (closes s).

(** [this.clients.add(ws)] of the [connection] callback. *)
Definition clients_add (ws : nat) (m : UiMirror.State) : UiMirror.State :=
  if existsb (fun client => Nat.eqb ws (fst client)) (UiMirror.clients m)
  then m
  else UiMirror.mkState (UiMirror.wss m)
                        (UiMirror.clients m ++ [(ws, A2A.OPEN)])
                        (UiMirror.sent m).

(** [this.clients.delete(ws)] of the [close] and [error] callbacks. *)
Definition clients_delete (ws : nat) (m : UiMirror.State) : UiMirror.State :=
  UiMirror.mkState (UiMirror.wss m)
                   (filter (fun client => negb (Nat.eqb ws (fst client)))
                           (UiMirror.clients m))
                   (UiMirror.sent m).

Definition set_readyState (ws : nat) (r : A2A.ReadyState)
                          (m : UiMirror.State) : UiMirror.State :=
  UiMirror.mkState (UiMirror.wss m)
                   (map (fun client =>
                           if Nat.eqb ws (fst client) then (ws, r) else client)
                        (UiMirror.clients m))
                   (UiMirror.sent m).

(** [onHookStart] and [onHookEnd]; the payload is an object of the host,
    given by its properties. *)
Definition onHookStart (payload : list (string * value))
                       (m : UiMirror.State) : UiMirror.State :=
  UiMirror.broadcast "hook" (Obj (set_prop "type" (Str "hook_start") payload))
                     m.

Definition onHookEnd (payload : list (string * value))
                     (m : UiMirror.State) : UiMirror.State :=
  UiMirror.broadcast "hook" (Obj (set_prop "type" (Str "hook_end") payload)) m.

Inductive Step : Type :=
| Start (port : nat) (outcome : Outcome)
| Stop
| Connection (ws : nat)
| SocketClose (ws : nat)                  (** [close] or [error] of a socket *)
| ReadyStateChange (ws : nat) (r : A2A.ReadyState)
| HookStart (payload : list (string * value))
| HookEnd (payload : list (string * value))
| Broadcast (type : string) (data : value).

Definition step (x : Step) (s : Service) : Service :=
  match x with
  | Start port outcome => fst (start port outcome s)
  | Stop => stop s
  | Connection ws => with_mirror (clients_add ws) s
  | SocketClose ws => with_mirror (clients_delete ws) s
  | ReadyStateChange ws r => with_mirror (set_readyState ws r) s
  | HookStart payload =>
      with_mirror (Nat.iter (hook_listeners s) (onHookStart payload)) s
  | HookEnd payload =>
      with_mirror (Nat.iter (hook_listeners s) (onHookEnd payload)) s
  | Broadcast type data => with_mirror (UiMirror.broadcast type data) s
  end.

Definition run (trace : list Step) (s : Service) : Service :=
  fold_left (fun s x => step x s) trace s.

End UiMirrorLife.

(* ================================================================== *)
(** ** The request listener of the remote-control server *)
(* ================================================================== *)

Module RemoteListener.
Import Js Remote.

(** A request as the listener of [startRemoteServer] gets it.  [target] is
    what [new URL(req.url || '/', `http://${req.headers.host}`)] makes of
    the request target and of the Host header: the path name and the
    [limit] parameter of the query, or [None] when the constructor throws
    (a target such as [//], a Host header that is no host). *)
Record Incoming : Type := mkIncoming {
  in_method : string;
  target : option (string * option string);
  in_body : string
}.

(** The [end] callback of a POST on /message.  The handler registered on
    the bridge is code of the host: [throws h] says that the handler named
    [h] throws when it is called.  The call is made inside the [try], so
    the [catch] answers for a handler that throws as it does for a body
    that does not parse. *)
Definition on_end (throws : nat -> bool) (body : string)
                  (b : TuiRemoteBridge) : TuiRemoteBridge * Response :=
  match Json.parse body with
  | None => (b, json_response 400 (Obj [("error", Str "Invalid JSON")]))
  | Some Null =>
      (b, json_response 400 (Obj [("error", Str "Invalid JSON")]))
  | Some parsed =>
      let message := get parsed "message" in
      if negb (truthy message) then
        (b, json_response 400 (Obj [("error", Str "Message is required")]))
      else if negb (isRegistered b) then
        (b, json_response 503
              (Obj [("error", Str "TUI bridge is not yet registered")]))
      else
        let called := fst (submitMessage message b) in
        match onMessage b with
        | Some handler =>
            if throws handler then
              (called, json_response 400 (Obj [("error", Str "Invalid JSON")]))
            else
              (called,
               json_response 200 (Obj [("status", Str "Message submitted")]))
        | None =>
            (called,
             json_response 200 (Obj [("status", Str "Message submitted")]))
        end
  end.

(** The listener; [None] when it throws before any answer, the URL being
    built outside every [try]. *)
Definition on_request (throws : nat -> bool) (r : Incoming)
                      (b : TuiRemoteBridge)
  : option (TuiRemoteBridge * Response) :=
  match target r with
  | None => None
  | Some (pathname, limit) =>
      if String.eqb (in_method r) "POST" && String.eqb pathname "/message"
      then Some (on_end throws (in_body r) b)
      else if String.eqb (in_method r) "GET" && String.eqb pathname "/history"
      then Some (get_history (mkRequest (in_method r) pathname limit
                                        (in_body r)) b)
      else Some (b, json_response 404 (Obj [("error", Str "Not Found")]))
  end.

End RemoteListener.

(* ================================================================== *)
(** ** Model prices (costs.ts) *)
(* ================================================================== *)

Module Costs.
Import PrimFloat.
#[local] Set Warnings "-inexact-float".

(** A JavaScript number is a binary64 float, and so is [float]. *)
Record ModelCostConfig : Type := mkModelCostConfig {
  inputCostPer1M : float;
  outputCostPer1M : float;
  cachedInputCostPer1M : float
}.

(** The own properties of the table, in the order [Object.keys] lists
    them. *)
Definition GEMINI_MODEL_COSTS : list (string * ModelCostConfig) :=
  [("gemini-3-pro-preview", mkModelCostConfig 2.0 12.0 0.2);
   ("gemini-3-flash-preview", mkModelCostConfig 0.5 3.0 0.05);
   ("gemini-2.5-pro", mkModelCostConfig 1.25 10.0 0.125);
   ("gemini-2.5-flash", mkModelCostConfig 0.3 2.5 0.03);
   ("gemini-2.5-flash-lite", mkModelCostConfig 0.1 0.4 0.01);
   ("gemini-2.0-flash", mkModelCostConfig 0.1 0.4 0.025);
   ("gemini-2.0-flash-lite", mkModelCostConfig 0.075 0.3 0.01);
   ("gemini-1.5-pro", mkModelCostConfig 3.5 10.5 0.875);
   ("gemini-1.5-flash", mkModelCostConfig 0.075 0.3 0.01875);
   ("gemini-1.5-flash-8b", mkModelCostConfig 0.0375 0.15 0.01);
   ("default", mkModelCostConfig 0 0 0)].

(** What [GEMINI_MODEL_COSTS[name]] evaluates to: the configuration of an
    own property, a member of [Object.prototype] (the table is an object
    literal), or [undefined]. *)
Inductive Entry : Type :=
| Config (config : ModelCostConfig)
| Inherited (name : string)
| NoEntry.

Fixpoint own (name : string) (table : list (string * ModelCostConfig))
  : option ModelCostConfig :=
  match table with
  | [] => None
  | (key, config) :: rest =>
      if String.eqb name key then Some config else own name rest
  end.

(** The names of the members of [Object.prototype] that have no capital
    letter; the others cannot be what [toLowerCase] returns. *)
Definition inherited (name : string) : bool :=
  String.eqb name "constructor" || String.eqb name "__proto__".

Definition index (name : string) : Entry :=
  match own name GEMINI_MODEL_COSTS with
  | Some config => Config config
  | None => if inherited name then Inherited name else NoEntry
  end.

(** [String.prototype.toLowerCase] on a name written in ASCII, as the
    model names are. *)
Definition lower (c : ascii) : ascii :=
  let n := nat_of_ascii c in
  if Nat.leb 65 n && Nat.leb n 90 then ascii_of_nat (n + 32) else c.

Fixpoint toLowerCase (s : string) : string :=
  match s with
  | EmptyString => EmptyString
  | String c rest => String (lower c) (toLowerCase rest)
  end.

Fixpoint starts_with (key s : string) : bool :=
  match key, s with
  | EmptyString, _ => true
  | String a key', String b s' => Ascii.eqb a b && starts_with key' s'
  | String _ _, EmptyString => false
  end.

(** [s.includes(key)] *)
Fixpoint includes (s key : string) : bool :=
  starts_with key s
  || match s with
     | EmptyString => false
     | String _ rest => includes rest key
     end.

(** [Object.keys(GEMINI_MODEL_COSTS)] *)
Definition knownModels : list string := map fst GEMINI_MODEL_COSTS.

Definition getModelCostConfig (modelName : string) : Entry :=
  let normalizedName := toLowerCase modelName in
  match index normalizedName with
  | NoEntry =>
      match find (fun key => includes normalizedName key) knownModels with
      | Some key => index key
      | None => index "default"
      end
  | entry => entry
  end.

(** [config.field] as a number: a member of [Object.prototype] has no such
    property, and [undefined] is NaN in a product. *)
Definition cost_of (field : ModelCostConfig -> float) (entry : Entry)
  : float :=
  match entry with
  | Config config => field config
  | _ => PrimFloat.nan
  end.

(** [Math.max(0, x)] *)
Definition max_zero (x : float) : float :=
  if PrimFloat.is_nan x then PrimFloat.nan
  else if PrimFloat.ltb 0 x then x
  else 0%float.

Definition calculateCost (modelName : string)
                         (inputTokens outputTokens cachedTokens : float)
  : float :=
  let config := getModelCostConfig modelName in
  let uncachedInput := max_zero (inputTokens - cachedTokens) in
  let inputCost :=
    (uncachedInput / 1000000 * cost_of inputCostPer1M config)%float in
  let outputCost :=
    (outputTokens / 1000000 * cost_of outputCostPer1M config)%float in
  let cachedCost :=
    (cachedTokens / 1000000 * cost_of cachedInputCostPer1M config)%float in
  (inputCost + outputCost + cachedCost)%float.

End Costs.

(* ================================================================== *)
(** ** Vocabulary of the statements on peers and traces *)
(* ================================================================== *)

Module PeerWords.
Import Js A2A.

(** What a log holds for one peer, oldest first. *)
Definition sent_to (peer : nat) (log : list (nat * string)) : list string :=
  map snd (filter (fun entry => Nat.eqb peer (fst entry)) log).

(** The host delivers a sequence of events. *)
Definition deliver (events : list HostEvent) (st : State) : State :=
  fold_left (fun s e => on_host_event e s) events st.

(** No character below the space: no line feed, no carriage return, no
    null byte. *)
Fixpoint no_control (s : string) : bool :=
  match s with
  | EmptyString => true
  | String c rest => Nat.leb 32 (nat_of_ascii c) && no_control rest
  end.

(** The request a peer makes of [content] under a given [method]. *)
Definition rpc_with (method content : value) : value :=
  Obj [("jsonrpc", Str "2.0");
       ("method", method);
       ("params", Obj [("message", Obj [("content", content)])])].

Definition connects (ws : nat) (x : A2ALife.Step) : bool :=
  match x with
  | A2ALife.Connection ws' => Nat.eqb ws ws'
  | _ => false
  end.

Definition is_stream_request (x : A2ALife.Step) : bool :=
  match x with
  | A2ALife.StreamRequest _ => true
  | _ => false
  end.

Definition streams_to (res : nat) (x : A2ALife.Step) : bool :=
  match x with
  | A2ALife.StreamRequest req => Nat.eqb res (A2A.res req)
  | _ => false
  end.

End PeerWords.

Module ConfirmationWords.
Import Js A2A Wire.

(** The handler of its transport goes on to the [data] of the message:
    on the socket, the method of the message is message/stream; on a
    stream route, the task identifier of the path, if there is one, is not
    that of another session, and the content has no [text] that is a
    string (there the text is read first). *)
Definition reaches_data (i : Inbound) (st : State) : bool :=
  match i with
  | SocketMessage message => is_str (get message "method") "message/stream"
  | StreamPost req =>
      negb (taskId_mismatch (params_taskId req) (sessionId st))
      && match as_string (get (content_of i) "text") with
         | Some _ => false
         | None => true
         end
  end.

End ConfirmationWords.

Module MirrorWords.
Import Js UiMirrorLife.

(** A start whose [new WebSocketServer] throws. *)
Definition throws (x : Step) : bool :=
  match x with
  | Start _ Thrown => true
  | _ => false
  end.

Definition is_start (x : Step) : bool :=
  match x with
  | Start _ _ => true
  | _ => false
  end.

(** The frame of the mirror for an event: its JSON text and a null
    byte. *)
Definition frame (type : string) (data : value) : string :=
  (Json.render (Obj [("type", Str type); ("data", data)])
     ++ String Json.nul EmptyString)%string.

(** A sequence of events, each with its type and data, is broadcast. *)
Definition announce (events : list (string * value)) (m : UiMirror.State)
  : UiMirror.State :=
  fold_left (fun s e => UiMirror.broadcast (fst e) (snd e) s) events m.

End MirrorWords.

Module HistoryWords.
Import Js.

(** A message of the history as the remote server gives it: a role, user
    or model, and a text that is not empty. *)
Definition is_chat_message (m : value) : Prop :=
  exists role text,
    m = Obj [("role", Str role); ("text", Str text)]
    /\ (role = "user" \/ role = "model")
    /\ text <> EmptyString.

(** [Number.MAX_SAFE_INTEGER], 2^53 - 1. *)
Definition MAX_SAFE_INTEGER : Z := 9007199254740991.

(** Every number of the value is an integer that a JavaScript number
    holds exactly: [JSON.parse] gives it back as it is written. *)
Fixpoint safe_integers (v : value) : bool :=
  match v with
  | Num z => Z.leb (Z.abs z) MAX_SAFE_INTEGER
  | Arr elems => forallb safe_integers elems
  | Obj props => forallb (fun kv => safe_integers (snd kv)) props
  | _ => true
  end.

End HistoryWords.

Module CostWords.
Import Costs.

(** The two entries are the same: the same three prices, or the same
    member of [Object.prototype], or both [undefined]. *)
Definition same_entry (a b : Entry) : bool :=
  match a, b with
  | Config x, Config y =>
      PrimFloat.eqb (inputCostPer1M x) (inputCostPer1M y)
      && PrimFloat.eqb (outputCostPer1M x) (outputCostPer1M y)
      && PrimFloat.eqb (cachedInputCostPer1M x) (cachedInputCostPer1M y)
  | Inherited n, Inherited m => String.eqb n m
  | NoEntry, NoEntry => true
  | _, _ => false
  end.

(** A name written in ASCII, as the model names are; [toLowerCase] is
    modelled on these. *)
Fixpoint is_ascii (s : string) : bool :=
  match s with
  | EmptyString => true
  | String c rest => Nat.ltb (nat_of_ascii c) 128 && is_ascii rest
  end.

(** The models whose name extends the name of a model listed before them
    in the table. *)
Definition extended_names : list string :=
  ["gemini-2.5-flash-lite"; "gemini-2.0-flash-lite"; "gemini-1.5-flash-8b"].

End CostWords.

(* ================================================================== *)
(** ** Induction on values *)
(* ================================================================== *)

Section ValueInduction.
Import Js.

Variable P : value -> Prop.
Hypothesis PUndefined : P Undefined.
Hypothesis PNull : P Null.
Hypothesis PBool : forall b, P (Bool b).
Hypothesis PNum : forall z, P (Num z).
Hypothesis PStr : forall s, P (Str s).
Hypothesis PArr : forall elems, Forall P elems -> P (Arr elems).
Hypothesis PObj :
  forall props, Forall (fun kv => P (snd kv)) props -> P (Obj props).

(** Induction on a value, with the property known of the elements of an
    array and of the values of the properties of an object. *)
Fixpoint value_induction (v : value) : P v :=
  match v with
  | Undefined => PUndefined
  | Null => PNull
  | Bool b => PBool b
  | Num z => PNum z
  | Str s => PStr s
  | Arr elems =>
      PArr elems
        ((fix all (l : list value) : Forall P l :=
            match l with
            | [] => Forall_nil P
            | x :: rest => Forall_cons x (value_induction x) (all rest)
            end) elems)
  | Obj props =>
      PObj props
        ((fix all (l : list (string * value))
            : Forall (fun kv => P (snd kv)) l :=
            match l with
            | [] => Forall_nil _
            | kv :: rest =>
                Forall_cons kv
                  (match kv as p return P (snd p) with
                   | (_, x) => value_induction x
                   end)
                  (all rest)
            end) props)
  end.

End ValueInduction.

(* ================================================================== *)
(** ** Input routing and confirmations of the A2A service *)
(* ================================================================== *)

Section A2AInput.
Import Js A2A Wire.

(** Case analysis on every test a handler makes. *)
Ltac handler_cases :=
  repeat match goal with
         | |- context [if ?b then _ else _] => destruct b
         | |- context [match as_string ?v with _ => _ end] =>
             destruct (as_string v)
         end.

Lemma publish_confirmation_spec toolCallId opt st :
  published (publish_confirmation toolCallId opt st)
  = published st
      ++ [mkBusMessage TOOL_CONFIRMATION_RESPONSE toolCallId
                       (String.eqb opt "proceed_once")]
  /\ sessionId (publish_confirmation toolCallId opt st) = sessionId st.
Proof. split; reflexivity. Qed.

(** Neither handler ever changes the session identifier. *)
Lemma handleClientMessage_sessionId message st :
  sessionId (handleClientMessage message st) = sessionId st.
Proof.
  unfold handleClientMessage. handler_cases; reflexivity.
Qed.

Lemma route_content_sessionId content st :
  sessionId (route_content content st) = sessionId st.
Proof.
  unfold route_content. handler_cases; reflexivity.
Qed.

Lemma receive_sessionId i st : sessionId (receive i st) = sessionId st.
Proof.
  destruct i as [message | req]; simpl.
  - unfold on_socket_message. destruct (plain_object message); trivial.
    apply handleClientMessage_sessionId.
  - unfold handleStreamRequest.
    destruct (taskId_mismatch _ _); trivial.
    destruct (body req); simpl; trivial;
      rewrite route_content_sessionId; reflexivity.
Qed.

(** What one inbound message adds to the bus: nothing, or one response
    built from the two identifiers of its [data]. *)
Lemma receive_published i st :
  published (receive i st) = published st
  \/ exists id opt,
       get (data_of i) "tool_call_id" = Str id
       /\ get (data_of i) "selected_option_id" = Str opt
       /\ published (receive i st)
          = published st
              ++ [mkBusMessage TOOL_CONFIRMATION_RESPONSE id
                               (String.eqb opt "proceed_once")].
Proof.
  destruct i as [message | req]; simpl.
  - unfold on_socket_message, handleClientMessage, data_of, content_of.
    repeat match goal with
           | |- context [if ?b then _ else _] => destruct b; auto
           end.
    + destruct (get _ "tool_call_id") eqn:Hid; simpl; auto.
      destruct (get _ "selected_option_id") eqn:Hopt; simpl; auto.
      right. eauto.
    + destruct (as_string _); auto.
  - unfold handleStreamRequest, data_of, content_of.
    destruct (taskId_mismatch _ _); auto.
    assert (Hroute: forall content st1,
               published st1 = published st ->
               published (route_content content st1) = published st
               \/ exists id opt,
                   get (get content "data") "tool_call_id" = Str id
                   /\ get (get content "data") "selected_option_id" = Str opt
                   /\ published (route_content content st1)
                      = published st
                          ++ [mkBusMessage TOOL_CONFIRMATION_RESPONSE id
                                (String.eqb opt "proceed_once")]).
    { intros content st1 Hst1. unfold route_content.
      destruct (as_string (get content "text")); auto.
      destruct (_ && _); auto.
      destruct (get _ "tool_call_id") eqn:Hid; simpl; auto.
      destruct (get _ "selected_option_id") eqn:Hopt; simpl; auto.
      right. exists s, s0. rewrite Hst1. auto. }
    destruct (body req); simpl; auto;
      apply (Hroute _ (sseClients_add (res req) st)); reflexivity.
Qed.

(** The order of the two handlers.  The stream handler injects a string
    [text] whatever [data] is; the socket handler reads [text] only when
    [data] is not an object. *)
Lemma stream_reads_text_first content st s :
  get content "text" = Str s ->
  route_content content st = emit_InjectInput s st.
Proof. intro H. unfold route_content. now rewrite H. Qed.

Lemma socket_reads_data_first params msg content st :
  plain_object params = true -> get params "message" = msg ->
  plain_object msg = true -> get msg "content" = content ->
  plain_object content = true ->
  plain_object (get content "data") = true ->
  injected
    (handleClientMessage
       (Obj [("method", Str "message/stream"); ("params", params)]) st)
  = injected st.
Proof.
  intros Hp <- Hm <- Hc Hd. unfold handleClientMessage. simpl.
  rewrite Hp, Hm, Hc, Hd. handler_cases; reflexivity.
Qed.

(** A property that has a value is a property of an object. *)
Lemma get_defined (v : value) (k : string) :
  get v k <> Undefined -> exists props, v = Obj props.
Proof. destruct v; simpl; try congruence. intros _. now eexists. Qed.

Lemma get_Str (v : value) (k s : string) :
  get v k = Str s -> exists props, v = Obj props.
Proof. intro H. apply (get_defined v k). congruence. Qed.

Lemma get_Obj (v : value) (k : string) (props : list (string * value)) :
  get v k = Obj props -> exists props', v = Obj props'.
Proof. intro H. apply (get_defined v k). congruence. Qed.

(** What the stream handler does with a content, by case: it injects a
    text that is a string; failing that, it publishes the response to a
    complete confirmation; failing that, nothing.  The registries, the
    session identifier and the two outbound logs are left as they are. *)
Lemma route_content_effect content st :
  (sessionId (route_content content st) = sessionId st
   /\ clients (route_content content st) = clients st
   /\ sseClients (route_content content st) = sseClients st
   /\ ws_sent (route_content content st) = ws_sent st
   /\ sse_written (route_content content st) = sse_written st)
  /\ (forall text,
         get content "text" = Str text ->
         injected (route_content content st) = injected st ++ [text]
         /\ published (route_content content st) = published st)
  /\ (forall id opt,
         as_string (get content "text") = None ->
         get (get content "data") "kind" = Str "TOOL_CALL_CONFIRMATION" ->
         get (get content "data") "tool_call_id" = Str id ->
         get (get content "data") "selected_option_id" = Str opt ->
         published (route_content content st)
         = published st
             ++ [mkBusMessage TOOL_CONFIRMATION_RESPONSE id
                              (String.eqb opt "proceed_once")]
         /\ injected (route_content content st) = injected st)
  /\ (as_string (get content "text") = None ->
      is_str (get (get content "data") "kind") "TOOL_CALL_CONFIRMATION"
      = false
      \/ as_string (get (get content "data") "tool_call_id") = None
      \/ as_string (get (get content "data") "selected_option_id") = None ->
      published (route_content content st) = published st
      /\ injected (route_content content st) = injected st).
Proof.
  split; [ | split; [ | split]].
  - unfold route_content. handler_cases; repeat split.
  - intros text Htext. unfold route_content. rewrite Htext. now split.
  - intros id opt Htext Hkind Hid Hopt. unfold route_content.
    rewrite Htext.
    destruct (get_Str _ _ _ Hkind) as (d & Hd).
    rewrite Hd in *. rewrite Hkind, Hid, Hopt. now split.
  - intros Htext Hmissing. unfold route_content. rewrite Htext.
    destruct (plain_object (get content "data")); cbn [andb];
      [ | now split].
    destruct Hmissing as [H | [H | H]]; rewrite H;
      handler_cases; now split.
Qed.

End A2AInput.

Section A2AInputProperties.
Import Js A2A Wire ConfirmationWords.

Lemma receive_answer cid a st :
  published (receive (answer (sessionId st) cid a) st)
  = published st
      ++ [mkBusMessage TOOL_CONFIRMATION_RESPONSE cid
                       (String.eqb (snd a) "proceed_once")].
Proof.
  destruct a as [[ | res [ | ]] opt]; unfold answer; simpl; trivial.
  unfold handleStreamRequest, taskId_mismatch; simpl.
  rewrite String.eqb_refl, andb_false_r. reflexivity.
Qed.

Lemma receive_all_answers cid answers : forall st,
  published (receive_all (map (answer (sessionId st) cid) answers) st)
  = published st
      ++ map (fun a => mkBusMessage TOOL_CONFIRMATION_RESPONSE cid
                                    (String.eqb (snd a) "proceed_once"))
             answers.
Proof.
  induction answers as [ | a answers IH]; intro st; simpl.
  - now rewrite app_nil_r.
  - unfold receive_all in *; simpl.
    rewrite <- (receive_sessionId (answer (sessionId st) cid a) st) at 1.
    rewrite IH, receive_answer, <- app_assoc. reflexivity.
Qed.

Lemma responses_for_app cid bus1 bus2 :
  responses_for cid (bus1 ++ bus2)
  = responses_for cid bus1 + responses_for cid bus2.
Proof.
  unfold responses_for. now rewrite filter_app, length_app.
Qed.

Lemma responses_for_answers cid (answers : list (Peer * string)) :
  responses_for cid
    (map (fun a => mkBusMessage TOOL_CONFIRMATION_RESPONSE cid
                                (String.eqb (snd a) "proceed_once"))
         answers)
  = List.length answers.
Proof.
  unfold responses_for.
  induction answers as [ | a answers IH]; simpl; trivial.
  rewrite String.eqb_refl. simpl. now rewrite IH.
Qed.

(** C1, counterexample.  The host asks for the confirmation c1 and two
    socket peers answer it, the first with "proceed_once", the second with
    "cancel": the bus, empty before, sees two TOOL_CONFIRMATION_RESPONSE
    messages for c1; the second answer is published like the first. *)
Lemma second_confirmation_is_published :
  let inbound := [SocketMessage (confirmation "c1" "proceed_once");
                  SocketMessage (confirmation "c1" "cancel")] in
  published (idle "S") = []
  /\ published (receive_all inbound (idle "S"))
     = [mkBusMessage TOOL_CONFIRMATION_RESPONSE "c1" true;
        mkBusMessage TOOL_CONFIRMATION_RESPONSE "c1" false]
  /\ responses_for "c1" (published (receive_all inbound (idle "S"))) = 2.
Proof. repeat split. Qed.

(** C1, as amended.  The service keeps no record of the confirmations it
    has forwarded: whatever the bus has seen before, every answer to the
    confirmation request [cid], from a socket peer or from a peer posting on
    a stream route, puts one TOOL_CONFIRMATION_RESPONSE for [cid] on the
    bus, in the order of arrival; [n] answers make [n] publishes. *)
Theorem every_confirmation_is_published :
  forall (st : State) (cid : string) (answers : list (Peer * string)),
    let st' := receive_all (map (answer (sessionId st) cid) answers) st in
    published st'
    = published st
        ++ map (fun a => mkBusMessage TOOL_CONFIRMATION_RESPONSE cid
                                      (String.eqb (snd a) "proceed_once"))
               answers
    /\ responses_for cid (published st')
       = responses_for cid (published st) + List.length answers.
Proof.
  intros st cid answers st'. subst st'.
  rewrite receive_all_answers. split; trivial.
  now rewrite responses_for_app, responses_for_answers.
Qed.

(** C2.  A message whose [data] is a TOOL_CALL_CONFIRMATION with the two
    strings [tool_call_id] and [selected_option_id], and whose handler goes
    on to its [data] (on the socket: the method is message/stream; on a
    stream route: the path names no other session and the content has no
    string [text], which would come first), puts one message on the bus and
    injects nothing: a TOOL_CONFIRMATION_RESPONSE that carries the
    [tool_call_id] as [correlationId], with [confirmed] true when the option
    is "proceed_once" and false for every other option.  And whatever a peer
    sends, on either transport, every message its handling puts on the bus
    is such a response, made from the two strings of the [data] sent. *)
Theorem confirmation_option_semantics :
  forall (i : Inbound) (st : State),
    (forall id opt,
        reaches_data i st = true ->
        get (data_of i) "kind" = Str "TOOL_CALL_CONFIRMATION" ->
        get (data_of i) "tool_call_id" = Str id ->
        get (data_of i) "selected_option_id" = Str opt ->
        exists r,
          published (receive i st) = published st ++ [r]
          /\ injected (receive i st) = injected st
          /\ type r = TOOL_CONFIRMATION_RESPONSE
          /\ correlationId r = id
          /\ (confirmed r = true <-> opt = "proceed_once")
          /\ (confirmed r = false <-> opt <> "proceed_once"))
    /\ (forall new r,
          published (receive i st) = published st ++ new ->
          In r new ->
          exists id opt,
            get (data_of i) "tool_call_id" = Str id
            /\ get (data_of i) "selected_option_id" = Str opt
            /\ new = [r]
            /\ type r = TOOL_CONFIRMATION_RESPONSE
            /\ correlationId r = id
            /\ (confirmed r = true <-> opt = "proceed_once")).
Proof.
  intros i st. split.
  - intros id opt Hreach Hkind Hid Hopt.
    exists (mkBusMessage TOOL_CONFIRMATION_RESPONSE id
                         (String.eqb opt "proceed_once")).
    assert (Hsem : (String.eqb opt "proceed_once" = true
                    <-> opt = "proceed_once")
                   /\ (String.eqb opt "proceed_once" = false
                       <-> opt <> "proceed_once"))
      by (split; [apply String.eqb_eq | apply String.eqb_neq]).
    destruct Hsem as [Htrue Hfalse].
    cut (published (receive i st)
         = published st
             ++ [mkBusMessage TOOL_CONFIRMATION_RESPONSE id
                              (String.eqb opt "proceed_once")]
         /\ injected (receive i st) = injected st).
    { intros [Hp Hi]. repeat split; trivial; cbn [confirmed];
        first [apply Htrue | apply Hfalse]. }
    unfold data_of in Hkind, Hid, Hopt.
    destruct (get_Str _ _ _ Hkind) as (d & Hd).
    destruct (get_Obj _ _ _ Hd) as (c & Hc).
    destruct i as [message | req]; cbn [receive reaches_data] in *.
    + unfold content_of in Hc.
      destruct (get_Obj _ _ _ Hc) as (m & Hm).
      destruct (get_Obj _ _ _ Hm) as (p & Hp).
      destruct (get_Obj _ _ _ Hp) as (props & ->).
      unfold on_socket_message, handleClientMessage.
      cbn [plain_object truthy typeof_object isArray negb andb].
      unfold content_of in Hd, Hkind, Hid, Hopt.
      rewrite Hreach, Hp. cbn [plain_object truthy typeof_object isArray
                                 negb andb].
      rewrite Hp in Hm. rewrite Hm. cbn [plain_object truthy typeof_object
                                          isArray negb andb].
      rewrite Hp, Hm in Hc. rewrite Hc.
      cbn [plain_object truthy typeof_object isArray negb andb].
      rewrite Hp, Hm, Hc in Hd, Hkind, Hid, Hopt.
      rewrite Hd in *. cbn [plain_object truthy typeof_object isArray
                             negb andb].
      rewrite Hkind, Hid, Hopt. now split.
    + apply andb_true_iff in Hreach as [Htask Htext].
      apply negb_true_iff in Htask.
      assert (Hnone : as_string (get (content_of (StreamPost req)) "text")
                      = None)
        by (destruct (as_string _); [discriminate | reflexivity]).
      unfold content_of in Hc.
      destruct (get_Obj _ _ _ Hc) as (m & Hm).
      destruct (get_Obj _ _ _ Hm) as (p & Hp).
      destruct (get_Obj _ _ _ Hp) as (props & Hbody).
      unfold handleStreamRequest. rewrite Htask, Hbody. cbn [fst].
      rewrite <- Hbody.
      destruct (route_content_effect
                  (content_of (StreamPost req))
                  (sseClients_add (res req) st)) as (_ & _ & Hconfirm & _).
      exact (Hconfirm id opt Hnone Hkind Hid Hopt).
  - intros new r Hnew Hr.
    destruct (receive_published i st)
      as [Hsame | (id & opt & Hid & Hopt & Hpub)].
    + rewrite Hsame in Hnew.
      rewrite <- (app_nil_r (published st)) in Hnew at 1.
      apply app_inv_head in Hnew. subst new. destruct Hr.
    + rewrite Hpub in Hnew. apply app_inv_head in Hnew. subst new.
      destruct Hr as [<- | []].
      exists id, opt. simpl. repeat split; trivial.
      * apply String.eqb_eq.
      * apply String.eqb_eq.
Qed.

Lemma confirmation_option_semantics_witness :
  published (receive (SocketMessage (confirmation "c1" "cancel")) (idle "S"))
  = [mkBusMessage TOOL_CONFIRMATION_RESPONSE "c1" false]
  /\ published
       (receive (StreamPost (mkRequest (Some "S")
                                       (confirmation "c1" "proceed_once") 7))
                (idle "S"))
     = [mkBusMessage TOOL_CONFIRMATION_RESPONSE "c1" true].
Proof.
  split.
  - destruct (proj1 (confirmation_option_semantics
                       (SocketMessage (confirmation "c1" "cancel"))
                       (idle "S"))
                    "c1" "cancel" eq_refl eq_refl eq_refl eq_refl)
      as ([t c b] & Hpublished & _ & Htype & Hid & _ & Hfalse).
    cbn [type correlationId confirmed] in Htype, Hid, Hfalse.
    rewrite Hpublished. subst t c.
    assert (Hb : b = false) by (apply Hfalse; discriminate).
    now subst b.
  - destruct (proj1 (confirmation_option_semantics
                       (StreamPost (mkRequest (Some "S")
                                              (confirmation "c1" "proceed_once")
                                              7))
                       (idle "S"))
                    "c1" "proceed_once" eq_refl eq_refl eq_refl eq_refl)
      as ([t c b] & Hpublished & _ & Htype & Hid & Htrue & _).
    cbn [type correlationId confirmed] in Htype, Hid, Htrue.
    rewrite Hpublished. subst t c.
    assert (Hb : b = true) by now apply Htrue.
    now subst b.
Defined.

(** C5, at the failing input.  A recognized message whose content has a
    string [text] beside a [data] object: posted on a stream route its text
    is injected as a prompt, but sent over the socket it is not, the socket
    handler looking at [data] first and at [text] only when [data] is not an
    object. *)
Theorem socket_reads_data_before_text :
  forall (st : State) (text : string) (d : list (string * value)) (res : nat),
    let message := rpc (Obj [("text", Str text); ("data", Obj d)]) in
    injected (receive (StreamPost (mkRequest None message res)) st)
      = injected st ++ [text]
    /\ injected (receive (SocketMessage message) st) = injected st.
Proof.
  intros st text d res message. subst message. split.
  - reflexivity.
  - simpl. unfold on_socket_message, handleClientMessage. simpl.
    destruct (is_str (lookup "kind" d) "TOOL_CALL_CONFIRMATION"); trivial.
    destruct (as_string (lookup "tool_call_id" d)); trivial.
    destruct (as_string (lookup "selected_option_id" d)); trivial.
Qed.

(** C8.  A stream request whose [:taskId] segment (never empty, a route
    segment matching at least one character) differs from the session
    identifier is answered 404 with a JSON error and changes nothing: no SSE
    peer, no prompt, no publish.  A request whose segment equals the session
    identifier, or that came by a route without one, gets the
    text/event-stream headers, has its response registered as SSE peer, and
    has its body routed as the message of a peer: a [text] that is a string
    is injected as a prompt, once; failing that, a complete confirmation is
    answered on the bus, once; failing that, nothing is injected or
    published.  Nothing is sent to any peer, and the sockets are left as
    they are.  (Of a request without a body there is nothing to route:
    reading it throws, once the peer is registered.) *)
Theorem stream_request_validates_taskId :
  forall (req : Request) (st : State),
    (forall t, params_taskId req = Some t -> t <> EmptyString) ->
    ((exists t, params_taskId req = Some t /\ t <> sessionId st) ->
       handleStreamRequest req st
       = (st, ReplyJson 404 (Obj [("error", Str "Task not found")])))
    /\ (params_taskId req = None \/ params_taskId req = Some (sessionId st) ->
          let st' := fst (handleStreamRequest req st) in
          let content := content_of (StreamPost req) in
          let data := get content "data" in
          snd (handleStreamRequest req st)
          = match body req with
            | Undefined | Null => ReplyStreamThrew sse_headers
            | _ => ReplyStream sse_headers
            end
          /\ In ("Content-Type", "text/event-stream") sse_headers
          /\ sseClients st' = set_add (res req) (sseClients st)
          /\ In (res req) (sseClients st')
          /\ (forall text,
                get content "text" = Str text ->
                injected st' = injected st ++ [text]
                /\ published st' = published st)
          /\ (forall id opt,
                as_string (get content "text") = None ->
                get data "kind" = Str "TOOL_CALL_CONFIRMATION" ->
                get data "tool_call_id" = Str id ->
                get data "selected_option_id" = Str opt ->
                published st'
                = published st
                    ++ [mkBusMessage TOOL_CONFIRMATION_RESPONSE id
                                     (String.eqb opt "proceed_once")]
                /\ injected st' = injected st)
          /\ (as_string (get content "text") = None ->
              is_str (get data "kind") "TOOL_CALL_CONFIRMATION" = false
              \/ as_string (get data "tool_call_id") = None
              \/ as_string (get data "selected_option_id") = None ->
              published st' = published st /\ injected st' = injected st)
          /\ sessionId st' = sessionId st
          /\ clients st' = clients st
          /\ ws_sent st' = ws_sent st
          /\ sse_written st' = sse_written st).
Proof.
  intros req st Hnonempty. split.
  - intros (t & Ht & Hneq). unfold handleStreamRequest, taskId_mismatch.
    rewrite Ht.
    apply String.eqb_neq in Hneq. rewrite Hneq.
    specialize (Hnonempty t Ht). apply String.eqb_neq in Hnonempty.
    rewrite Hnonempty. reflexivity.
  - intros Hmatch st' content data. subst st' data.
    assert (Hok : taskId_mismatch (params_taskId req) (sessionId st) = false).
    { destruct Hmatch as [-> | ->]; simpl; trivial.
      now rewrite String.eqb_refl, andb_false_r. }
    assert (Hadd : In (res req) (set_add (res req) (sseClients st))).
    { unfold set_add.
      destruct (existsb (Nat.eqb (res req)) (sseClients st)) eqn:Hex.
      - apply existsb_exists in Hex. destruct Hex as (x & Hx & Heq).
        apply Nat.eqb_eq in Heq. now subst x.
      - apply in_or_app. right. now left. }
    destruct (route_content_effect content (sseClients_add (res req) st))
      as ((Hs & Hc & Hr & Hw & Hsse) & Htext & Hconfirm & Hnothing).
    assert (Hrouted :
              fst (handleStreamRequest req st)
              = route_content content (sseClients_add (res req) st)
              \/ ((body req = Undefined \/ body req = Null)
                  /\ content = Undefined
                  /\ fst (handleStreamRequest req st)
                     = sseClients_add (res req) st)).
    { unfold handleStreamRequest, content, content_of. rewrite Hok.
      destruct (body req); cbn [fst]; auto. }
    assert (Hreply :
              snd (handleStreamRequest req st)
              = match body req with
                | Undefined | Null => ReplyStreamThrew sse_headers
                | _ => ReplyStream sse_headers
                end).
    { unfold handleStreamRequest. rewrite Hok.
      destruct (body req); reflexivity. }
    split; [exact Hreply | split; [now left | ]].
    destruct Hrouted as [-> | (_ & Hcontent & ->)].
    + rewrite Hs, Hc, Hr, Hw, Hsse.
      split; [reflexivity | split; [exact Hadd | ]].
      split; [exact Htext | split; [exact Hconfirm | ]].
      split; [exact Hnothing | repeat split].
    + rewrite Hcontent.
      split; [reflexivity | split; [exact Hadd | ]].
      split; [intros text H; discriminate H | ].
      split; [intros id opt _ H; discriminate H | ].
      split; [intros _ _; now split | repeat split].
Qed.

Lemma stream_request_validates_taskId_witness :
  let prompt := rpc (Obj [("text", Str "list files")]) in
  handleStreamRequest (mkRequest (Some "other") prompt 1) (idle "S")
  = (idle "S", ReplyJson 404 (Obj [("error", Str "Task not found")]))
  /\ (let req := mkRequest (Some "S") prompt 1 in
      let st' := fst (handleStreamRequest req (idle "S")) in
      snd (handleStreamRequest req (idle "S")) = ReplyStream sse_headers
      /\ sseClients st' = [1]
      /\ injected st' = ["list files"]
      /\ published st' = [])
  /\ (let req := mkRequest None (confirmation "c1" "cancel") 2 in
      let st' := fst (handleStreamRequest req (idle "S")) in
      published st' = [mkBusMessage TOOL_CONFIRMATION_RESPONSE "c1" false]
      /\ injected st' = []).
Proof.
  intro prompt. split; [ | split].
  - refine (proj1 (stream_request_validates_taskId
                     (mkRequest (Some "other") prompt 1) (idle "S") _) _).
    + simpl. intros t Ht. injection Ht as <-. discriminate.
    + exists "other". split; [reflexivity | discriminate].
  - assert (Hsegment : forall t,
               params_taskId (mkRequest (Some "S") prompt 1) = Some t ->
               t <> EmptyString).
    { simpl. intros t Ht. injection Ht as <-. discriminate. }
    destruct (proj2 (stream_request_validates_taskId
                       (mkRequest (Some "S") prompt 1) (idle "S") Hsegment)
                    (or_intror eq_refl))
      as (Hreply & _ & Hpeers & _ & Htext & _).
    split; [exact Hreply | split; [exact Hpeers | ]].
    exact (Htext "list files" eq_refl).
  - assert (Hsegment : forall t,
               params_taskId (mkRequest None (confirmation "c1" "cancel") 2)
               = Some t ->
               t <> EmptyString).
    { simpl. intros t Ht. discriminate Ht. }
    destruct (proj2 (stream_request_validates_taskId
                       (mkRequest None (confirmation "c1" "cancel") 2)
                       (idle "S") Hsegment)
                    (or_introl eq_refl))
      as (_ & _ & _ & _ & _ & Hconfirm & _).
    exact (Hconfirm "c1" "cancel" eq_refl eq_refl eq_refl eq_refl).
Defined.

End A2AInputProperties.

(* ================================================================== *)
(** ** JSON texts: parsing what was serialized *)
(* ================================================================== *)

Section Strings.
Local Open Scope string_scope.

Lemma append_nil_r (s : string) : s ++ EmptyString = s.
Proof. induction s as [ | c s IH]; simpl; congruence. Qed.

Lemma append_assoc (s t u : string) : (s ++ t) ++ u = s ++ (t ++ u).
Proof. induction s as [ | c s IH]; simpl; congruence. Qed.

Lemma length_append (s t : string) :
  String.length (s ++ t) = String.length s + String.length t.
Proof. induction s as [ | c s IH]; simpl; congruence. Qed.

End Strings.

Section JsonTokens.
Import Js Json.
Local Open Scope string_scope.

Lemma skip_ws_start c s : is_ws c = false -> skip_ws (String c s) = String c s.
Proof. intro H. simpl. now rewrite H. Qed.

(** **** String literals *)

Lemma parse_chars_escape (c : ascii) (t : string) :
  parse_chars (escape c ++ t)
  = match parse_chars t with
    | Some (str, r) => Some (String c str, r)
    | None => None
    end.
Proof.
  destruct c as [[ | ] [ | ] [ | ] [ | ] [ | ] [ | ] [ | ] [ | ]];
    reflexivity.
Qed.

Lemma parse_chars_quote (s rest : string) :
  parse_chars (quote_chars s ++ String dquote rest) = Some (s, rest).
Proof.
  induction s as [ | c s IH]; simpl.
  - reflexivity.
  - now rewrite append_assoc, parse_chars_escape, IH.
Qed.

Lemma quote_append (s rest : string) :
  quote s ++ rest = String dquote (quote_chars s ++ String dquote rest).
Proof. unfold quote, str1. simpl. now rewrite append_assoc. Qed.

(** **** Numbers *)

Lemma take_digits_uint (d : Decimal.uint) (rest : string) :
  delimited rest = true ->
  take_digits (DecimalString.NilEmpty.string_of_uint d ++ rest)
  = (DecimalString.NilEmpty.string_of_uint d, rest).
Proof.
  intro Hrest.
  induction d; simpl; try (rewrite IHd; reflexivity).
  destruct rest as [ | c rest]; simpl; trivial.
  simpl in Hrest.
  destruct (is_digit c); simpl in *; [discriminate | reflexivity].
Qed.

Lemma to_uint_normal (n : N) : Decimal.unorm (N.to_uint n) = N.to_uint n.
Proof.
  rewrite <- (DecimalN.Unsigned.to_of (N.to_uint n)).
  now rewrite DecimalN.Unsigned.of_to.
Qed.

Lemma to_uint_nonnil (n : N) : N.to_uint n <> Decimal.Nil.
Proof.
  rewrite <- to_uint_normal. apply DecimalFacts.unorm_nonnil.
Qed.

Lemma uint_beq_refl (d : Decimal.uint) : Decimal.uint_beq d d = true.
Proof. induction d; simpl; trivial. Qed.

Lemma parse_unsigned (n : N) (rest : string) :
  delimited rest = true ->
  parse_number (DecimalString.NilEmpty.string_of_uint (N.to_uint n) ++ rest)
  = Some (Num (Z.of_N n), rest).
Proof.
  intro Hrest. unfold parse_number.
  assert (Hsign :
    match DecimalString.NilEmpty.string_of_uint (N.to_uint n) ++ rest with
    | String c r =>
        if Ascii.eqb c "-"%char
        then (true, r)
        else (false,
              DecimalString.NilEmpty.string_of_uint (N.to_uint n) ++ rest)
    | EmptyString =>
        (false, DecimalString.NilEmpty.string_of_uint (N.to_uint n) ++ rest)
    end
    = (false, DecimalString.NilEmpty.string_of_uint (N.to_uint n) ++ rest)).
  { pose proof (to_uint_nonnil n) as Hnil.
    destruct (N.to_uint n); simpl; congruence. }
  rewrite Hsign, take_digits_uint, DecimalString.NilEmpty.usu by assumption.
  rewrite to_uint_normal, uint_beq_refl, Hrest. simpl.
  now rewrite DecimalN.Unsigned.of_to.
Qed.

Lemma parse_number_render (z : Z) (rest : string) :
  delimited rest = true ->
  parse_number (render_int z ++ rest) = Some (Num z, rest).
Proof.
  intro Hrest. unfold render_int.
  destruct (Z.ltb_spec z 0) as [Hneg | Hpos].
  - simpl. unfold parse_number. simpl.
    pose proof (parse_unsigned (Z.abs_N z) rest Hrest) as H.
    unfold parse_number in H.
    assert (Hsign :
      match DecimalString.NilEmpty.string_of_uint (N.to_uint (Z.abs_N z))
              ++ rest with
      | String c r =>
          if Ascii.eqb c "-"%char
          then (true, r)
          else (false,
                DecimalString.NilEmpty.string_of_uint (N.to_uint (Z.abs_N z))
                  ++ rest)
      | EmptyString =>
          (false,
           DecimalString.NilEmpty.string_of_uint (N.to_uint (Z.abs_N z))
             ++ rest)
      end
      = (false,
         DecimalString.NilEmpty.string_of_uint (N.to_uint (Z.abs_N z))
           ++ rest)).
    { pose proof (to_uint_nonnil (Z.abs_N z)) as Hnil.
      destruct (N.to_uint (Z.abs_N z)); simpl; congruence. }
    rewrite Hsign in H.
    destruct (take_digits _) as [ds r].
    destruct (DecimalString.NilEmpty.uint_of_string ds) as [d | ];
      [ | discriminate].
    destruct (_ && _); [ | discriminate].
    injection H as Hval Hr. subst r. do 3 f_equal.
    rewrite Hval, N2Z.inj_abs_N. lia.
  - simpl. rewrite parse_unsigned by assumption.
    do 3 f_equal. rewrite N2Z.inj_abs_N. lia.
Qed.

Lemma render_int_start (z : Z) (rest : string) :
  exists c t, render_int z ++ rest = String c t
              /\ (is_digit c || Ascii.eqb c "-"%char) = true
              /\ is_ws c = false.
Proof.
  unfold render_int. destruct (Z.ltb z 0); simpl.
  - eexists _, _. split; [reflexivity | split; reflexivity].
  - pose proof (to_uint_nonnil (Z.abs_N z)) as Hnil.
    destruct (N.to_uint (Z.abs_N z)); simpl; try congruence;
      (eexists _, _; split; [reflexivity | split; reflexivity]).
Qed.

End JsonTokens.


Section JsonRoundTrip.
Import Js Json JsonWords.
Local Open Scope string_scope.

Lemma render_Arr (l : list value) : render (Arr l) = "[" ++ render_items true l.
Proof. reflexivity. Qed.

Lemma render_Obj (l : list (string * value)) :
  render (Obj l) = "{" ++ render_members true l.
Proof. reflexivity. Qed.

Lemma to_json_Obj (l : list (string * value)) :
  to_json (Obj l) = Obj (json_members l).
Proof. reflexivity. Qed.

Lemma need_Arr (l : list value) : need (Arr l) = S (need_items l).
Proof. reflexivity. Qed.

Lemma need_Obj (l : list (string * value)) : need (Obj l) = S (need_members l).
Proof. reflexivity. Qed.


Lemma digit_or_minus_opens (c : ascii) :
  (is_digit c || Ascii.eqb c "-"%char) = true ->
  is_ws c = false
  /\ Ascii.eqb c "]"%char = false /\ Ascii.eqb c "}"%char = false.
Proof.
  destruct c as [[ | ] [ | ] [ | ] [ | ] [ | ] [ | ] [ | ] [ | ]];
    simpl; intro H; try discriminate; repeat split.
Qed.

Lemma render_opens (v : value) (rest : string) : opens_value (render v ++ rest).
Proof.
  unfold opens_value.
  destruct v as [ | | [ | ] | z | s | l | l];
    try (simpl; eexists _, _; repeat split; reflexivity).
  simpl. destruct (render_int_start z rest) as (c & t & Heq & Hc & _).
  exists c, t. split; trivial. now apply digit_or_minus_opens.
Qed.

(** A repeated key aside, the members read make the object as they are. *)
Lemma set_prop_fresh k v (acc : list (string * value)) :
  existsb (String.eqb k) (map fst acc) = false ->
  set_prop k v acc = (acc ++ [(k, v)])%list.
Proof.
  induction acc as [ | [k' v'] acc IH]; simpl; trivial.
  intro H. apply orb_false_elim in H as [Hk Hrest].
  rewrite Hk. now rewrite IH.
Qed.

Lemma existsb_app_false k (l1 l2 : list string) :
  existsb (String.eqb k) (l1 ++ l2)%list = false <->
  existsb (String.eqb k) l1 = false /\ existsb (String.eqb k) l2 = false.
Proof. rewrite existsb_app. apply orb_false_iff. Qed.

Lemma fold_set_prop (ms acc : list (string * value)) :
  distinct (map fst ms) = true ->
  (forall k, In k (map fst ms) ->
             existsb (String.eqb k) (map fst acc) = false) ->
  fold_left (fun a kv => set_prop (fst kv) (snd kv) a) ms acc
  = (acc ++ ms)%list.
Proof.
  revert acc. induction ms as [ | [k v] ms IH]; intros acc Hd Hfresh; simpl.
  - now rewrite List.app_nil_r.
  - simpl in Hd. apply andb_true_iff in Hd as [Hk Hd].
    apply negb_true_iff in Hk.
    rewrite set_prop_fresh by (apply Hfresh; now left).
    rewrite IH; trivial.
    + now rewrite <- List.app_assoc.
    + intros k' Hin. rewrite map_app. apply existsb_app_false. split.
      * apply Hfresh. now right.
      * simpl. rewrite orb_false_r.
        destruct (String.eqb_spec k' k) as [-> | ]; trivial.
        assert (existsb (String.eqb k) (map fst ms) = true) as Hex
            by (apply existsb_exists; exists k; split;
                [assumption | apply String.eqb_refl]).
        congruence.
Qed.

Lemma obj_of_members_distinct (ms : list (string * value)) :
  distinct (map fst ms) = true -> obj_of_members ms = ms.
Proof.
  intro Hd. unfold obj_of_members. now rewrite fold_set_prop.
Qed.

Lemma json_members_keys k (l : list (string * value)) :
  existsb (String.eqb k) (map fst l) = false ->
  existsb (String.eqb k) (map fst (json_members l)) = false.
Proof.
  induction l as [ | [k' x] l IH]; simpl; trivial.
  intro H. apply orb_false_elim in H as [Hk Hrest].
  destruct x; simpl; try rewrite Hk; auto.
Qed.

Lemma json_members_distinct (l : list (string * value)) :
  distinct (map fst l) = true -> distinct (map fst (json_members l)) = true.
Proof.
  induction l as [ | [k x] l IH]; simpl; trivial.
  intro H. apply andb_true_iff in H as [Hk Hd].
  apply negb_true_iff in Hk.
  destruct x; simpl; auto;
    rewrite (json_members_keys k l Hk); simpl; auto.
Qed.

End JsonRoundTrip.

Section JsonParseRender.
Import Js Json JsonWords.
Local Open Scope string_scope.

(** The three parsers, one step unfolded. *)
Lemma parse_items_S fuel s :
  parse_items (S fuel) s
  = match parse_value fuel s with
    | None => None
    | Some (v, r) =>
        match skip_ws r with
        | EmptyString => None
        | String c rest =>
            if Ascii.eqb c ","%char then
              match parse_items fuel rest with
              | Some (vs, r') => Some (v :: vs, r')
              | None => None
              end
            else if Ascii.eqb c "]"%char then Some ([v], rest)
            else None
        end
    end.
Proof. reflexivity. Qed.

Lemma parse_members_quote fuel k s :
  parse_members (S fuel) (quote k ++ ":" ++ s)
  = match parse_value fuel s with
    | None => None
    | Some (v, r3) =>
        match skip_ws r3 with
        | EmptyString => None
        | String c3 r4 =>
            if Ascii.eqb c3 ","%char then
              match parse_members fuel r4 with
              | Some (ms, r5) => Some ((k, v) :: ms, r5)
              | None => None
              end
            else if Ascii.eqb c3 "}"%char then Some ([(k, v)], r4)
            else None
        end
    end.
Proof.
  rewrite quote_append.
  change (parse_members (S fuel)
            (String dquote (quote_chars k ++ String dquote (":" ++ s))))
    with (match parse_chars (quote_chars k ++ String dquote (":" ++ s)) with
          | None => None
          | Some (k, r1) =>
              match skip_ws r1 with
              | EmptyString => None
              | String c1 r2 =>
                  if Ascii.eqb c1 ":"%char then
                    match parse_value fuel r2 with
                    | None => None
                    | Some (v, r3) =>
                        match skip_ws r3 with
                        | EmptyString => None
                        | String c3 r4 =>
                            if Ascii.eqb c3 ","%char then
                              match parse_members fuel r4 with
                              | Some (ms, r5) => Some ((k, v) :: ms, r5)
                              | None => None
                              end
                            else if Ascii.eqb c3 "}"%char
                            then Some ([(k, v)], r4)
                            else None
                        end
                    end
                  else None
              end
          end).
  rewrite parse_chars_quote. reflexivity.
Qed.

Lemma parse_array fuel s :
  parse_value (S fuel) ("[" ++ s)
  = match skip_ws s with
    | EmptyString => None
    | String c1 rest1 =>
        if Ascii.eqb c1 "]"%char then Some (Arr [], rest1)
        else
          match parse_items fuel (String c1 rest1) with
          | Some (vs, r) => Some (Arr vs, r)
          | None => None
          end
    end.
Proof. reflexivity. Qed.

Lemma parse_object fuel s :
  parse_value (S fuel) ("{" ++ s)
  = match skip_ws s with
    | EmptyString => None
    | String c1 rest1 =>
        if Ascii.eqb c1 "}"%char then Some (Obj [], rest1)
        else
          match parse_members fuel (String c1 rest1) with
          | Some (ms, r) => Some (Obj (obj_of_members ms), r)
          | None => None
          end
    end.
Proof. reflexivity. Qed.

Lemma undefined_or_not (x : value) : x = Undefined \/ x <> Undefined.
Proof. destruct x; auto; right; discriminate. Qed.

Lemma render_members_defined first k x (l : list (string * value)) :
  x <> Undefined ->
  render_members first ((k, x) :: l)
  = (if first then EmptyString else ",")
      ++ quote k ++ ":" ++ render x ++ render_members false l.
Proof. destruct x; simpl; congruence. Qed.

Lemma json_members_defined k x (l : list (string * value)) :
  x <> Undefined ->
  json_members ((k, x) :: l) = (k, to_json x) :: json_members l.
Proof. destruct x; simpl; congruence. Qed.

Lemma need_members_defined k x (l : list (string * value)) :
  x <> Undefined ->
  need_members ((k, x) :: l) = S (need x + need_members l).
Proof. destruct x; simpl; congruence. Qed.


Lemma parse_items_render (l : list value) :
  Forall reads_back l ->
  forall x fuel rest,
    reads_back x -> uniq x = true -> forallb uniq l = true ->
    S (need x + need_items l) <= fuel ->
    parse_items fuel (render x ++ render_items false l ++ rest)
    = Some (to_json x :: map to_json l, rest).
Proof.
  induction 1 as [ | y l Hy Hl IH]; intros x fuel rest Hx Hux Hul Hfuel;
    (destruct fuel as [ | fuel]; [lia | ]); rewrite parse_items_S.
  - simpl in Hfuel. simpl render_items.
    rewrite (Hx fuel ("]" ++ rest)) by (first [assumption | reflexivity | lia]).
    reflexivity.
  - simpl in Hfuel, Hul. apply andb_true_iff in Hul as [Huy Hul].
    replace (render_items false (y :: l) ++ rest)
      with ("," ++ render y ++ render_items false l ++ rest)
      by (simpl; now rewrite append_assoc).
    rewrite (Hx fuel ("," ++ render y ++ render_items false l ++ rest))
      by (first [assumption | reflexivity | lia]).
    change (skip_ws ("," ++ render y ++ render_items false l ++ rest))
      with ("," ++ render y ++ render_items false l ++ rest).
    simpl. rewrite IH by (first [assumption | lia]). reflexivity.
Qed.

Lemma parse_members_render (l : list (string * value)) :
  Forall (fun kv => reads_back (snd kv)) l ->
  forall k x fuel rest,
    reads_back x -> x <> Undefined -> uniq x = true ->
    forallb (fun kv => uniq (snd kv)) l = true ->
    S (need x + need_members l) <= fuel ->
    parse_members fuel
      (quote k ++ ":" ++ render x ++ render_members false l ++ rest)
    = Some ((k, to_json x) :: json_members l, rest).
Proof.
  induction 1 as [ | [k' y] l Hy Hl IH];
    intros k x fuel rest Hx Hdef Hux Hul Hfuel.
  - destruct fuel as [ | fuel]; [lia | ]. rewrite parse_members_quote.
    simpl in Hfuel. simpl render_members.
    rewrite (Hx fuel ("}" ++ rest)) by (first [assumption | reflexivity | lia]).
    reflexivity.
  - simpl in Hy, Hul. apply andb_true_iff in Hul as [Huy Hul].
    destruct (undefined_or_not y) as [-> | Hydef].
    + simpl render_members. simpl json_members. simpl in Hfuel.
      now apply IH.
    + rewrite need_members_defined in Hfuel by assumption.
      destruct fuel as [ | fuel]; [lia | ]. rewrite parse_members_quote.
      rewrite render_members_defined, json_members_defined by assumption.
      replace (("," ++ quote k' ++ ":" ++ render y ++ render_members false l)
                 ++ rest)
        with ("," ++ quote k' ++ ":" ++ render y
                ++ render_members false l ++ rest)
        by (now rewrite !append_assoc).
      rewrite (Hx fuel) by (first [assumption | reflexivity | lia]).
      remember (quote k' ++ ":" ++ render y ++ render_members false l ++ rest)
        as tail eqn:Htail.
      simpl. subst tail.
      rewrite IH by (first [assumption | lia]). reflexivity.
Qed.

Lemma parse_object_render (l : list (string * value)) :
  Forall (fun kv => reads_back (snd kv)) l ->
  forall fuel rest,
    distinct (map fst l) = true ->
    forallb (fun kv => uniq (snd kv)) l = true ->
    need_members l <= fuel ->
    parse_value (S fuel) ("{" ++ render_members true l ++ rest)
    = Some (Obj (json_members l), rest).
Proof.
  induction 1 as [ | [k x] l Hx Hl IH]; intros fuel rest Hd Hul Hfuel.
  - reflexivity.
  - simpl in Hx, Hul. apply andb_true_iff in Hul as [Hux Hul].
    destruct (undefined_or_not x) as [-> | Hdef].
    + simpl render_members. simpl json_members. simpl in Hfuel.
      simpl in Hd. apply andb_true_iff in Hd as [_ Hd].
      now apply IH.
    + rewrite need_members_defined in Hfuel by assumption.
      rewrite parse_object.
      rewrite render_members_defined by assumption.
      replace ((EmptyString ++ quote k ++ ":" ++ render x
                  ++ render_members false l) ++ rest)
        with (quote k ++ ":" ++ render x ++ render_members false l ++ rest)
        by (now rewrite !append_assoc).
      assert (Hopen :
        skip_ws (quote k ++ ":" ++ render x ++ render_members false l ++ rest)
        = quote k ++ ":" ++ render x ++ render_members false l ++ rest)
        by reflexivity.
      rewrite Hopen.
      assert (Hfirst :
        exists t, quote k ++ ":" ++ render x ++ render_members false l ++ rest
                  = String dquote t)
        by (eexists; reflexivity).
      destruct Hfirst as (t & Ht).
      rewrite Ht at 1. rewrite <- Ht.
      change (Ascii.eqb dquote "}"%char) with false. cbv iota.
      destruct fuel as [ | fuel]; [lia | ].
      rewrite parse_members_render by (first [assumption | lia]).
      rewrite obj_of_members_distinct.
      * now rewrite json_members_defined.
      * rewrite <- json_members_defined by assumption.
        now apply json_members_distinct.
Qed.

(** Every value is read back from its text. *)
Lemma render_reads_back (v : value) : reads_back v.
Proof.
  induction v using value_induction; intros fuel rest Hu Hrest Hfuel;
    try (destruct fuel as [ | fuel]; [simpl in Hfuel; lia | ]).
  - reflexivity.
  - reflexivity.
  - destruct b; reflexivity.
  - simpl render. simpl to_json.
    destruct (render_int_start z rest) as (c & t & Heq & Hc & Hws).
    assert (Hstep : parse_value (S fuel) (String c t)
                    = parse_number (String c t)).
    { unfold parse_value; fold parse_value.
      rewrite (skip_ws_start c t Hws), Hc. reflexivity. }
    rewrite Heq, Hstep, <- Heq. now apply parse_number_render.
  - simpl render. rewrite quote_append.
    change (parse_value (S fuel)
              (String dquote (quote_chars s ++ String dquote rest)))
      with (match parse_chars (quote_chars s ++ String dquote rest) with
            | Some (str, r) => Some (Str str, r)
            | None => None
            end).
    now rewrite parse_chars_quote.
  - rewrite render_Arr. rewrite need_Arr in Hfuel.
    replace (("[" ++ render_items true elems) ++ rest)
      with ("[" ++ render_items true elems ++ rest) by reflexivity.
    rewrite parse_array.
    destruct elems as [ | x elems]; [reflexivity | ].
    simpl in Hu. apply andb_true_iff in Hu as [Hux Hul].
    inversion H as [ | ? ? Hx Hl]; subst.
    replace (render_items true (x :: elems) ++ rest)
      with (render x ++ render_items false elems ++ rest)
      by (simpl; now rewrite append_assoc).
    destruct (render_opens x (render_items false elems ++ rest))
      as (c & t & Heq & Hws & Hclose & _).
    rewrite Heq, (skip_ws_start c t Hws), Hclose, <- Heq.
    simpl in Hfuel.
    rewrite parse_items_render by (first [assumption | lia]). reflexivity.
  - rewrite render_Obj, to_json_Obj. rewrite need_Obj in Hfuel.
    replace (("{" ++ render_members true props) ++ rest)
      with ("{" ++ render_members true props ++ rest) by reflexivity.
    simpl in Hu. apply andb_true_iff in Hu as [Hd Hul].
    apply parse_object_render; trivial. lia.
Qed.

End JsonParseRender.

Section JsonTexts.
Import Js Json JsonWords.
Local Open Scope string_scope.

(** **** The fuel of [parse] is enough *)

Lemma need_items_length (l : list value) :
  Forall (fun v => need v <= String.length (render v)) l ->
  forall first : bool,
    need_items l + (if first then 0 else 1)
    <= String.length (render_items first l).
Proof.
  induction 1 as [ | x l Hx Hl IH]; intro first; simpl.
  - destruct first; lia.
  - specialize (IH false). simpl in IH. rewrite !length_append.
    destruct first; simpl; lia.
Qed.

Lemma need_members_length (l : list (string * value)) :
  Forall (fun kv => need (snd kv) <= String.length (render (snd kv))) l ->
  forall first : bool,
    need_members l + (if first then 0 else 1)
    <= String.length (render_members first l).
Proof.
  induction 1 as [ | [k x] l Hx Hl IH]; intro first.
  - destruct first; simpl; lia.
  - simpl in Hx.
    destruct (undefined_or_not x) as [-> | Hdef].
    + simpl. apply IH.
    + rewrite need_members_defined, render_members_defined by assumption.
      specialize (IH false). simpl in IH. rewrite !length_append.
      destruct first; simpl; lia.
Qed.

Lemma need_length (v : value) : need v <= String.length (render v).
Proof.
  induction v using value_induction; try (simpl; lia).
  - destruct b; simpl; lia.
  - simpl. destruct (render_int_start z EmptyString) as (c & t & Heq & _).
    rewrite append_nil_r in Heq. rewrite Heq. simpl. lia.
  - rewrite need_Arr, render_Arr, length_append.
    pose proof (need_items_length elems H true) as Hl.
    simpl in Hl |- *. lia.
  - rewrite need_Obj, render_Obj, length_append.
    pose proof (need_members_length props H true) as Hl.
    simpl in Hl |- *. lia.
Qed.

(** Parsing the text of a value gives back what serialization kept of
    it. *)
Lemma parse_render (v : value) :
  uniq v = true -> parse (render v) = Some (to_json v).
Proof.
  intro Hu. unfold parse.
  pose proof (render_reads_back v (S (String.length (render v))) EmptyString
                Hu eq_refl) as H.
  rewrite append_nil_r in H. rewrite H; trivial.
  pose proof (need_length v). lia.
Qed.

(** **** JSON data is serialized whole *)

Lemma json_members_id (l : list (string * value)) :
  Forall (fun kv => is_json (snd kv) = true -> to_json (snd kv) = snd kv) l ->
  forallb (fun kv => is_json (snd kv)) l = true ->
  json_members l = l.
Proof.
  induction 1 as [ | [k x] l Hx Hl IH]; simpl; trivial.
  intro H. apply andb_true_iff in H as [Hjx Hjl]. simpl in Hx.
  destruct x; try discriminate; rewrite IH by assumption;
    try reflexivity; rewrite <- Hx at 2 by assumption; reflexivity.
Qed.

Lemma to_json_id (v : value) : is_json v = true -> to_json v = v.
Proof.
  induction v using value_induction; simpl; trivial; try discriminate.
  - intro Hj. f_equal.
    induction H as [ | x l Hx Hl IH]; simpl; trivial.
    simpl in Hj. apply andb_true_iff in Hj as [Hjx Hjl].
    now rewrite Hx, IH.
  - intro Hj. change (to_json (Obj props) = Obj props).
    rewrite to_json_Obj. f_equal. now apply json_members_id.
Qed.

(** **** No null byte in a JSON text *)

Lemma count_nul_append (s t : string) :
  count_nul (s ++ t) = count_nul s + count_nul t.
Proof. induction s as [ | c s IH]; simpl; trivial. rewrite IH. lia. Qed.

Lemma count_nul_escape (c : ascii) : count_nul (escape c) = 0.
Proof.
  destruct c as [[ | ] [ | ] [ | ] [ | ] [ | ] [ | ] [ | ] [ | ]];
    reflexivity.
Qed.

Lemma count_nul_quote (s : string) : count_nul (quote s) = 0.
Proof.
  unfold quote. simpl. rewrite count_nul_append. simpl.
  induction s as [ | c s IH]; simpl; trivial.
  rewrite count_nul_append, count_nul_escape. simpl. lia.
Qed.

Lemma count_nul_uint (d : Decimal.uint) :
  count_nul (DecimalString.NilEmpty.string_of_uint d) = 0.
Proof. induction d; simpl; trivial. Qed.

Lemma count_nul_items (l : list value) :
  Forall (fun v => count_nul (render v) = 0) l ->
  forall first, count_nul (render_items first l) = 0.
Proof.
  induction 1 as [ | x l Hx Hl IH]; intro first; simpl; trivial.
  rewrite !count_nul_append, Hx, IH. destruct first; reflexivity.
Qed.

Lemma count_nul_members (l : list (string * value)) :
  Forall (fun kv => count_nul (render (snd kv)) = 0) l ->
  forall first, count_nul (render_members first l) = 0.
Proof.
  induction 1 as [ | [k x] l Hx Hl IH]; intro first; [reflexivity | ].
  simpl in Hx.
  destruct (undefined_or_not x) as [-> | Hdef].
  - simpl. apply IH.
  - rewrite render_members_defined by assumption.
    rewrite !count_nul_append, count_nul_quote, Hx, IH.
    destruct first; reflexivity.
Qed.

Lemma count_nul_render (v : value) : count_nul (render v) = 0.
Proof.
  induction v using value_induction; trivial.
  - destruct b; reflexivity.
  - simpl. unfold render_int. rewrite count_nul_append, count_nul_uint.
    destruct (Z.ltb z 0); reflexivity.
  - apply count_nul_quote.
  - rewrite render_Arr. simpl. now apply count_nul_items.
  - rewrite render_Obj. simpl. now apply count_nul_members.
Qed.

(** **** A terminated text *)

Lemma drop_last_terminated (s : string) (c : ascii) :
  drop_last (s ++ String c EmptyString) = s.
Proof.
  induction s as [ | c' s IH]; simpl; trivial.
  rewrite IH. destruct s; reflexivity.
Qed.

Lemma ends_with_terminated (s : string) (c : ascii) :
  ends_with c (s ++ String c EmptyString) = true.
Proof.
  induction s as [ | c' s IH]; simpl.
  - apply Ascii.eqb_refl.
  - rewrite IH. destruct s; reflexivity.
Qed.

End JsonTexts.

(* ================================================================== *)
(** ** Fan-out of the A2A service and of the UI mirror *)
(* ================================================================== *)

Section Broadcast.
Import Js Json A2A Wire.

Lemma broadcast_frames message st :
  ws_sent (broadcast message st) = ws_sent st ++ socket_frames st message
  /\ sse_written (broadcast message st)
     = sse_written st ++ sse_frames st message
  /\ sessionId (broadcast message st) = sessionId st
  /\ clients (broadcast message st) = clients st
  /\ sseClients (broadcast message st) = sseClients st.
Proof. repeat split. Qed.

Lemma frames_unchanged message st st' :
  sessionId st' = sessionId st -> clients st' = clients st ->
  sseClients st' = sseClients st ->
  socket_frames st' message = socket_frames st message
  /\ sse_frames st' message = sse_frames st message.
Proof.
  intros Hs Hc Hr. unfold socket_frames, sse_frames, open_clients.
  now rewrite Hs, Hc, Hr.
Qed.

(** Broadcasting a list of events delivers the frames of each, in turn. *)
Lemma broadcast_all_frames (messages : list (list (string * value))) :
  forall st,
    let st' := fold_left (fun s message => broadcast message s) messages st in
    ws_sent st' = ws_sent st ++ flat_map (socket_frames st) messages
    /\ sse_written st' = sse_written st ++ flat_map (sse_frames st) messages
    /\ sessionId st' = sessionId st
    /\ clients st' = clients st
    /\ sseClients st' = sseClients st.
Proof.
  induction messages as [ | message messages IH]; intro st; simpl.
  - now rewrite !List.app_nil_r.
  - destruct (IH (broadcast message st)) as (Hws & Hsse & Hs & Hc & Hr).
    destruct (broadcast_frames message st) as (Hws1 & Hsse1 & Hs1 & Hc1 & Hr1).
    rewrite Hws, Hsse, Hs, Hc, Hr, Hws1, Hsse1, <- !List.app_assoc.
    repeat split; trivial; do 2 f_equal;
      apply flat_map_ext; intro m;
      now apply (frames_unchanged m st (broadcast message st)).
Qed.

Lemma lookup_set_prop k v (l : list (string * value)) :
  lookup k (set_prop k v l) = v.
Proof.
  induction l as [ | [k' v'] l IH]; simpl.
  - now rewrite String.eqb_refl.
  - destruct (String.eqb k k') eqn:Hk; simpl; rewrite ?String.eqb_refl, ?Hk;
      trivial.
Qed.

Lemma keys_set_prop a k v (l : list (string * value)) :
  existsb (String.eqb a) (map fst (set_prop k v l))
  = existsb (String.eqb a) (map fst l) || String.eqb a k.
Proof.
  induction l as [ | [k' v'] l IH]; simpl.
  - now rewrite orb_false_r.
  - destruct (String.eqb_spec k k') as [<- | Hk]; simpl.
    + destruct (String.eqb a k), (existsb (String.eqb a) (map fst l));
        reflexivity.
    + rewrite IH. now rewrite orb_assoc.
Qed.

Lemma distinct_set_prop k v (l : list (string * value)) :
  distinct (map fst l) = true -> distinct (map fst (set_prop k v l)) = true.
Proof.
  induction l as [ | [k' v'] l IH]; simpl; trivial.
  intro H. apply andb_true_iff in H as [Hk' Hd].
  destruct (String.eqb_spec k k') as [<- | Hk]; simpl.
  - now rewrite Hk', Hd.
  - rewrite keys_set_prop, IH by assumption.
    apply negb_true_iff in Hk'. rewrite Hk'. simpl.
    destruct (String.eqb_spec k' k) as [-> | ]; [contradiction | reflexivity].
Qed.

Lemma uniq_set_prop k v (l : list (string * value)) :
  uniq v = true ->
  forallb (fun kv => uniq (snd kv)) l = true ->
  forallb (fun kv => uniq (snd kv)) (set_prop k v l) = true.
Proof.
  intro Hv. induction l as [ | [k' v'] l IH]; simpl.
  - now rewrite Hv.
  - intro H. apply andb_true_iff in H as [Hv' Hl].
    destruct (String.eqb k k'); simpl.
    + now rewrite Hv, Hl.
    + now rewrite Hv', IH.
Qed.

Lemma uniq_stamp sid (message : list (string * value)) :
  uniq (Obj message) = true -> uniq (stamp sid message) = true.
Proof.
  unfold stamp. simpl. intro H. apply andb_true_iff in H as [Hd Hu].
  rewrite distinct_set_prop by assumption. simpl.
  now apply uniq_set_prop.
Qed.

Lemma is_json_set_prop k v (l : list (string * value)) :
  is_json v = true ->
  forallb (fun kv => is_json (snd kv)) l = true ->
  forallb (fun kv => is_json (snd kv)) (set_prop k v l) = true.
Proof.
  intro Hv. induction l as [ | [k' v'] l IH]; simpl.
  - now rewrite Hv.
  - intro H. apply andb_true_iff in H as [Hv' Hl].
    destruct (String.eqb k k'); simpl.
    + now rewrite Hv, Hl.
    + now rewrite Hv', IH.
Qed.

Lemma is_json_stamp sid (message : list (string * value)) :
  is_json (Obj message) = true -> is_json (stamp sid message) = true.
Proof. intro H. apply (is_json_set_prop "taskId"); trivial. Qed.

Lemma get_stamp_taskId sid message :
  get (stamp sid message) "taskId" = Str sid.
Proof. unfold stamp. simpl. apply lookup_set_prop. Qed.

(** A property with a value is serialized: it is found again, serialized,
    in what is read back. *)
Lemma lookup_json_members k (l : list (string * value)) :
  lookup k l <> Undefined ->
  lookup k (json_members l) = to_json (lookup k l).
Proof.
  induction l as [ | [k' x] l IH]; [simpl; congruence | ].
  destruct (undefined_or_not x) as [-> | Hdef].
  - simpl. destruct (String.eqb k k'); [congruence | exact IH].
  - rewrite json_members_defined by assumption. simpl.
    destruct (String.eqb k k'); auto.
Qed.

(** A property without a value is left out. *)
Lemma has_key_json_members k (l : list (string * value)) :
  distinct (map fst l) = true ->
  lookup k l = Undefined ->
  existsb (String.eqb k) (map fst (json_members l)) = false.
Proof.
  induction l as [ | [k' x] l IH]; [reflexivity | ].
  intros Hd Hl. simpl in Hd. apply andb_true_iff in Hd as [Hk' Hd].
  apply negb_true_iff in Hk'.
  destruct (undefined_or_not x) as [-> | Hdef].
  - simpl. simpl in Hl.
    destruct (String.eqb_spec k k') as [-> | Hk].
    + now apply json_members_keys.
    + auto.
  - rewrite json_members_defined by assumption. simpl. simpl in Hl.
    destruct (String.eqb k k'); [congruence | simpl; auto].
Qed.

Lemma get_to_json_stamp_taskId sid message :
  get (to_json (stamp sid message)) "taskId" = Str sid.
Proof.
  unfold stamp. rewrite to_json_Obj. simpl.
  rewrite lookup_json_members; rewrite lookup_set_prop; [reflexivity | ].
  discriminate.
Qed.

(** A socket text that is the serialization of a message is handled as
    that message. *)
Lemma on_socket_data_render (message : value) st :
  uniq message = true ->
  on_socket_data (render message) st = on_socket_message (to_json message) st.
Proof. intro Hu. unfold on_socket_data. now rewrite parse_render. Qed.

End Broadcast.

Section BroadcastProperties.
Import Js Json A2A Wire.
Local Open Scope string_scope.

Lemma new_frames {A : Type} (log new frames : list A) :
  (log ++ frames = log ++ new)%list -> new = frames.
Proof. intro H. now apply List.app_inv_head in H. Qed.

Lemma in_socket_frames st messages client text :
  In (client, text) (flat_map (socket_frames st) messages) ->
  exists message,
    In message messages /\ text = render (stamp (sessionId st) message).
Proof.
  intro H. apply in_flat_map in H as (message & Hm & Hin).
  unfold socket_frames in Hin. apply in_map_iff in Hin as (c & Heq & _).
  injection Heq as _ <-. eauto.
Qed.

Lemma in_sse_frames st messages res text :
  In (res, text) (flat_map (sse_frames st) messages) ->
  exists message,
    In message messages /\ text = sseData (stamp (sessionId st) message).
Proof.
  intro H. apply in_flat_map in H as (message & Hm & Hin).
  unfold sse_frames in Hin. apply in_map_iff in Hin as (c & Heq & _).
  injection Heq as _ <-. eauto.
Qed.

Lemma envelope_read_back sid (message : list (string * value)) :
  uniq (Obj message) = true ->
  parse (render (jsonRpcResponse (stamp sid message)))
  = Some (Obj [("jsonrpc", Str "2.0");
               ("id", Str sid);
               ("result", to_json (stamp sid message))]).
Proof.
  intro Hu. rewrite parse_render.
  - unfold jsonRpcResponse. rewrite get_stamp_taskId. reflexivity.
  - unfold jsonRpcResponse. rewrite get_stamp_taskId.
    pose proof (uniq_stamp sid message Hu) as Hs.
    unfold stamp in *. simpl in *. now rewrite Hs.
Qed.

(** C4.  Whatever the host delivers to the listeners of the service, every
    message sent on a socket and every frame written on an SSE response
    for it carries the session identifier of the process: the socket
    message is a JSON text whose [taskId] is that identifier, the SSE frame
    is [data: ] and a JSON-RPC envelope whose [id] and whose
    [result.taskId] are that identifier.  It is the identifier POST /tasks
    answers as [id], with status 201.  (Object keys are taken distinct, as
    they are in JavaScript.) *)
Theorem delivered_events_carry_session_id :
  forall (e : HostEvent) (st : State),
    Forall (fun message => uniq (Obj message) = true) (events_of e) ->
    let st' := on_host_event e st in
    let sid := sessionId st in
    (forall new client text,
        ws_sent st' = (ws_sent st ++ new)%list -> In (client, text) new ->
        exists payload,
          parse text = Some payload /\ get payload "taskId" = Str sid)
    /\ (forall new res text,
        sse_written st' = (sse_written st ++ new)%list -> In (res, text) new ->
        exists json envelope,
          text = "data: " ++ json
                   ++ String "010"%char (String "010"%char EmptyString)
          /\ parse json = Some envelope
          /\ get envelope "id" = Str sid
          /\ get (get envelope "result") "taskId" = Str sid)
    /\ post_tasks st = (st, ReplyJson 201 (Obj [("id", Str sid)])).
Proof.
  intros e st Hu st' sid. subst st' sid. unfold on_host_event.
  destruct (broadcast_all_frames (events_of e) st) as (Hws & Hsse & _).
  repeat split.
  - intros new client text Hnew Hin.
    rewrite Hws in Hnew. apply new_frames in Hnew. subst new.
    apply in_socket_frames in Hin as (message & Hm & ->).
    rewrite Forall_forall in Hu. specialize (Hu message Hm).
    exists (to_json (stamp (sessionId st) message)). split.
    + apply parse_render. now apply uniq_stamp.
    + apply get_to_json_stamp_taskId.
  - intros new res text Hnew Hin.
    rewrite Hsse in Hnew. apply new_frames in Hnew. subst new.
    apply in_sse_frames in Hin as (message & Hm & ->).
    rewrite Forall_forall in Hu. specialize (Hu message Hm).
    eexists _, _. split; [reflexivity | ]. split.
    + now apply envelope_read_back.
    + split; [reflexivity | ]. apply get_to_json_stamp_taskId.
Qed.

Lemma delivered_events_carry_session_id_witness :
  let st := mkState "S" [(1, OPEN); (2, CLOSED)] [7] [] [] [] [] in
  let text := render (stamp "S" [("kind", Str "TEXT_CONTENT");
                                 ("content", Obj [("text", Str "hi")])]) in
  ws_sent (on_host_event (ModelContent "hi") st) = [(1, text)]
  /\ (exists payload,
        parse text = Some payload /\ get payload "taskId" = Str "S")
  /\ (exists json envelope,
        sse_written (on_host_event (ModelContent "hi") st)
        = [(7, "data: " ++ json
                 ++ String "010"%char (String "010"%char EmptyString))]
        /\ parse json = Some envelope
        /\ get envelope "id" = Str "S"
        /\ get (get envelope "result") "taskId" = Str "S").
Proof.
  intros st text.
  destruct (delivered_events_carry_session_id (ModelContent "hi") st)
    as (Hws & Hsse & _).
  - simpl. repeat constructor.
  - split; [reflexivity | split].
    + apply (Hws [(1, text)] 1 text); [reflexivity | left; reflexivity].
    + destruct (Hsse [(7, sseData (stamp "S" [("kind", Str "TEXT_CONTENT");
                                               ("content",
                                                Obj [("text", Str "hi")])]))]
                     7 _ eq_refl (or_introl eq_refl))
        as (json & envelope & Htext & Hparse & Hid & Htask).
      exists json, envelope. rewrite <- Htext. repeat split; assumption.
Defined.

(** C3, counterexample.  The service broadcasts a TEXT_CONTENT event while
    one socket is open: the one message sent is the JSON text of the
    stamped event; it holds no null byte and does not end in one. *)
Lemma socket_message_without_terminator :
  let st := on_host_event (ModelContent "hi")
                          (mkState "S" [(1, OPEN)] [] [] [] [] []) in
  exists text,
    ws_sent st = [(1, text)]
    /\ text = render (Obj [("kind", Str "TEXT_CONTENT");
                           ("content", Obj [("text", Str "hi")]);
                           ("taskId", Str "S")])
    /\ ends_with nul text = false
    /\ count_nul text = 0.
Proof. eexists. repeat split. Qed.

(** C3, as amended.  A message the UI mirror broadcasts to a socket is the
    JSON text of the event [{type, data}] followed by one null byte, the
    only one of the message; without its last byte the message is read
    back by JSON.parse as the event (as what serialization keeps of it,
    the event itself when it is JSON data).  A message the A2A service
    broadcasts to a socket is the JSON text of the stamped event and
    nothing more: no null byte, and the whole message is read back by
    JSON.parse as the stamped event. *)
Theorem socket_messages_framing :
  (forall (type : string) (data : value) (st : UiMirror.State)
          (new : list (nat * string)) (client : nat) (message : string),
      uniq data = true ->
      UiMirror.sent (UiMirror.broadcast type data st)
        = (UiMirror.sent st ++ new)%list ->
      In (client, message) new ->
      let event := Obj [("type", Str type); ("data", data)] in
      message = render event ++ String nul EmptyString
      /\ ends_with nul message = true
      /\ count_nul message = 1
      /\ parse (drop_last message) = Some (to_json event)
      /\ (is_json data = true -> to_json event = event))
  /\ (forall (event : list (string * value)) (st : State)
             (new : list (nat * string)) (client : nat) (message : string),
      uniq (Obj event) = true ->
      ws_sent (broadcast event st) = (ws_sent st ++ new)%list ->
      In (client, message) new ->
      let payload := stamp (sessionId st) event in
      message = render payload
      /\ count_nul message = 0
      /\ parse message = Some (to_json payload)
      /\ (is_json (Obj event) = true -> to_json payload = payload)).
Proof.
  split.
  - intros type data st new client message Hu Hnew Hin event.
    assert (Hmsg : message = render event ++ String nul EmptyString).
    { unfold UiMirror.broadcast in Hnew.
      destruct (negb (UiMirror.wss st) || _).
      - rewrite <- (List.app_nil_r (UiMirror.sent st)) in Hnew at 1.
        apply new_frames in Hnew. subst new. destruct Hin.
      - simpl in Hnew. apply new_frames in Hnew. subst new.
        apply in_map_iff in Hin as (c & Heq & _). now injection Heq. }
    subst message. split; [reflexivity | ].
    rewrite ends_with_terminated, count_nul_append, count_nul_render,
      drop_last_terminated.
    repeat split.
    + apply parse_render. subst event. simpl. now rewrite Hu.
    + intro Hj. apply to_json_id. subst event. simpl. now rewrite Hj.
  - intros event st new client message Hu Hnew Hin payload.
    destruct (broadcast_frames event st) as (Hws & _).
    rewrite Hws in Hnew. apply new_frames in Hnew. subst new.
    unfold socket_frames in Hin. apply in_map_iff in Hin as (c & Heq & _).
    apply (f_equal snd) in Heq. cbn [snd] in Heq. subst message.
    fold payload. split; [reflexivity | ]. rewrite count_nul_render.
    repeat split.
    + apply parse_render. now apply uniq_stamp.
    + intro Hj. apply to_json_id. now apply is_json_stamp.
Qed.

Lemma socket_messages_framing_witness :
  (let st := UiMirror.mkState true [(1, OPEN)] [] in
   let message := render (Obj [("type", Str "test_event");
                               ("data", Str "hello")])
                    ++ String nul EmptyString in
   ends_with nul message = true
   /\ count_nul message = 1
   /\ parse (drop_last message)
      = Some (to_json (Obj [("type", Str "test_event");
                            ("data", Str "hello")])))
  /\ (let st := mkState "S" [(1, OPEN)] [] [] [] [] [] in
      let message := render (stamp "S" [("kind", Str "TEXT_CONTENT")]) in
      count_nul message = 0
      /\ parse message
         = Some (to_json (stamp "S" [("kind", Str "TEXT_CONTENT")]))).
Proof.
  split.
  - intros st message.
    destruct (proj1 socket_messages_framing
                "test_event" (Str "hello") st [(1, message)] 1 message
                eq_refl eq_refl (or_introl eq_refl))
      as (_ & Hend & Hcount & Hparse & _).
    repeat split; assumption.
  - intros st message.
    destruct (proj2 socket_messages_framing
                [("kind", Str "TEXT_CONTENT")] st [(1, message)] 1 message
                eq_refl eq_refl (or_introl eq_refl))
      as (_ & Hcount & Hparse & _).
    split; assumption.
Defined.

End BroadcastProperties.

Section ToolCallProperties.
Import Js Json A2A Wire.
Local Open Scope string_scope.

Lemma toolCallUpdate_keys toolCall :
  distinct (map fst (toolCallUpdate toolCall)) = true.
Proof. reflexivity. Qed.

(** C6.  For a TOOL_CALLS_UPDATE batch the service broadcasts one
    TOOL_CALL_UPDATE event per tool call, in the order of the batch, to the
    open sockets and to the SSE responses; the status of the event of a tool
    call is PENDING for AwaitingApproval, EXECUTING for Executing, SUCCEEDED
    for Success, FAILED for Error, CANCELLED for Cancelled, and PENDING for
    every other status. *)
Theorem tool_call_status_mapping :
  forall (toolCalls : list ToolCall) (st : State),
    let st' := on_host_event (ToolCallsUpdate toolCalls) st in
    let event toolCall := stamp (sessionId st) (toolCallUpdate toolCall) in
    ws_sent st'
    = (ws_sent st
         ++ flat_map (fun toolCall =>
                        map (fun client =>
                               (fst client, render (event toolCall)))
                            (open_clients st))
                     toolCalls)%list
    /\ sse_written st'
       = (sse_written st
            ++ flat_map (fun toolCall =>
                           map (fun res => (res, sseData (event toolCall)))
                               (sseClients st))
                        toolCalls)%list
    /\ forall toolCall,
         get (event toolCall) "kind" = Str "TOOL_CALL_UPDATE"
         /\ get (event toolCall) "status"
            = Str match status toolCall with
                  | AwaitingApproval => "PENDING"
                  | Executing => "EXECUTING"
                  | Success => "SUCCEEDED"
                  | Error => "FAILED"
                  | Cancelled => "CANCELLED"
                  | OtherStatus _ => "PENDING"
                  end.
Proof.
  intros toolCalls st st' event. subst st' event. unfold on_host_event.
  destruct (broadcast_all_frames (events_of (ToolCallsUpdate toolCalls)) st)
    as (Hws & Hsse & _).
  rewrite Hws, Hsse. simpl events_of. rewrite !flat_map_concat_map, !map_map.
  repeat split; reflexivity.
Qed.

(** C7, counterexample.  A tool call that succeeded with the empty string
    as display result: the display result is there, yet the text of the
    result of the event is "Success", not the display result. *)
Lemma empty_display_result_is_replaced :
  let toolCall :=
    mkToolCall Success (mkToolCallRequestInfo "t1" "run_shell_command" (Obj []))
               Undefined (mkToolCallResponseInfo (Str EmptyString) None) in
  let event := stamp "S" (toolCallUpdate toolCall) in
  resultDisplay (response toolCall) = Str EmptyString
  /\ get (get (get event "result") "output") "text" = Str "Success"
  /\ get (get (get event "result") "output") "text"
     <> resultDisplay (response toolCall).
Proof. repeat split. discriminate. Qed.

(** C7, as amended.  In the event of a tool call: when the status is
    Success, [result.output.text] is the display result of the tool, or
    "Success" when the display result is absent or falsy (the empty string);
    when the status is Error, [result.error.message] is the message of the
    error, or "Unknown error" when there is no error or its message is
    empty; for every other status [result] is undefined, and the event as
    serialized has no [result] field. *)
Theorem tool_call_result_mapping :
  forall (toolCall : ToolCall) (sid : string),
    let event := stamp sid (toolCallUpdate toolCall) in
    (status toolCall = Success ->
       get (get (get event "result") "output") "text"
       = if truthy (resultDisplay (response toolCall))
         then resultDisplay (response toolCall)
         else Str "Success")
    /\ (status toolCall = Error ->
          get (get (get event "result") "error") "message"
          = match error (response toolCall) with
            | Some m =>
                if String.eqb m EmptyString then Str "Unknown error" else Str m
            | None => Str "Unknown error"
            end)
    /\ (status toolCall <> Success -> status toolCall <> Error ->
          get event "result" = Undefined
          /\ has_key "result" (to_json event) = false).
Proof.
  intros toolCall sid event. subst event.
  assert (Hresult : get (stamp sid (toolCallUpdate toolCall)) "result"
                    = mapToolCallResult toolCall) by reflexivity.
  repeat split.
  - intro Hs. rewrite Hresult. unfold mapToolCallResult. rewrite Hs.
    reflexivity.
  - intro Hs. rewrite Hresult. unfold mapToolCallResult. rewrite Hs.
    destruct (error (response toolCall)) as [m | ]; simpl; trivial.
    unfold or. simpl. now destruct (String.eqb m EmptyString).
  - rewrite Hresult. unfold mapToolCallResult.
    destruct (status toolCall); congruence.
  - unfold stamp. rewrite to_json_Obj. unfold has_key.
    apply has_key_json_members.
    + apply distinct_set_prop, toolCallUpdate_keys.
    + change (get (stamp sid (toolCallUpdate toolCall)) "result" = Undefined).
      rewrite Hresult. unfold mapToolCallResult.
      destruct (status toolCall); congruence.
Qed.

Lemma tool_call_result_mapping_witness :
  let succeeded :=
    mkToolCall Success (mkToolCallRequestInfo "t1" "read_file" (Obj []))
               Undefined (mkToolCallResponseInfo (Str "12 lines") None) in
  let failed :=
    mkToolCall Error (mkToolCallRequestInfo "t2" "read_file" (Obj []))
               Undefined (mkToolCallResponseInfo Undefined (Some "no file")) in
  let running :=
    mkToolCall Executing (mkToolCallRequestInfo "t3" "read_file" (Obj []))
               (Str "...") (mkToolCallResponseInfo Undefined None) in
  get (get (get (stamp "S" (toolCallUpdate succeeded)) "result") "output")
      "text" = Str "12 lines"
  /\ get (get (get (stamp "S" (toolCallUpdate failed)) "result") "error")
         "message" = Str "no file"
  /\ has_key "result" (to_json (stamp "S" (toolCallUpdate running))) = false.
Proof.
  intros succeeded failed running. split; [ | split].
  - apply (proj1 (tool_call_result_mapping succeeded "S")). reflexivity.
  - apply (proj1 (proj2 (tool_call_result_mapping failed "S"))). reflexivity.
  - apply (proj2 (proj2 (tool_call_result_mapping running "S")));
      discriminate.
Defined.

End ToolCallProperties.

(* ================================================================== *)
(** ** The remote-control server *)
(* ================================================================== *)


Section RemoteProperties.
Import Js Json Remote RemoteWords.
Local Open Scope string_scope.

Lemma chat_message_of_item (item : HistoryItem) :
  (if history_filter item then [history_map item] else [])
  = chat_messages [item].
Proof.
  unfold chat_messages, history_filter, history_map. simpl.
  destruct (text item) as [t | ];
    [destruct (String.eqb t EmptyString) | ];
    destruct (String.eqb (type item) "user");
    destruct (String.eqb (type item) "gemini");
    destruct (String.eqb (type item) "gemini_content");
    reflexivity.
Qed.

Lemma chat_messages_filter_map (history : list HistoryItem) :
  map history_map (filter history_filter history) = chat_messages history.
Proof.
  induction history as [ | item history IH]; [reflexivity | ].
  assert (Hsplit : chat_messages (item :: history)
                   = (chat_messages [item] ++ chat_messages history)%list)
    by (unfold chat_messages;
        now rewrite <- flat_map_app).
  rewrite Hsplit, <- IH, <- chat_message_of_item. cbn [filter].
  destruct (history_filter item); reflexivity.
Qed.

Lemma slice_last_last_n {A : Type} (n : Z) (l : list A) :
  slice_last n l = last_n (Z.to_nat n) l.
Proof.
  unfold slice_last, last_n. now rewrite firstn_rev, rev_involutive.
Qed.

(** C9.  With the bridge registered, GET /history is answered 200 with, as
    JSON, the chat messages of the registered history: the last N of them
    when the [limit] parameter parses to an integer N > 0, all of them when
    the parameter is absent, parses to an integer that is not positive, or
    does not parse.  The bridge is left as it was. *)
Theorem history_response :
  forall (b : TuiRemoteBridge) (limit : option string),
    isRegistered b = true ->
    let reply := handle (get_history_request limit) b in
    let messages := chat_messages (getCurrentHistory b) in
    fst reply = b
    /\ statusCode (snd reply) = 200
    /\ contentType (snd reply) = "application/json"
    /\ (forall s n,
          limit = Some s -> parseInt s = Some n -> (0 < n)%Z ->
          payload (snd reply) = render (Arr (last_n (Z.to_nat n) messages)))
    /\ (limit = None
        \/ (exists s, limit = Some s
                      /\ (parseInt s = None
                          \/ exists n, parseInt s = Some n /\ (n <= 0)%Z)) ->
        payload (snd reply) = render (Arr messages)).
Proof.
  intros b limit Hreg reply messages. subst reply messages.
  unfold handle, get_history_request. simpl.
  unfold get_history. rewrite Hreg. simpl.
  rewrite chat_messages_filter_map.
  repeat split.
  - intros s n -> Hn Hpos.
    assert (Hs : String.eqb s EmptyString = false).
    { destruct s; [discriminate | reflexivity]. }
    rewrite Hs, Hn.
    apply Z.ltb_lt in Hpos. rewrite Hpos.
    unfold json_response. simpl payload. now rewrite slice_last_last_n.
  - intros [-> | (s & -> & Hs)]; [reflexivity | ].
    destruct (String.eqb_spec s EmptyString) as [-> | Hne]; [reflexivity | ].
    destruct Hs as [-> | (n & -> & Hn)]; [reflexivity | ].
    apply Z.ltb_ge in Hn. now rewrite Hn.
Qed.

Lemma history_response_witness :
  let b := mkBridge (Some 1)
                    (Some [mkHistoryItem "user" (Some "msg1");
                           mkHistoryItem "gemini" (Some "msg2");
                           mkHistoryItem "info" (Some "note");
                           mkHistoryItem "user" (Some "msg3")])
                    [] in
  statusCode (snd (handle (get_history_request (Some "2")) b)) = 200
  /\ payload (snd (handle (get_history_request (Some "2")) b))
     = render (Arr [Obj [("role", Str "model"); ("text", Str "msg2")];
                    Obj [("role", Str "user"); ("text", Str "msg3")]])
  /\ payload (snd (handle (get_history_request None) b))
     = render (Arr [Obj [("role", Str "user"); ("text", Str "msg1")];
                    Obj [("role", Str "model"); ("text", Str "msg2")];
                    Obj [("role", Str "user"); ("text", Str "msg3")]]).
Proof.
  intro b.
  destruct (history_response b (Some "2") eq_refl) as (_ & Hs & _ & Hlast & _).
  destruct (history_response b None eq_refl) as (_ & _ & _ & _ & Hall).
  split; [exact Hs | split].
  - exact (Hlast "2" 2%Z eq_refl eq_refl eq_refl).
  - exact (Hall (or_introl eq_refl)).
Defined.

(** What POST /message answers, by case. *)
Lemma post_message_cases (b : TuiRemoteBridge) (body : string) :
  let reply := handle (post_message_request body) b in
  match parse body with
  | None =>
      reply = (b, json_response 400 (Obj [("error", Str "Invalid JSON")]))
  | Some Null =>
      reply = (b, json_response 400 (Obj [("error", Str "Invalid JSON")]))
  | Some parsed =>
      if negb (truthy (get parsed "message")) then
        reply = (b, json_response 400
                      (Obj [("error", Str "Message is required")]))
      else if negb (isRegistered b) then
        reply = (b, json_response 503
                      (Obj [("error", Str "TUI bridge is not yet registered")]))
      else
        exists handler,
          onMessage b = Some handler
          /\ reply
             = (mkBridge (onMessage b) (getHistory b)
                         (submitted b ++ [(handler, get parsed "message")]),
                json_response 200 (Obj [("status", Str "Message submitted")]))
  end.
Proof.
  intro reply. subst reply. unfold handle, post_message_request. simpl.
  unfold post_message. simpl.
  destruct (parse body) as [parsed | ]; trivial.
  destruct parsed; trivial;
    destruct (negb (truthy _)); trivial;
    destruct (isRegistered b) eqn:Hreg; simpl; trivial;
    unfold isRegistered in Hreg; unfold submitMessage;
    destruct (onMessage b) as [handler | ]; try discriminate;
    exists handler; split; reflexivity.
Qed.

(** C10, at the failing input.  The body [null] is valid JSON without a
    message field; with the bridge registered or not, POST /message answers
    it 400 with the error "Invalid JSON", as it answers a body that is not
    JSON, and not with "Message is required". *)
Theorem post_message_null_body :
  forall b : TuiRemoteBridge,
    parse "null" = Some Null
    /\ truthy (get Null "message") = false
    /\ handle (post_message_request "null") b
       = (b, mkResponse 400 "application/json"
               (render (Obj [("error", Str "Invalid JSON")])))
    /\ render (Obj [("error", Str "Invalid JSON")])
       <> render (Obj [("error", Str "Message is required")]).
Proof.
  intro b. repeat split. discriminate.
Qed.

End RemoteProperties.

(* ================================================================== *)
(** ** What the A2A service does with what its peers send *)
(* ================================================================== *)

Section A2AInboundProperties.
Import Js Json A2A Wire PeerWords.

(** X1.  A message that carries only a text is a prompt: on the socket,
    read from its JSON text, and on a stream route, the text is injected
    into the host as it was written, once, and nothing is published. *)
Theorem prompt_is_injected_verbatim :
  forall (st : State) (text : string) (res : nat) (withTaskId : bool),
    let message := rpc (Obj [("text", Str text)]) in
    let by_socket := on_socket_data (render message) st in
    let by_stream :=
      fst (handleStreamRequest
             (mkRequest (if withTaskId then Some (sessionId st) else None)
                        message res) st) in
    injected by_socket = injected st ++ [text]
    /\ published by_socket = published st
    /\ injected by_stream = injected st ++ [text]
    /\ published by_stream = published st.
Proof.
  intros st text res withTaskId message by_socket by_stream.
  assert (Hsocket : by_socket = emit_InjectInput text st).
  { unfold by_socket. rewrite on_socket_data_render by reflexivity.
    reflexivity. }
  assert (Hstream : by_stream
                    = emit_InjectInput text (sseClients_add res st)).
  { unfold by_stream, handleStreamRequest.
    assert (Hid : taskId_mismatch
                    (if withTaskId then Some (sessionId st) else None)
                    (sessionId st) = false).
    { destruct withTaskId; simpl; trivial.
      rewrite String.eqb_refl. apply andb_false_r. }
    cbn [params_taskId]. rewrite Hid. reflexivity. }
  rewrite Hsocket, Hstream. repeat split; reflexivity.
Qed.

(** Case analysis on every test of the two handlers. *)
Ltac route_cases :=
  repeat match goal with
         | |- context [if ?b then _ else _] => destruct b eqn:?
         | |- context [match as_string ?v with _ => _ end] =>
             destruct (as_string v) eqn:?
         end.

Lemma plain_object_Obj (v : value) :
  plain_object v = true -> exists props, v = Obj props.
Proof.
  unfold plain_object.
  destruct v; cbn [typeof_object isArray negb];
    rewrite ?andb_false_r; try discriminate.
  intros _. now eexists.
Qed.

Lemma get_not_object (v : value) (k : string) :
  plain_object v = false -> get v k = Undefined.
Proof. destruct v; simpl; trivial. discriminate. Qed.

Lemma is_str_Obj (v : value) (k lit : string) :
  is_str (get v k) lit = true -> exists props, v = Obj props.
Proof. destruct v; simpl; try discriminate. intros _. now eexists. Qed.

(** X2.  The socket and the stream route do the same with a message
    ([method] being message/stream), unless its content has both a text
    that is a string and a data object. *)
Theorem transports_agree :
  forall (message : value) (st : State) (res : nat),
    let content := content_of (SocketMessage message) in
    is_str (get message "method") "message/stream" = true ->
    as_string (get content "text") = None
    \/ plain_object (get content "data") = false ->
    let by_socket := receive (SocketMessage message) st in
    let by_stream := receive (StreamPost (mkRequest None message res)) st in
    published by_socket = published by_stream
    /\ injected by_socket = injected by_stream.
Proof.
  intros message st res content Hmethod Hcontent by_socket by_stream.
  destruct (is_str_Obj _ _ _ Hmethod) as (props & ->).
  unfold by_socket, by_stream, receive, on_socket_message, handleClientMessage,
    handleStreamRequest, route_content.
  cbn [params_taskId taskId_mismatch A2A.body A2A.res fst plain_object truthy
       typeof_object isArray negb andb].
  rewrite Hmethod.
  unfold content, content_of in Hcontent.
  set (params := get (Obj props) "params") in *.
  destruct (plain_object params) eqn:Hparams.
  - set (msg := get params "message") in *.
    destruct (plain_object msg) eqn:Hmsg.
    + set (c := get msg "content") in *.
      destruct (plain_object c) eqn:Hc.
      * destruct (plain_object (get c "data")) eqn:Hdata.
        -- destruct Hcontent as [Htext | Hd]; [ | discriminate].
           rewrite Htext. cbn [andb].
           destruct (is_str (get (get c "data") "kind")
                            "TOOL_CALL_CONFIRMATION");
             [ | split; reflexivity].
           destruct (as_string (get (get c "data") "tool_call_id"));
             [ | split; reflexivity].
           destruct (as_string (get (get c "data") "selected_option_id"));
             split; reflexivity.
        -- cbn [andb].
           destruct (as_string (get c "text")); split; reflexivity.
      * rewrite !(get_not_object c) by assumption.
        split; reflexivity.
    + assert (Hc : get msg "content" = Undefined)
        by now apply get_not_object.
      rewrite Hc. split; reflexivity.
  - assert (Hm : get params "message" = Undefined)
      by now apply get_not_object.
    rewrite Hm. split; reflexivity.
Qed.

Lemma transports_agree_witness :
  let message := confirmation "c1" "cancel" in
  published (receive (SocketMessage message) (idle "S"))
  = published (receive (StreamPost (mkRequest None message 1)) (idle "S"))
  /\ injected (receive (SocketMessage message) (idle "S"))
     = injected (receive (StreamPost (mkRequest None message 1)) (idle "S")).
Proof.
  apply (transports_agree (confirmation "c1" "cancel") (idle "S") 1).
  - reflexivity.
  - left. reflexivity.
Defined.

(** X3.  The stream routes do not look at [method]: a request is routed
    as if its method were message/stream, whatever it is, while the socket
    drops the message whose method is anything else. *)
Theorem stream_route_ignores_method :
  forall (method content : value) (taskId : option string) (res : nat)
         (st : State),
    handleStreamRequest (mkRequest taskId (rpc_with method content) res) st
    = handleStreamRequest (mkRequest taskId (rpc content) res) st
    /\ (is_str method "message/stream" = false ->
        receive (SocketMessage (rpc_with method content)) st = st).
Proof.
  intros method content taskId res st. split.
  - reflexivity.
  - intro Hmethod. unfold receive, on_socket_message, handleClientMessage.
    cbn [rpc_with plain_object truthy typeof_object isArray negb andb get
         lookup String.eqb Ascii.eqb Bool.eqb].
    now rewrite Hmethod.
Qed.

Lemma stream_route_ignores_method_witness :
  let content := Obj [("text", Str "list files")] in
  handleStreamRequest (mkRequest None (rpc_with (Str "tasks/send") content) 1)
                      (idle "S")
  = handleStreamRequest (mkRequest None (rpc content) 1) (idle "S")
  /\ injected (fst (handleStreamRequest
                      (mkRequest None (rpc_with (Str "tasks/send") content) 1)
                      (idle "S")))
     = ["list files"]
  /\ receive (SocketMessage (rpc_with (Str "tasks/send") content)) (idle "S")
     = idle "S".
Proof.
  destruct (stream_route_ignores_method
              (Str "tasks/send") (Obj [("text", Str "list files")]) None 1
              (idle "S")) as [Hstream Hsocket].
  split; [exact Hstream | split; [reflexivity | ]].
  apply Hsocket. reflexivity.
Defined.

(** X4.  Whatever a peer sends, on the socket or on a stream route, the
    service writes nothing to any peer, leaves the sockets and the session
    identifier as they are, and acts on the host at most once: one
    publish on the message bus, or one injected prompt, never both. *)
Theorem inbound_message_has_one_effect :
  forall (i : Inbound) (st : State),
    let st' := receive i st in
    sessionId st' = sessionId st
    /\ clients st' = clients st
    /\ ws_sent st' = ws_sent st
    /\ sse_written st' = sse_written st
    /\ ((published st' = published st /\ injected st' = injected st)
        \/ (exists m, published st' = published st ++ [m]
                      /\ injected st' = injected st)
        \/ (exists s, injected st' = injected st ++ [s]
                      /\ published st' = published st)).
Proof.
  intros i st st'. unfold st'. destruct i as [message | req]; simpl.
  - unfold on_socket_message, handleClientMessage. route_cases;
      repeat split; trivial;
      first [ now left
            | right; left; eexists; split; reflexivity
            | right; right; eexists; split; reflexivity ].
  - unfold handleStreamRequest.
    destruct (taskId_mismatch _ _);
      [simpl; repeat split; trivial; now left | ].
    destruct (body req); simpl; unfold route_content; route_cases;
      repeat split; trivial;
      first [ now left
            | right; left; eexists; split; reflexivity
            | right; right; eexists; split; reflexivity ].
Qed.

(** X5.  A publish needs a data object of kind TOOL_CALL_CONFIRMATION whose
    tool_call_id and selected_option_id are both strings: any other kind,
    or an identifier that is missing or is not a string, and nothing
    reaches the message bus. *)
Theorem incomplete_confirmation_is_dropped :
  forall (i : Inbound) (st : State),
    is_str (get (data_of i) "kind") "TOOL_CALL_CONFIRMATION" = false
    \/ as_string (get (data_of i) "tool_call_id") = None
    \/ as_string (get (data_of i) "selected_option_id") = None ->
    published (receive i st) = published st.
Proof.
  intros i st H. unfold data_of, content_of in H.
  destruct i as [message | req]; simpl.
  - unfold on_socket_message, handleClientMessage. route_cases; trivial;
      exfalso; destruct H as [H | [H | H]]; congruence.
  - unfold handleStreamRequest.
    destruct (taskId_mismatch _ _); trivial.
    destruct (body req) eqn:Hbody; simpl; trivial;
      unfold route_content; route_cases; trivial;
      try (apply andb_true_iff in Heqb as [_ Hkind]);
      exfalso; destruct H as [H | [H | H]]; simpl in H; congruence.
Qed.

Lemma incomplete_confirmation_is_dropped_witness :
  published
    (receive
       (SocketMessage
          (rpc (Obj [("data", Obj [("kind", Str "TOOL_CALL_CONFIRMATION");
                                   ("tool_call_id", Num 7);
                                   ("selected_option_id",
                                    Str "proceed_once")])])))
       (idle "S"))
  = published (idle "S").
Proof.
  apply incomplete_confirmation_is_dropped.
  right. left. reflexivity.
Defined.

End A2AInboundProperties.

(* ================================================================== *)
(** ** Peers of the A2A service: what each one is sent *)
(* ================================================================== *)

Section PeerLemmas.
Import Js Json A2A Wire PeerWords.

Lemma sent_to_app peer (l1 l2 : list (nat * string)) :
  sent_to peer (l1 ++ l2) = sent_to peer l1 ++ sent_to peer l2.
Proof. unfold sent_to. now rewrite filter_app, map_app. Qed.

Lemma sent_to_flat_map {A : Type} peer (f : A -> list (nat * string)) l :
  sent_to peer (flat_map f l) = flat_map (fun x => sent_to peer (f x)) l.
Proof.
  induction l as [ | x l IH]; simpl; trivial.
  now rewrite sent_to_app, IH.
Qed.

(** Nothing in a list of frames is for a peer that is not among their
    addressees. *)
Lemma sent_to_stranger {A : Type} peer (f : A -> nat) (data : string) l :
  ~ In peer (map f l) ->
  sent_to peer (map (fun x => (f x, data)) l) = [].
Proof.
  induction l as [ | x l IH]; simpl; trivial.
  intro H. unfold sent_to in *. simpl.
  destruct (Nat.eqb_spec peer (f x)) as [-> | _].
  - exfalso. apply H. now left.
  - apply IH. intro Hin. apply H. now right.
Qed.

(** One frame for the peer that is among the addressees once. *)
Lemma sent_to_addressee {A : Type} peer (f : A -> nat) (data : string) l :
  NoDup (map f l) -> In peer (map f l) ->
  sent_to peer (map (fun x => (f x, data)) l) = [data].
Proof.
  induction l as [ | x l IH]; simpl; [tauto | ].
  intros Hnd Hin. apply NoDup_cons_iff in Hnd as [Hx Hnd].
  change (map (fun x => (f x, data)) (x :: l))
    with ([(f x, data)] ++ map (fun x => (f x, data)) l).
  destruct (Nat.eqb_spec peer (f x)) as [-> | Hne].
  - unfold sent_to at 1. simpl. rewrite Nat.eqb_refl. simpl.
    f_equal. now apply (sent_to_stranger (f x) f data l).
  - unfold sent_to at 1. simpl.
    destruct (Nat.eqb_spec peer (f x)) as [ | _]; [contradiction | ].
    apply IH; trivial. destruct Hin as [ | ]; [congruence | trivial].
Qed.

Lemma open_clients_NoDup st :
  NoDup (map fst (clients st)) -> NoDup (map fst (open_clients st)).
Proof.
  unfold open_clients. induction (clients st) as [ | c l IH]; simpl; trivial.
  intro H. apply NoDup_cons_iff in H as [Hc Hl].
  destruct (is_open (snd c)); simpl; [ | now apply IH].
  apply NoDup_cons; [ | now apply IH].
  intro Hin. apply Hc. apply in_map_iff in Hin as (x & Hx & Hin).
  apply filter_In in Hin as [Hin _]. apply in_map_iff. now exists x.
Qed.

Lemma open_clients_In st ws :
  In (ws, OPEN) (clients st) -> In ws (map fst (open_clients st)).
Proof.
  intro H. apply in_map_iff. exists (ws, OPEN). split; trivial.
  apply filter_In. now split.
Qed.

Lemma open_clients_registered st ws :
  In ws (map fst (open_clients st)) -> In ws (map fst (clients st)).
Proof.
  intro H. apply in_map_iff in H as (x & Hx & Hin).
  apply filter_In in Hin as [Hin _]. apply in_map_iff. now exists x.
Qed.

Lemma frames_of_same st st' (messages : list (list (string * value))) :
  sessionId st' = sessionId st -> clients st' = clients st ->
  sseClients st' = sseClients st ->
  flat_map (socket_frames st') messages = flat_map (socket_frames st) messages
  /\ flat_map (sse_frames st') messages = flat_map (sse_frames st) messages.
Proof.
  intros Hs Hc Hr. unfold socket_frames, sse_frames, open_clients.
  now rewrite Hs, Hc, Hr.
Qed.

(** What a sequence of host events adds to the two logs. *)
Lemma deliver_frames (events : list HostEvent) :
  forall st,
    let st' := deliver events st in
    let messages := flat_map events_of events in
    ws_sent st' = ws_sent st ++ flat_map (socket_frames st) messages
    /\ sse_written st' = sse_written st ++ flat_map (sse_frames st) messages
    /\ sessionId st' = sessionId st
    /\ clients st' = clients st
    /\ sseClients st' = sseClients st
    /\ published st' = published st
    /\ injected st' = injected st.
Proof.
  induction events as [ | e events IH]; intro st; simpl.
  - rewrite !List.app_nil_r. repeat split.
  - destruct (IH (on_host_event e st))
      as (Hws & Hsse & Hs & Hc & Hr & Hp & Hi).
    destruct (broadcast_all_frames (events_of e) st)
      as (Hws1 & Hsse1 & Hs1 & Hc1 & Hr1).
    fold (on_host_event e st) in Hws1, Hsse1, Hs1, Hc1, Hr1.
    assert (Hbus : published (on_host_event e st) = published st
                   /\ injected (on_host_event e st) = injected st).
    { unfold on_host_event. clear. generalize st.
      induction (events_of e) as [ | m l IHl]; intro s; simpl.
      - now split.
      - destruct (IHl (broadcast m s)) as [-> ->]. now split. }
    destruct Hbus as [Hp1 Hi1].
    destruct (frames_of_same st (on_host_event e st)
                (flat_map events_of events) Hs1 Hc1 Hr1) as [Hsock Hsses].
    rewrite Hws, Hsse, Hs, Hc, Hr, Hp, Hi, Hws1, Hsse1, Hs1, Hc1, Hr1,
      Hp1, Hi1, Hsock, Hsses, !flat_map_app, <- !List.app_assoc.
    repeat split.
Qed.

End PeerLemmas.

Section PeerProperties.
Import Js Json A2A Wire PeerWords.

Lemma flat_map_singleton {A B : Type} (g : A -> B) (l : list A) :
  flat_map (fun x => [g x]) l = map g l.
Proof. induction l as [ | x l IH]; simpl; [ | rewrite IH]; reflexivity. Qed.

Lemma flat_map_nil {A B : Type} (l : list A) :
  flat_map (fun _ : A => @nil B) l = [].
Proof. induction l as [ | x l IH]; simpl; trivial. Qed.

Lemma open_registered st ws :
  In ws (map fst (open_clients st)) -> In (ws, OPEN) (clients st).
Proof.
  intro H. apply in_map_iff in H as ([ws' r] & Hx & Hin).
  apply filter_In in Hin as [Hin Hopen]. simpl in Hx, Hopen. subst ws'.
  destruct r; try discriminate. exact Hin.
Qed.

(** A socket that is not registered and open is sent nothing by a
    sequence of host events. *)
Lemma deliver_skips_socket events st ws :
  ~ In (ws, OPEN) (clients st) ->
  sent_to ws (ws_sent (deliver events st)) = sent_to ws (ws_sent st).
Proof.
  intro H. destruct (deliver_frames events st) as (-> & _).
  rewrite sent_to_app, sent_to_flat_map.
  rewrite (flat_map_ext _ (fun _ => [])).
  - now rewrite flat_map_nil, List.app_nil_r.
  - intro m. unfold socket_frames. apply sent_to_stranger.
    intro Hin. apply H. now apply open_registered.
Qed.

Lemma deliver_skips_stream events st res :
  ~ In res (sseClients st) ->
  sent_to res (sse_written (deliver events st)) = sent_to res (sse_written st).
Proof.
  intro H. destruct (deliver_frames events st) as (_ & -> & _).
  rewrite sent_to_app, sent_to_flat_map.
  rewrite (flat_map_ext _ (fun _ => [])).
  - now rewrite flat_map_nil, List.app_nil_r.
  - intro m. unfold sse_frames.
    apply (sent_to_stranger res (fun r => r)). now rewrite map_id.
Qed.

(** What a sequence of host events adds for each peer of the
    registries. *)
Lemma deliver_in_order (events : list HostEvent) (st : State) :
  NoDup (map fst (clients st)) ->
  NoDup (sseClients st) ->
  (forall ws,
      In (ws, OPEN) (clients st) ->
      sent_to ws (ws_sent (deliver events st))
      = sent_to ws (ws_sent st)
          ++ map (fun m => render (stamp (sessionId st) m))
                 (flat_map events_of events))
  /\ (forall res,
         In res (sseClients st) ->
         sent_to res (sse_written (deliver events st))
         = sent_to res (sse_written st)
             ++ map (fun m => sseData (stamp (sessionId st) m))
                    (flat_map events_of events)).
Proof.
  intros Hclients Hsse.
  destruct (deliver_frames events st) as (Hws & Hwr & _).
  split.
  - intros ws Hin. rewrite Hws, sent_to_app, sent_to_flat_map. f_equal.
    rewrite <- flat_map_singleton. apply flat_map_ext. intro m.
    unfold socket_frames. apply sent_to_addressee.
    + now apply open_clients_NoDup.
    + now apply open_clients_In.
  - intros res Hin. rewrite Hwr, sent_to_app, sent_to_flat_map. f_equal.
    rewrite <- flat_map_singleton. apply flat_map_ext. intro m.
    unfold sse_frames.
    apply (sent_to_addressee res (fun r => r)); now rewrite map_id.
Qed.

(** X6.  The events of a sequence of host events reach every open socket
    and every SSE response of the registries, each peer being sent all of
    them, once each, in the order the host delivered them: the sockets as
    the JSON text of the event stamped with the session identifier, the
    SSE responses as the data frame of its envelope.  A socket that is
    not registered, or not open, is sent nothing. *)
Theorem peers_see_events_in_order :
  forall (events : list HostEvent) (st : State),
    let st' := deliver events st in
    let messages := flat_map events_of events in
    NoDup (map fst (clients st)) ->
    NoDup (sseClients st) ->
    (forall ws,
        In (ws, OPEN) (clients st) ->
        sent_to ws (ws_sent st')
        = sent_to ws (ws_sent st)
            ++ map (fun m => render (stamp (sessionId st) m)) messages)
    /\ (forall res,
           In res (sseClients st) ->
           sent_to res (sse_written st')
           = sent_to res (sse_written st)
               ++ map (fun m => sseData (stamp (sessionId st) m)) messages)
    /\ (forall ws,
           ~ In (ws, OPEN) (clients st) ->
           sent_to ws (ws_sent st') = sent_to ws (ws_sent st)).
Proof.
  intros events st st' messages Hclients Hsse. unfold st', messages.
  destruct (deliver_in_order events st Hclients Hsse) as [Hopen Hstream].
  split; [exact Hopen | split; [exact Hstream | ]].
  intros ws Hout. now apply deliver_skips_socket.
Qed.

Lemma peers_see_events_in_order_witness :
  let st := mkState "S" [(1, OPEN); (2, CLOSING); (3, OPEN)] [7] [] [] [] [] in
  let events := [ModelContent "a"; ModelOther; ConsoleLog "log" "b"] in
  let first := [("kind", Str "TEXT_CONTENT");
                ("content", Obj [("text", Str "a")])] in
  let second := [("kind", Str "CONSOLE_LOG"); ("type", Str "log");
                 ("content", Str "b")] in
  sent_to 1 (ws_sent (deliver events st))
  = [render (stamp "S" first); render (stamp "S" second)]
  /\ sent_to 3 (ws_sent (deliver events st))
     = [render (stamp "S" first); render (stamp "S" second)]
  /\ sent_to 7 (sse_written (deliver events st))
     = [sseData (stamp "S" first); sseData (stamp "S" second)]
  /\ sent_to 2 (ws_sent (deliver events st)) = [].
Proof.
  intros st events first second.
  assert (Hclients : NoDup (map fst (clients st))).
  { simpl. repeat constructor; simpl; intuition discriminate. }
  assert (Hsse : NoDup (sseClients st)).
  { simpl. repeat constructor; simpl; tauto. }
  destruct (peers_see_events_in_order events st Hclients Hsse)
    as (Hopen & Hstream & Hother).
  split; [ | split; [ | split]].
  - apply (Hopen 1). simpl. tauto.
  - apply (Hopen 3). simpl. tauto.
  - apply (Hstream 7). simpl. tauto.
  - apply (Hother 2). simpl. intuition discriminate.
Defined.

End PeerProperties.

(* ================================================================== *)
(** ** The A2A service over its life *)
(* ================================================================== *)

Section LifeLemmas.
Import Js Json A2A Wire PeerWords A2ALife.

(** A message on the socket leaves the registries and the two outbound
    logs as they are. *)
Lemma on_socket_message_frame message st :
  clients (on_socket_message message st) = clients st
  /\ sseClients (on_socket_message message st) = sseClients st
  /\ ws_sent (on_socket_message message st) = ws_sent st
  /\ sse_written (on_socket_message message st) = sse_written st.
Proof.
  unfold on_socket_message, handleClientMessage.
  repeat match goal with
         | |- context [if ?b then _ else _] => destruct b
         | |- context [match as_string ?v with _ => _ end] =>
             destruct (as_string v)
         end; repeat split.
Qed.

Lemma on_socket_data_frame data st :
  clients (on_socket_data data st) = clients st
  /\ sseClients (on_socket_data data st) = sseClients st
  /\ ws_sent (on_socket_data data st) = ws_sent st
  /\ sse_written (on_socket_data data st) = sse_written st.
Proof.
  unfold on_socket_data. destruct (parse data).
  - apply on_socket_message_frame.
  - repeat split.
Qed.

Lemma route_content_frame content st :
  clients (route_content content st) = clients st
  /\ sseClients (route_content content st) = sseClients st
  /\ ws_sent (route_content content st) = ws_sent st
  /\ sse_written (route_content content st) = sse_written st.
Proof.
  unfold route_content.
  repeat match goal with
         | |- context [if ?b then _ else _] => destruct b
         | |- context [match as_string ?v with _ => _ end] =>
             destruct (as_string v)
         end; repeat split.
Qed.

(** A stream request registers its response, at most, and writes
    nothing. *)
Lemma handleStreamRequest_frame req st :
  let st' := fst (handleStreamRequest req st) in
  clients st' = clients st
  /\ (sseClients st' = sseClients st
      \/ sseClients st' = set_add (res req) (sseClients st))
  /\ ws_sent st' = ws_sent st
  /\ sse_written st' = sse_written st.
Proof.
  unfold handleStreamRequest.
  destruct (taskId_mismatch _ _); [simpl; repeat split; now left | ].
  destruct (body req); cbn [fst];
    try match goal with
        | |- context [route_content ?c ?s] =>
            destruct (route_content_frame c s) as (-> & -> & -> & ->)
        end;
    repeat split; now right.
Qed.

Lemma set_add_In x y (s : list nat) :
  In x (set_add y s) -> x = y \/ In x s.
Proof.
  unfold set_add. destruct (existsb (Nat.eqb y) s); [now right | ].
  intro H. apply in_app_or in H as [H | [H | []]]; [now right | now left].
Qed.

Lemma set_delete_In x y (s : list nat) :
  In x (set_delete y s) -> In x s.
Proof. unfold set_delete. intro H. now apply filter_In in H. Qed.

Lemma set_delete_out x (s : list nat) : ~ In x (set_delete x s).
Proof.
  unfold set_delete. intro H. apply filter_In in H as [_ H].
  now rewrite Nat.eqb_refl in H.
Qed.

Lemma iter_deliver n e st :
  Nat.iter n (on_host_event e) st = deliver (repeat e n) st.
Proof.
  revert st. induction n as [ | n IH]; intro st; [reflexivity | ].
  rewrite Nat.iter_succ_r. simpl. apply IH.
Qed.

(** The sockets of the registry, by name, are the same after a change of
    [readyState]. *)
Lemma set_readyState_names ws r st :
  map fst (clients (set_readyState ws r st)) = map fst (clients st).
Proof.
  unfold set_readyState. simpl. rewrite map_map. apply map_ext_in.
  intros [ws' r'] _. simpl.
  destruct (Nat.eqb_spec ws ws') as [-> | _]; reflexivity.
Qed.

Lemma registered_open st ws r :
  In (ws, r) (clients st) -> In ws (map fst (clients st)).
Proof. intro H. apply in_map_iff. now exists (ws, r). Qed.

(** While a socket is out of the registry, a step that is not its
    connection leaves it out, and sends it nothing. *)
Lemma step_skips_socket ws x srv :
  connects ws x = false ->
  ~ In ws (map fst (clients (core srv))) ->
  ~ In ws (map fst (clients (core (step x srv))))
  /\ sent_to ws (ws_sent (core (step x srv)))
     = sent_to ws (ws_sent (core srv)).
Proof.
  intros Hx Hout. destruct x as [ws' | data | ws' | ws' r | req | res | e | ];
    cbn [step with_core core].
  - simpl in Hx. unfold clients_add.
    destruct (existsb _ (clients (core srv))); simpl; [now split | ].
    split; trivial. rewrite map_app. simpl. intro H.
    apply in_app_or in H as [H | [H | []]]; [contradiction | ].
    subst ws'. now rewrite Nat.eqb_refl in Hx.
  - destruct (on_socket_data_frame data (core srv)) as (-> & _ & -> & _).
    now split.
  - split; trivial. intro H. apply Hout.
    apply in_map_iff in H as (c & Hc & Hin). apply filter_In in Hin as [Hin _].
    apply in_map_iff. now exists c.
  - rewrite set_readyState_names. now split.
  - unfold on_stream_request. cbn [core].
    destruct (handleStreamRequest_frame req (core srv)) as (-> & _ & -> & _).
    now split.
  - unfold on_close. destruct (existsb _ (closing srv)); now split.
  - rewrite iter_deliver.
    destruct (deliver_frames (repeat e (subscribed srv)) (core srv))
      as (_ & _ & _ & Hc & _).
    rewrite Hc. split; trivial. apply deliver_skips_socket.
    intro H. apply Hout. now apply (registered_open _ _ OPEN).
  - now split.
Qed.

Lemma run_skips_socket ws trace :
  forall srv,
    forallb (fun x => negb (connects ws x)) trace = true ->
    ~ In ws (map fst (clients (core srv))) ->
    sent_to ws (ws_sent (core (run trace srv)))
    = sent_to ws (ws_sent (core srv)).
Proof.
  induction trace as [ | x trace IH]; intros srv Htrace Hout; trivial.
  simpl in Htrace. apply andb_true_iff in Htrace as [Hx Htrace].
  apply negb_true_iff in Hx.
  destruct (step_skips_socket ws x srv Hx Hout) as [Hout' Hsent].
  simpl. unfold run in IH. rewrite IH; trivial.
Qed.

(** The same of an SSE response. *)
Lemma step_skips_stream res x srv :
  streams_to res x = false ->
  ~ In res (sseClients (core srv)) ->
  ~ In res (sseClients (core (step x srv)))
  /\ sent_to res (sse_written (core (step x srv)))
     = sent_to res (sse_written (core srv)).
Proof.
  intros Hx Hout. destruct x as [ws' | data | ws' | ws' r | req | res' | e | ];
    cbn [step with_core core].
  - unfold clients_add.
    destruct (existsb _ (clients (core srv))); now split.
  - destruct (on_socket_data_frame data (core srv)) as (_ & -> & _ & ->).
    now split.
  - now split.
  - now split.
  - unfold on_stream_request. cbn [core]. simpl in Hx.
    destruct (handleStreamRequest_frame req (core srv))
      as (_ & Hr & _ & ->).
    split; trivial. destruct Hr as [-> | ->]; trivial.
    intro H. apply set_add_In in H as [-> | H]; [ | contradiction].
    now rewrite Nat.eqb_refl in Hx.
  - unfold on_close. destruct (existsb _ (closing srv)); [ | now split].
    simpl. split; trivial. intro H. apply Hout.
    now apply set_delete_In in H.
  - rewrite iter_deliver.
    destruct (deliver_frames (repeat e (subscribed srv)) (core srv))
      as (_ & _ & _ & _ & Hr & _).
    rewrite Hr. split; trivial. now apply deliver_skips_stream.
  - split; trivial. simpl. tauto.
Qed.

Lemma run_skips_stream res trace :
  forall srv,
    forallb (fun x => negb (streams_to res x)) trace = true ->
    ~ In res (sseClients (core srv)) ->
    sent_to res (sse_written (core (run trace srv)))
    = sent_to res (sse_written (core srv)).
Proof.
  induction trace as [ | x trace IH]; intros srv Htrace Hout; trivial.
  simpl in Htrace. apply andb_true_iff in Htrace as [Hx Htrace].
  apply negb_true_iff in Hx.
  destruct (step_skips_stream res x srv Hx Hout) as [Hout' Hsent].
  simpl. unfold run in IH. rewrite IH; trivial.
Qed.

End LifeLemmas.

Section LifeProperties.
Import Js Json A2A Wire PeerWords A2ALife.

(** X7.  Once the [close] callback of a socket has run, the socket is sent
    nothing more, whatever happens to the service afterwards (messages,
    host events under any number of subscriptions, other peers coming and
    going, [stop()]), as long as it does not connect again. *)
Theorem closed_socket_is_sent_nothing :
  forall (trace : list Step) (srv : Service) (ws : nat),
    forallb (fun x => negb (connects ws x)) trace = true ->
    let after := run trace (step (SocketClose ws) srv) in
    sent_to ws (ws_sent (core after)) = sent_to ws (ws_sent (core srv)).
Proof.
  intros trace srv ws Htrace after. unfold after.
  rewrite run_skips_socket; trivial.
  cbn [step with_core core clients_delete clients]. intro H.
  apply in_map_iff in H as (c & Hc & Hin). apply filter_In in Hin as [_ Hne].
  subst ws. now rewrite Nat.eqb_refl in Hne.
Qed.

Lemma closed_socket_is_sent_nothing_witness :
  let srv := start (Some 4100) (create "S") in
  let before := run [Connection 1; Host (ModelContent "a")] srv in
  let after :=
    run [Host (ModelContent "b"); Connection 2; Host (ModelContent "c")]
        (step (SocketClose 1) before) in
  sent_to 1 (ws_sent (core before))
  = [render (stamp "S" [("kind", Str "TEXT_CONTENT");
                        ("content", Obj [("text", Str "a")])])]
  /\ sent_to 1 (ws_sent (core after)) = sent_to 1 (ws_sent (core before))
  /\ List.length (sent_to 2 (ws_sent (core after))) = 1.
Proof.
  intros srv before after.
  split; [reflexivity | split; [ | reflexivity]].
  apply (closed_socket_is_sent_nothing
           [Host (ModelContent "b"); Connection 2; Host (ModelContent "c")]
           before 1).
  reflexivity.
Defined.

(** X8.  Once the request of an SSE response has closed, nothing more is
    written on the response, whatever happens to the service afterwards,
    as long as no stream request comes with that response. *)
Theorem closed_stream_is_written_nothing :
  forall (trace : list Step) (srv : Service) (res : nat),
    In res (closing srv) ->
    forallb (fun x => negb (streams_to res x)) trace = true ->
    let after := run trace (step (RequestClose res) srv) in
    sent_to res (sse_written (core after))
    = sent_to res (sse_written (core srv)).
Proof.
  intros trace srv res Hclosing Htrace after. unfold after.
  rewrite run_skips_stream; trivial;
    cbn [step]; unfold on_close;
    (assert (Hin : existsb (Nat.eqb res) (closing srv) = true)
      by (apply existsb_exists; exists res; split;
          [trivial | apply Nat.eqb_refl]));
    rewrite Hin; cbn [with_core core]; trivial.
  apply set_delete_out.
Qed.

Lemma closed_stream_is_written_nothing_witness :
  let srv := start (Some 4100) (create "S") in
  let prompt := rpc (Obj [("text", Str "list files")]) in
  let before :=
    run [StreamRequest (mkRequest None prompt 7); Host (ModelContent "a")]
        srv in
  let after :=
    run [Host (ModelContent "b");
         StreamRequest (mkRequest None prompt 8);
         Host (ModelContent "c")]
        (step (RequestClose 7) before) in
  List.length (sent_to 7 (sse_written (core before))) = 1
  /\ sent_to 7 (sse_written (core after))
     = sent_to 7 (sse_written (core before))
  /\ List.length (sent_to 8 (sse_written (core after))) = 1.
Proof.
  intros srv prompt before after.
  split; [reflexivity | split; [ | reflexivity]].
  apply (closed_stream_is_written_nothing
           [Host (ModelContent "b");
            StreamRequest (mkRequest None prompt 8);
            Host (ModelContent "c")]
           before 7).
  - simpl. tauto.
  - reflexivity.
Defined.

Lemma step_without_streams x srv :
  is_stream_request x = false ->
  sseClients (core srv) = [] ->
  sseClients (core (step x srv)) = []
  /\ sse_written (core (step x srv)) = sse_written (core srv).
Proof.
  intros Hx Hempty.
  destruct x as [ws' | data | ws' | ws' r | req | res' | e | ];
    cbn [step with_core core]; try discriminate.
  - unfold clients_add.
    destruct (existsb _ (clients (core srv))); now split.
  - destruct (on_socket_data_frame data (core srv)) as (_ & -> & _ & ->).
    now split.
  - now split.
  - now split.
  - unfold on_close. destruct (existsb _ (closing srv)); [ | now split].
    cbn [with_core core on_request_close sseClients_delete sseClients
         sse_written].
    rewrite Hempty. now split.
  - rewrite iter_deliver.
    destruct (deliver_frames (repeat e (subscribed srv)) (core srv))
      as (_ & -> & _ & _ & -> & _).
    split; trivial. unfold sse_frames. rewrite Hempty. simpl.
    now rewrite flat_map_nil, List.app_nil_r.
  - now split.
Qed.

(** X9.  [stop()] ends every registered SSE response, each once and in
    the order of their registration, and empties the registry: a second
    [stop()] ends nothing more, and no SSE frame is written afterwards
    until a new stream request comes.  It leaves the sockets registered
    and the host listeners subscribed: a host event after [stop()] is
    sent to the sockets as it would have been before. *)
Theorem stop_ends_the_streams :
  forall (srv : Service) (trace : list Step) (e : HostEvent),
    let stopped := stop srv in
    ended stopped = ended srv ++ sseClients (core srv)
    /\ sseClients (core stopped) = []
    /\ ended (stop stopped) = ended stopped
    /\ ws_sent (core (step (Host e) stopped))
       = ws_sent (core (step (Host e) srv))
    /\ (forallb (fun x => negb (is_stream_request x)) trace = true ->
        sse_written (core (run trace stopped)) = sse_written (core srv)).
Proof.
  intros srv trace e stopped. subst stopped.
  split; [reflexivity | split; [reflexivity | split; [ | split]]].
  - unfold stop. cbn [ended core sseClients]. apply List.app_nil_r.
  - cbn [step with_core core]. rewrite !iter_deliver.
    destruct (deliver_frames (repeat e (subscribed (stop srv)))
                             (core (stop srv))) as (-> & _).
    destruct (deliver_frames (repeat e (subscribed srv)) (core srv))
      as (-> & _).
    reflexivity.
  - intro Htrace.
    assert (Hgen : forall s, sseClients (core s) = [] ->
                             sse_written (core (run trace s))
                             = sse_written (core s)).
    { clear srv e. induction trace as [ | x trace IH]; intros s Hs; trivial.
      simpl in Htrace. apply andb_true_iff in Htrace as [Hx Htrace].
      apply negb_true_iff in Hx.
      destruct (step_without_streams x s Hx Hs) as [Hs' Hw].
      simpl. unfold run in IH. rewrite IH; trivial. }
    now rewrite Hgen.
Qed.

Lemma stop_ends_the_streams_witness :
  let prompt := rpc (Obj [("text", Str "list files")]) in
  let srv :=
    run [Connection 1;
         StreamRequest (mkRequest None prompt 7);
         StreamRequest (mkRequest None prompt 8)]
        (start (Some 4100) (create "S")) in
  let trace := [Host (ModelContent "a"); RequestClose 7; Stop;
                Host (ModelContent "b")] in
  ended (stop srv) = [7; 8]
  /\ sse_written (core (run trace (stop srv))) = sse_written (core srv)
  /\ List.length (sent_to 1 (ws_sent (core (run trace (stop srv))))) = 2.
Proof.
  intros prompt srv trace.
  destruct (stop_ends_the_streams srv trace (ModelContent "a"))
    as (Hended & _ & _ & _ & Hquiet).
  split; [exact Hended | split; [ | reflexivity]].
  apply Hquiet. reflexivity.
Defined.

End LifeProperties.

(* ================================================================== *)
(** ** The texts the A2A service sends *)
(* ================================================================== *)

Section ControlCharacters.
Import Js Json PeerWords.
Local Open Scope string_scope.

Lemma no_control_append (s t : string) :
  no_control (s ++ t) = no_control s && no_control t.
Proof.
  induction s as [ | c s IH]; simpl; trivial.
  now rewrite IH, andb_assoc.
Qed.

Lemma no_control_escape (c : ascii) : no_control (escape c) = true.
Proof.
  destruct c as [[ | ] [ | ] [ | ] [ | ] [ | ] [ | ] [ | ] [ | ]];
    reflexivity.
Qed.

Lemma no_control_quote (s : string) : no_control (quote s) = true.
Proof.
  unfold quote.
  change (no_control (String dquote (quote_chars s ++ str1 dquote)))
    with (no_control (quote_chars s ++ str1 dquote)).
  rewrite no_control_append.
  induction s as [ | c s IH]; simpl; trivial.
  rewrite no_control_append, no_control_escape. exact IH.
Qed.

Lemma no_control_uint (d : Decimal.uint) :
  no_control (DecimalString.NilEmpty.string_of_uint d) = true.
Proof. induction d; simpl; trivial. Qed.

Lemma no_control_items (l : list value) :
  Forall (fun v => no_control (render v) = true) l ->
  forall first, no_control (render_items first l) = true.
Proof.
  induction 1 as [ | x l Hx Hl IH]; intro first; simpl; trivial.
  rewrite !no_control_append, Hx, IH. destruct first; reflexivity.
Qed.

Lemma no_control_members (l : list (string * value)) :
  Forall (fun kv => no_control (render (snd kv)) = true) l ->
  forall first, no_control (render_members first l) = true.
Proof.
  induction 1 as [ | [k x] l Hx Hl IH]; intro first; [reflexivity | ].
  simpl in Hx.
  destruct (undefined_or_not x) as [-> | Hdef].
  - simpl. apply IH.
  - rewrite render_members_defined by assumption.
    rewrite !no_control_append, no_control_quote, Hx, IH.
    destruct first; reflexivity.
Qed.

(** [JSON.stringify] escapes every control character. *)
Lemma no_control_render (v : value) : no_control (render v) = true.
Proof.
  induction v using value_induction; trivial.
  - destruct b; reflexivity.
  - simpl. unfold render_int. rewrite no_control_append, no_control_uint.
    destruct (Z.ltb z 0); reflexivity.
  - apply no_control_quote.
  - rewrite render_Arr. simpl. now apply no_control_items.
  - rewrite render_Obj. simpl. now apply no_control_members.
Qed.

End ControlCharacters.

Section FrameProperties.
Import Js Json A2A Wire PeerWords.
Local Open Scope string_scope.

(** X10.  Whatever the event holds (line feeds in a text, control
    characters), the text a broadcast sends on a socket has no character
    below the space, and what it writes on an SSE response is one line
    [data: ] followed by such a text, closed by two line feeds: one SSE
    event, with a single data line. *)
Theorem frames_are_single_lines :
  forall (message : list (string * value)) (st : State)
         (sent written : list (nat * string)),
    ws_sent (broadcast message st) = (ws_sent st ++ sent)%list ->
    sse_written (broadcast message st) = (sse_written st ++ written)%list ->
    (forall ws text, In (ws, text) sent -> no_control text = true)
    /\ (forall res frame,
           In (res, frame) written ->
           exists json,
             frame = "data: " ++ json
                       ++ String "010"%char (String "010"%char EmptyString)
             /\ no_control json = true).
Proof.
  intros message st sent written Hsent Hwritten.
  apply app_inv_head in Hsent. apply app_inv_head in Hwritten.
  subst sent written. split.
  - intros ws text Hin. apply in_map_iff in Hin as (c & Hc & _).
    apply (f_equal snd) in Hc. cbn [snd] in Hc. subst text.
    apply no_control_render.
  - intros res frame Hin. apply in_map_iff in Hin as (r & Hr & _).
    apply (f_equal snd) in Hr. cbn [snd] in Hr. subst frame.
    eexists. split; [reflexivity | apply no_control_render].
Qed.

Lemma frames_are_single_lines_witness :
  let st := mkState "S" [(1, OPEN)] [7] [] [] [] [] in
  let lf := String "010"%char EmptyString in
  let message := [("kind", Str "TEXT_CONTENT");
                  ("content", Obj [("text", Str ("a" ++ lf ++ "b"))])] in
  no_control (render (stamp "S" message)) = true
  /\ exists json,
       sseData (stamp "S" message) = "data: " ++ json ++ lf ++ lf
       /\ no_control json = true.
Proof.
  intros st lf message.
  destruct (frames_are_single_lines
              message st
              [(1, render (stamp "S" message))]
              [(7, sseData (stamp "S" message))] eq_refl eq_refl)
    as [Hsocket Hstream].
  split.
  - apply (Hsocket 1). now left.
  - apply (Hstream 7). now left.
Defined.

(** X11.  A confirmation request of the host goes out as a PENDING
    TOOL_CALL_UPDATE whose [tool_call_id] is the correlation identifier of
    the request and which offers the options proceed_once and cancel.  A
    peer that reads the identifier in the text it was sent and answers
    with it makes the service publish, for that same correlation
    identifier, a response confirmed exactly when the option is
    proceed_once. *)
Theorem confirmation_round_trip :
  forall (st : State) (cid toolName : string)
         (details : option ConfirmationDetails) (opt : string)
         (sent : list (nat * string)) (ws : nat) (text : string),
    uniq (mapConfirmationDetails details) = true ->
    let st' := on_host_event (ToolConfirmationRequest cid toolName details)
                             st in
    ws_sent st' = (ws_sent st ++ sent)%list ->
    In (ws, text) sent ->
    exists event id,
      parse text = Some event
      /\ get event "kind" = Str "TOOL_CALL_UPDATE"
      /\ get event "status" = Str "PENDING"
      /\ get event "tool_call_id" = Str id
      /\ get (get event "confirmation_request") "options"
         = Arr [Obj [("id", Str "proceed_once"); ("name", Str "Allow Once")];
                Obj [("id", Str "cancel"); ("name", Str "Cancel")]]
      /\ published (on_socket_data (render (confirmation id opt)) st')
         = (published st'
              ++ [mkBusMessage TOOL_CONFIRMATION_RESPONSE cid
                               (String.eqb opt "proceed_once")])%list.
Proof.
  intros st cid toolName details opt sent ws text Hdetails st' Hsent Hin.
  unfold st', on_host_event in Hsent. cbn [events_of fold_left] in Hsent.
  apply app_inv_head in Hsent. subst sent.
  apply in_map_iff in Hin as (c & Hc & _).
  apply (f_equal snd) in Hc. cbn [snd] in Hc. subst text.
  eexists _, cid. split; [ | split; [ | split; [ | split; [ | split]]]].
  - apply parse_render. apply uniq_stamp.
    cbn [uniq map fst snd distinct existsb forallb negb andb orb
         String.eqb Ascii.eqb Bool.eqb].
    now rewrite Hdetails.
  - reflexivity.
  - reflexivity.
  - reflexivity.
  - reflexivity.
  - rewrite on_socket_data_render by reflexivity. reflexivity.
Qed.

Lemma confirmation_round_trip_witness :
  let st := mkState "S" [(1, OPEN)] [] [] [] [] [] in
  let st' :=
    on_host_event
      (ToolConfirmationRequest "c1" "run_shell_command"
                               (Some (ExecDetails "ls")))
      st in
  exists text event id,
    ws_sent st' = [(1, text)]
    /\ parse text = Some event
    /\ get event "tool_call_id" = Str id
    /\ published (on_socket_data (render (confirmation id "cancel")) st')
       = [mkBusMessage TOOL_CONFIRMATION_RESPONSE "c1" false].
Proof.
  intros st st'.
  destruct (confirmation_round_trip
              st "c1" "run_shell_command" (Some (ExecDetails "ls")) "cancel"
              (ws_sent st') 1 (snd (hd (0, EmptyString) (ws_sent st')))
              eq_refl eq_refl (or_introl eq_refl))
    as (event & id & Hparse & _ & _ & Hid & _ & Hpublished).
  exists (snd (hd (0, EmptyString) (ws_sent st'))), event, id.
  split; [reflexivity | split; [exact Hparse | split; [exact Hid | ]]].
  exact Hpublished.
Defined.

End FrameProperties.

Section ReachableLemmas.
Import Js Json A2A Wire PeerWords A2ALife.

(** Taking sockets out of a registry leaves no socket twice in it. *)
Lemma registry_filter_NoDup (keep : nat * ReadyState -> bool)
                            (registry : list (nat * ReadyState)) :
  NoDup (map fst registry) -> NoDup (map fst (filter keep registry)).
Proof.
  intro Hnames. induction registry as [ | client registry IH]; trivial.
  cbn [map] in Hnames. apply NoDup_cons_iff in Hnames as [Hfresh Hrest].
  cbn [filter]. destruct (keep client); cbn [map]; auto.
  constructor; auto.
  intro Hin. apply Hfresh.
  apply in_map_iff in Hin as (other & Hname & Hin).
  apply filter_In in Hin as [Hin _].
  rewrite <- Hname. now apply in_map.
Qed.

Lemma set_add_NoDup x (s : list nat) : NoDup s -> NoDup (set_add x s).
Proof.
  intro H. unfold set_add. destruct (existsb (Nat.eqb x) s) eqn:Hx; trivial.
  apply NoDup_app; trivial.
  - repeat constructor. simpl. tauto.
  - intros y Hy [<- | []].
    assert (Hex : existsb (Nat.eqb x) s = true)
      by (apply existsb_exists; exists x; split;
          [trivial | apply Nat.eqb_refl]).
    congruence.
Qed.

(** No step subscribes the listeners again or changes the session
    identifier, and none puts a peer twice into a registry. *)
Lemma step_keeps_registries x srv :
  subscribed (step x srv) = subscribed srv
  /\ sessionId (core (step x srv)) = sessionId (core srv)
  /\ (NoDup (map fst (clients (core srv))) ->
      NoDup (map fst (clients (core (step x srv)))))
  /\ (NoDup (sseClients (core srv)) ->
      NoDup (sseClients (core (step x srv)))).
Proof.
  destruct x as [ws | data | ws | ws r | req | res | e | ];
    cbn [step with_core core subscribed].
  - unfold clients_add.
    destruct (existsb _ (clients (core srv))) eqn:Hex;
      [repeat split; trivial | ].
    cbn [sessionId clients sseClients]. repeat split; trivial.
    intro H. rewrite map_app. apply NoDup_app; trivial.
    + repeat constructor. simpl. tauto.
    + intros y Hy [<- | []].
      apply in_map_iff in Hy as (c & Hc & Hin).
      assert (Hex' : existsb (fun client => Nat.eqb ws (fst client))
                             (clients (core srv)) = true)
        by (apply existsb_exists; exists c; split;
            [trivial | rewrite Hc; apply Nat.eqb_refl]).
      congruence.
  - destruct (on_socket_data_frame data (core srv)) as (-> & -> & _).
    repeat split; trivial.
    unfold on_socket_data. destruct (parse data); trivial.
    unfold on_socket_message. destruct (plain_object v); trivial.
    apply handleClientMessage_sessionId.
  - repeat split; trivial. cbn [clients_delete clients].
    apply registry_filter_NoDup.
  - rewrite set_readyState_names. repeat split; trivial.
  - unfold on_stream_request. cbn [core subscribed].
    destruct (handleStreamRequest_frame req (core srv)) as (-> & Hr & _).
    repeat split; trivial.
    + apply (receive_sessionId (StreamPost req)).
    + intro H. destruct Hr as [-> | ->]; trivial. now apply set_add_NoDup.
  - unfold on_close. destruct (existsb _ (closing srv));
      repeat split; trivial.
    cbn [with_core core on_request_close sseClients_delete sseClients].
    unfold set_delete. apply NoDup_filter.
  - rewrite iter_deliver.
    destruct (deliver_frames (repeat e (subscribed srv)) (core srv))
      as (_ & _ & -> & -> & -> & _).
    repeat split; trivial.
  - repeat split; trivial. intros _. constructor.
Qed.

Lemma run_keeps_registries trace :
  forall srv,
    subscribed (run trace srv) = subscribed srv
    /\ sessionId (core (run trace srv)) = sessionId (core srv)
    /\ (NoDup (map fst (clients (core srv))) ->
        NoDup (map fst (clients (core (run trace srv)))))
    /\ (NoDup (sseClients (core srv)) ->
        NoDup (sseClients (core (run trace srv)))).
Proof.
  induction trace as [ | x trace IH]; intro srv; [repeat split; trivial | ].
  change (run (x :: trace) srv) with (run trace (step x srv)).
  destruct (IH (step x srv)) as (Hn & Hs & Hc & Hr).
  destruct (step_keeps_registries x srv) as (Hn1 & Hs1 & Hc1 & Hr1).
  rewrite Hn, Hs, Hn1, Hs1. repeat split; auto.
Qed.

(** With no subscription, no step sends anything. *)
Lemma step_unsubscribed x srv :
  subscribed srv = 0 ->
  ws_sent (core (step x srv)) = ws_sent (core srv)
  /\ sse_written (core (step x srv)) = sse_written (core srv).
Proof.
  intro Hn. destruct x as [ws | data | ws | ws r | req | res | e | ];
    cbn [step with_core core].
  - unfold clients_add.
    destruct (existsb _ (clients (core srv))); now split.
  - now destruct (on_socket_data_frame data (core srv)) as (_ & _ & -> & ->).
  - now split.
  - now split.
  - unfold on_stream_request. cbn [core].
    now destruct (handleStreamRequest_frame req (core srv))
      as (_ & _ & -> & ->).
  - unfold on_close. destruct (existsb _ (closing srv)); now split.
  - rewrite Hn. now split.
  - now split.
Qed.

End ReachableLemmas.

Section ReachableProperties.
Import Js Json A2A Wire PeerWords A2ALife.

(** X12.  From [start()] on a port, whatever has happened since (peers
    coming and going, messages, earlier events, [stop()]), one event of
    the host is sent once to every socket that is registered and open, and
    written once on every registered SSE response, with the session
    identifier the service was created with: no peer is served twice. *)
Theorem started_service_sends_each_event_once :
  forall (sid : string) (port : nat) (trace : list Step) (e : HostEvent),
    port <> 0 ->
    let srv := run trace (start (Some port) (create sid)) in
    let after := step (Host e) srv in
    (forall ws,
        In (ws, OPEN) (clients (core srv)) ->
        sent_to ws (ws_sent (core after))
        = sent_to ws (ws_sent (core srv))
            ++ map (fun m => render (stamp sid m)) (events_of e))
    /\ (forall res,
           In res (sseClients (core srv)) ->
           sent_to res (sse_written (core after))
           = sent_to res (sse_written (core srv))
               ++ map (fun m => sseData (stamp sid m)) (events_of e)).
Proof.
  intros sid port trace e Hport srv after. subst after.
  destruct (run_keeps_registries trace (start (Some port) (create sid)))
    as (Hn & Hs & Hc & Hr).
  fold srv in Hn, Hs, Hc, Hr.
  assert (Hstart : start (Some port) (create sid)
                   = mkService (mkState sid [] [] [] [] [] [])
                               true true 1 [] 0 0 [])
    by (destruct port; [contradiction | reflexivity]).
  rewrite Hstart in Hn, Hs, Hc, Hr. cbn in Hn, Hs, Hc, Hr.
  cbn [step with_core core]. rewrite Hn.
  change (Nat.iter 1 (on_host_event e) (core srv))
    with (deliver [e] (core srv)).
  destruct (deliver_in_order [e] (core srv) (Hc (NoDup_nil _))
                             (Hr (NoDup_nil _))) as [Hopen Hstream].
  rewrite Hs in Hopen, Hstream. cbn [flat_map] in Hopen, Hstream.
  rewrite List.app_nil_r in Hopen, Hstream. now split.
Qed.

Lemma started_service_sends_each_event_once_witness :
  let prompt := rpc (Obj [("text", Str "list files")]) in
  let srv :=
    run [Connection 1; Connection 1; Host (ModelContent "a");
         StreamRequest (mkRequest None prompt 7);
         StreamRequest (mkRequest (Some "S") prompt 7)]
        (start (Some 4100) (create "S")) in
  let event := [("kind", Str "TEXT_CONTENT");
                ("content", Obj [("text", Str "b")])] in
  sent_to 1 (ws_sent (core (step (Host (ModelContent "b")) srv)))
  = sent_to 1 (ws_sent (core srv)) ++ [render (stamp "S" event)]
  /\ sent_to 7 (sse_written (core (step (Host (ModelContent "b")) srv)))
     = sent_to 7 (sse_written (core srv)) ++ [sseData (stamp "S" event)].
Proof.
  intros prompt srv event.
  assert (Hport : 4100 <> 0) by discriminate.
  destruct (started_service_sends_each_event_once
              "S" 4100
              [Connection 1; Connection 1; Host (ModelContent "a");
               StreamRequest (mkRequest None prompt 7);
               StreamRequest (mkRequest (Some "S") prompt 7)]
              (ModelContent "b") Hport) as [Hopen Hstream].
  split.
  - apply (Hopen 1). simpl. tauto.
  - apply (Hstream 7). simpl. tauto.
Defined.

(** X13.  When the configured port is absent or 0, [start()] does
    nothing: the service is left as it was, it is not subscribed to the
    host, and so a service that was never started on a port never sends
    or writes anything, whatever happens. *)
Theorem service_without_port_is_silent :
  forall (port : option nat) (srv : Service) (trace : list Step),
    port = None \/ port = Some 0 ->
    subscribed srv = 0 ->
    start port srv = srv
    /\ ws_sent (core (run trace (start port srv))) = ws_sent (core srv)
    /\ sse_written (core (run trace (start port srv)))
       = sse_written (core srv).
Proof.
  intros port srv trace Hport Hn.
  assert (Hstart : start port srv = srv)
    by (destruct Hport as [-> | ->]; reflexivity).
  rewrite Hstart. split; trivial. revert srv Hn Hstart.
  induction trace as [ | x trace IH]; intros srv Hn _; [now split | ].
  change (run (x :: trace) srv) with (run trace (step x srv)).
  destruct (step_unsubscribed x srv Hn) as [<- <-].
  apply IH.
  - destruct (step_keeps_registries x srv) as (-> & _). exact Hn.
  - destruct (step_keeps_registries x srv) as (Hk & _).
    rewrite Hn in Hk. destruct Hport as [-> | ->]; reflexivity.
Qed.

Lemma service_without_port_is_silent_witness :
  let trace := [Connection 1; Host (ModelContent "a");
                StreamRequest
                  (mkRequest None (rpc (Obj [("text", Str "hi")])) 7);
                Host (ModelContent "b")] in
  start (Some 0) (create "S") = create "S"
  /\ ws_sent (core (run trace (start (Some 0) (create "S")))) = []
  /\ sse_written (core (run trace (start (Some 0) (create "S")))) = [].
Proof.
  intro trace.
  apply (service_without_port_is_silent (Some 0) (create "S") trace).
  - now right.
  - reflexivity.
Defined.

End ReachableProperties.

(* ================================================================== *)
(** ** The UI mirror over its life *)
(* ================================================================== *)

Section MirrorLemmas.
Import Js Json PeerWords UiMirrorLife MirrorWords.

Lemma lookup_set_prop_other k k' v (l : list (string * value)) :
  k <> k' -> lookup k (set_prop k' v l) = lookup k l.
Proof.
  intro Hk. induction l as [ | [k0 v0] l IH]; simpl.
  - destruct (String.eqb_spec k k'); [contradiction | reflexivity].
  - destruct (String.eqb_spec k' k0) as [<- | Hk0]; simpl.
    + destruct (String.eqb_spec k k'); [contradiction | reflexivity].
    + destruct (String.eqb k k0); [reflexivity | exact IH].
Qed.

(** What a broadcast sends: the frame of the event to every open client,
    if the mirror runs; nothing otherwise. *)
Lemma mirror_broadcast_sent type data (m : UiMirror.State) :
  UiMirror.sent (UiMirror.broadcast type data m)
  = UiMirror.sent m
      ++ (if UiMirror.wss m
          then map (fun client => (fst client, frame type data))
                   (filter (fun client => A2A.is_open (snd client))
                           (UiMirror.clients m))
          else [])
  /\ UiMirror.wss (UiMirror.broadcast type data m) = UiMirror.wss m
  /\ UiMirror.clients (UiMirror.broadcast type data m) = UiMirror.clients m.
Proof.
  unfold UiMirror.broadcast.
  destruct (UiMirror.wss m) eqn:Hwss; simpl.
  - destruct (UiMirror.clients m) as [ | c l] eqn:Hclients; simpl.
    + rewrite Hwss, Hclients, List.app_nil_r. repeat split.
    + repeat split.
  - rewrite Hwss, List.app_nil_r. repeat split.
Qed.

(** A mirror that does not run sends nothing, however often it is
    asked. *)
Lemma stopped_broadcasts n type data (m : UiMirror.State) :
  UiMirror.wss m = false ->
  Nat.iter n (UiMirror.broadcast type data) m = m.
Proof.
  intro Hwss. induction n as [ | n IH]; simpl; trivial.
  rewrite IH. unfold UiMirror.broadcast. now rewrite Hwss.
Qed.

Lemma iter_broadcast_wss n type data (m : UiMirror.State) :
  UiMirror.wss (Nat.iter n (UiMirror.broadcast type data) m) = UiMirror.wss m.
Proof.
  induction n as [ | n IH]; trivial.
  change (Nat.iter (S n) (UiMirror.broadcast type data) m)
    with (UiMirror.broadcast type data
            (Nat.iter n (UiMirror.broadcast type data) m)).
  now destruct (mirror_broadcast_sent
                  type data (Nat.iter n (UiMirror.broadcast type data) m))
    as (_ & -> & _).
Qed.

Lemma step_keeps_listeners x s :
  throws x = false ->
  hook_listeners s = (if isRunning s then 1 else 0) ->
  hook_listeners (step x s) = (if isRunning (step x s) then 1 else 0).
Proof.
  intros Hx Hs. unfold isRunning in *.
  destruct x as [port [ | | ] | | ws | ws | ws r | payload | payload
                | type data]; try discriminate;
    cbn [step with_mirror mirror hook_listeners].
  - unfold start.
    destruct (UiMirror.wss (mirror s)) eqn:Hwss; simpl;
      rewrite ?Hwss, Hs; reflexivity.
  - unfold start.
    destruct (UiMirror.wss (mirror s)) eqn:Hwss; simpl;
      rewrite ?Hwss, Hs; reflexivity.
  - unfold stop.
    destruct (UiMirror.wss (mirror s)) eqn:Hwss; simpl;
      rewrite ?Hwss, Hs; reflexivity.
  - unfold clients_add.
    destruct (existsb _ (UiMirror.clients (mirror s))); exact Hs.
  - exact Hs.
  - exact Hs.
  - assert (Hw : UiMirror.wss (Nat.iter (hook_listeners s)
                                        (onHookStart payload) (mirror s))
                 = UiMirror.wss (mirror s))
      by exact (iter_broadcast_wss
                  (hook_listeners s) "hook"
                  (Obj (set_prop "type" (Str "hook_start") payload))
                  (mirror s)).
    now rewrite Hw.
  - assert (Hw : UiMirror.wss (Nat.iter (hook_listeners s)
                                        (onHookEnd payload) (mirror s))
                 = UiMirror.wss (mirror s))
      by exact (iter_broadcast_wss
                  (hook_listeners s) "hook"
                  (Obj (set_prop "type" (Str "hook_end") payload))
                  (mirror s)).
    now rewrite Hw.
  - now destruct (mirror_broadcast_sent type data (mirror s))
      as (_ & -> & _).
Qed.

Lemma run_keeps_listeners trace :
  forall s,
    forallb (fun x => negb (throws x)) trace = true ->
    hook_listeners s = (if isRunning s then 1 else 0) ->
    hook_listeners (run trace s)
    = (if isRunning (run trace s) then 1 else 0).
Proof.
  induction trace as [ | x trace IH]; intros s Htrace Hs; trivial.
  simpl in Htrace. apply andb_true_iff in Htrace as [Hx Htrace].
  apply negb_true_iff in Hx. simpl. unfold run in IH.
  apply IH; trivial. now apply step_keeps_listeners.
Qed.

Lemma step_while_stopped x s :
  is_start x = false ->
  isRunning s = false ->
  isRunning (step x s) = false
  /\ UiMirror.sent (mirror (step x s)) = UiMirror.sent (mirror s).
Proof.
  intros Hx Hs. unfold isRunning in *.
  destruct x as [port outcome | | ws | ws | ws r | payload | payload
                | type data]; try discriminate; cbn [step with_mirror mirror].
  - unfold stop. rewrite Hs. now split.
  - unfold clients_add.
    destruct (existsb _ (UiMirror.clients (mirror s))); now split.
  - now split.
  - now split.
  - assert (Hi : Nat.iter (hook_listeners s) (onHookStart payload) (mirror s)
                 = mirror s)
      by exact (stopped_broadcasts
                  (hook_listeners s) "hook"
                  (Obj (set_prop "type" (Str "hook_start") payload))
                  (mirror s) Hs).
    rewrite Hi. now split.
  - assert (Hi : Nat.iter (hook_listeners s) (onHookEnd payload) (mirror s)
                 = mirror s)
      by exact (stopped_broadcasts
                  (hook_listeners s) "hook"
                  (Obj (set_prop "type" (Str "hook_end") payload))
                  (mirror s) Hs).
    rewrite Hi. now split.
  - assert (Hi : UiMirror.broadcast type data (mirror s) = mirror s)
      by exact (stopped_broadcasts 1 type data (mirror s) Hs).
    rewrite Hi. now split.
Qed.

End MirrorLemmas.

Section MirrorProperties.
Import Js Json PeerWords UiMirrorLife MirrorWords.
Local Open Scope string_scope.

(** X14.  The frame of a hook event reads back, once its final null byte
    is taken off, as an event of type hook whose data are the payload of
    the host with [type] set to hook_start or hook_end: a [type] of the
    payload is overridden, every other property is kept. *)
Theorem hook_frames_are_tagged :
  forall (ended : bool) (payload : list (string * value))
         (m : UiMirror.State) (sent : list (nat * string))
         (ws : nat) (message : string),
    let listener := if ended then onHookEnd else onHookStart in
    let tag := if ended then "hook_end" else "hook_start" in
    uniq (Obj payload) = true ->
    UiMirror.sent (listener payload m) = (UiMirror.sent m ++ sent)%list ->
    In (ws, message) sent ->
    exists event,
      ends_with nul message = true
      /\ parse (drop_last message) = Some event
      /\ get event "type" = Str "hook"
      /\ get (get event "data") "type" = Str tag
      /\ forall k,
           k <> "type" -> lookup k payload <> Undefined ->
           get (get event "data") k = to_json (lookup k payload).
Proof.
  intros ended payload m sent ws message listener tag Hpayload Hsent Hin.
  assert (Hlistener :
            listener payload m
            = UiMirror.broadcast
                "hook" (Obj (set_prop "type" (Str tag) payload)) m)
    by (unfold listener, tag; destruct ended; reflexivity).
  rewrite Hlistener in Hsent.
  destruct (mirror_broadcast_sent
              "hook" (Obj (set_prop "type" (Str tag) payload)) m)
    as (Hs & _).
  rewrite Hs in Hsent. apply app_inv_head in Hsent. subst sent.
  destruct (UiMirror.wss m); [ | destruct Hin].
  apply in_map_iff in Hin as (c & Hc & _).
  apply (f_equal snd) in Hc. cbn [snd] in Hc. subst message.
  unfold frame.
  exists (to_json (Obj [("type", Str "hook");
                        ("data", Obj (set_prop "type" (Str tag) payload))])).
  split; [apply ends_with_terminated | ].
  rewrite drop_last_terminated.
  assert (Hu : uniq (Obj (set_prop "type" (Str tag) payload)) = true).
  { cbn [uniq] in *. apply andb_true_iff in Hpayload as [Hd Hv].
    apply andb_true_iff. split.
    - now apply distinct_set_prop.
    - apply uniq_set_prop; trivial. }
  split; [ | split; [reflexivity | ]].
  - apply parse_render.
    cbn [uniq map fst snd distinct existsb forallb negb andb orb
         String.eqb Ascii.eqb Bool.eqb] in *.
    now rewrite Hu.
  - assert (Hdata :
              get (to_json (Obj [("type", Str "hook");
                                 ("data",
                                  Obj (set_prop "type" (Str tag) payload))]))
                  "data"
              = Obj (json_members (set_prop "type" (Str tag) payload)))
      by reflexivity.
    rewrite Hdata. cbn [get]. split.
    + rewrite lookup_json_members; rewrite lookup_set_prop;
        [reflexivity | discriminate].
    + intros k Hk Hdef.
      rewrite lookup_json_members; rewrite lookup_set_prop_other; trivial.
Qed.

Lemma hook_frames_are_tagged_witness :
  let payload := [("hookName", Str "lint"); ("type", Str "command");
                  ("eventName", Str "BeforeTool")] in
  let m := UiMirror.mkState true [(1, A2A.OPEN)] [] in
  exists message event,
    UiMirror.sent (onHookStart payload m) = [(1, message)]
    /\ ends_with nul message = true
    /\ parse (drop_last message) = Some event
    /\ get (get event "data") "type" = Str "hook_start"
    /\ get (get event "data") "hookName" = Str "lint".
Proof.
  intros payload m.
  destruct (hook_frames_are_tagged
              false payload m (UiMirror.sent (onHookStart payload m)) 1
              (snd (hd (0, EmptyString)
                       (UiMirror.sent (onHookStart payload m))))
              eq_refl eq_refl (or_introl eq_refl))
    as (event & Hend & Hparse & _ & Htype & Hkeep).
  eexists _, event.
  split; [reflexivity | split; [exact Hend | split; [exact Hparse | ]]].
  split; [exact Htype | ].
  apply (Hkeep "hookName"); discriminate.
Defined.

(** X15.  Over any history of the singleton in which no start throws
    (starts that succeed or fail with an error event, stops, clients
    coming and going, broadcasts), the hook listeners are subscribed once
    while the mirror runs and not at all while it does not: a hook event
    of the host is broadcast once, never twice, even after the mirror was
    restarted. *)
Theorem hook_events_are_broadcast_once :
  forall (trace : list Step) (payload : list (string * value)),
    forallb (fun x => negb (throws x)) trace = true ->
    let s := run trace instance in
    hook_listeners s = (if isRunning s then 1 else 0)
    /\ mirror (step (HookStart payload) s) = onHookStart payload (mirror s)
    /\ mirror (step (HookEnd payload) s) = onHookEnd payload (mirror s).
Proof.
  intros trace payload Htrace s.
  assert (Hs : hook_listeners s = (if isRunning s then 1 else 0))
    by (apply run_keeps_listeners; trivial).
  split; [exact Hs | ].
  cbn [step with_mirror mirror]. rewrite Hs.
  unfold isRunning. destruct (UiMirror.wss (mirror s)) eqn:Hwss.
  - split; reflexivity.
  - unfold onHookStart, onHookEnd, UiMirror.broadcast. rewrite Hwss.
    split; reflexivity.
Qed.

Lemma hook_events_are_broadcast_once_witness :
  let trace := [Start 4100 Listening; Connection 1; Stop;
                Start 4100 ErrorEvent; Stop; Start 4100 Listening;
                Start 4100 Listening; Connection 2] in
  let s := run trace instance in
  hook_listeners s = 1
  /\ UiMirror.sent (mirror (step (HookStart [("hookName", Str "lint")]) s))
     = [(2, frame "hook" (Obj [("hookName", Str "lint");
                                ("type", Str "hook_start")]))].
Proof.
  intros trace s.
  destruct (hook_events_are_broadcast_once
              trace [("hookName", Str "lint")] eq_refl)
    as (Hlisteners & Hstart & _).
  split; [exact Hlisteners | ].
  fold s in Hstart. rewrite Hstart. reflexivity.
Defined.

(** X16.  After [stop()] the mirror does not run and sends nothing, to
    anyone, whatever is asked of it (broadcasts, hook events under any
    number of subscriptions, clients connecting), until it is started
    again. *)
Theorem stopped_mirror_sends_nothing :
  forall (trace : list Step) (s : Service),
    forallb (fun x => negb (is_start x)) trace = true ->
    let after := run trace (stop s) in
    isRunning after = false
    /\ UiMirror.sent (mirror after) = UiMirror.sent (mirror s).
Proof.
  intros trace s Htrace after. subst after.
  assert (Hgen : forall s0,
             isRunning s0 = false ->
             isRunning (run trace s0) = false
             /\ UiMirror.sent (mirror (run trace s0))
                = UiMirror.sent (mirror s0)).
  { clear s. induction trace as [ | x trace IH]; intros s Hs; [now split | ].
    simpl in Htrace. apply andb_true_iff in Htrace as [Hx Htrace].
    apply negb_true_iff in Hx.
    destruct (step_while_stopped x s Hx Hs) as [Hs' <-].
    simpl. unfold run in IH. now apply IH. }
  destruct (Hgen (stop s)) as [Hrun Hsent].
  - unfold isRunning, stop.
    destruct (UiMirror.wss (mirror s)) eqn:Hw; simpl; trivial.
  - split; trivial. rewrite Hsent. unfold stop.
    destruct (UiMirror.wss (mirror s)); reflexivity.
Qed.

Lemma stopped_mirror_sends_nothing_witness :
  let s := run [Start 4100 Listening; Connection 1;
                Broadcast "test_event" (Str "hello")] instance in
  let after := run [Connection 2; Broadcast "test_event" (Str "again");
                    HookStart [("hookName", Str "lint")]] (stop s) in
  UiMirror.sent (mirror s)
  = [(1, frame "test_event" (Str "hello"))]
  /\ isRunning after = false
  /\ UiMirror.sent (mirror after) = UiMirror.sent (mirror s).
Proof.
  intros s after. split; [reflexivity | ].
  apply (stopped_mirror_sends_nothing
           [Connection 2; Broadcast "test_event" (Str "again");
            HookStart [("hookName", Str "lint")]] s).
  reflexivity.
Defined.

(** X17.  A start that fails with an error event of the server (the port
    is taken) rejects, but leaves the mirror marked as running: a new
    [start()] returns at once without starting anything, until [stop()]
    is called, which also takes the hook listeners of the failed start
    away. *)
Theorem failed_start_blocks_restart :
  forall (s : Service) (port port' : nat) (outcome : Outcome),
    isRunning s = false ->
    let failed := fst (start port ErrorEvent s) in
    snd (start port ErrorEvent s) = Rejected
    /\ isRunning failed = true
    /\ start port' outcome failed = (failed, Resolved)
    /\ isRunning (stop failed) = false
    /\ hook_listeners (stop failed) = hook_listeners s.
Proof.
  intros s port port' outcome Hs failed. subst failed.
  unfold isRunning in *.
  assert (Hstart :
            start port ErrorEvent s
            = (mkService (UiMirror.mkState true (UiMirror.clients (mirror s))
                                           (UiMirror.sent (mirror s)))
                         (S (hook_listeners s)) (closes s),
               Rejected))
    by (unfold start; now rewrite Hs).
  rewrite Hstart. cbn [fst snd].
  split; [reflexivity | split; [reflexivity | split; [reflexivity | ]]].
  split; reflexivity.
Qed.

Lemma failed_start_blocks_restart_witness :
  let failed := fst (start 4100 ErrorEvent instance) in
  snd (start 4100 ErrorEvent instance) = Rejected
  /\ isRunning failed = true
  /\ start 4101 Listening failed = (failed, Resolved)
  /\ isRunning (stop failed) = false
  /\ hook_listeners (stop failed) = hook_listeners instance.
Proof.
  apply (failed_start_blocks_restart instance 4100 4101 Listening).
  reflexivity.
Defined.

(** X18.  While the mirror runs, the events broadcast in a sequence reach
    every client that is registered and open, each client being sent the
    frame of every event, once each and in the order of the broadcasts;
    a client that is not registered, or not open, is sent nothing. *)
Theorem mirror_clients_see_events_in_order :
  forall (events : list (string * value)) (m : UiMirror.State),
    UiMirror.wss m = true ->
    NoDup (map fst (UiMirror.clients m)) ->
    (forall ws,
        In (ws, A2A.OPEN) (UiMirror.clients m) ->
        sent_to ws (UiMirror.sent (announce events m))
        = (sent_to ws (UiMirror.sent m)
             ++ map (fun e => frame (fst e) (snd e)) events)%list)
    /\ (forall ws,
           ~ In (ws, A2A.OPEN) (UiMirror.clients m) ->
           sent_to ws (UiMirror.sent (announce events m))
           = sent_to ws (UiMirror.sent m)).
Proof.
  intros events m Hwss Hclients.
  assert (Hopen : NoDup (map fst
                             (filter (fun client => A2A.is_open (snd client))
                                     (UiMirror.clients m))))
    by now apply registry_filter_NoDup.
  revert m Hwss Hclients Hopen.
  induction events as [ | [type data] events IH];
    intros m Hwss Hclients Hopen.
  - split; intros; simpl; now rewrite ?List.app_nil_r.
  - destruct (mirror_broadcast_sent type data m) as (Hsent & Hw & Hc).
    rewrite Hwss in Hsent.
    change (announce ((type, data) :: events) m)
      with (announce events (UiMirror.broadcast type data m)).
    destruct (IH (UiMirror.broadcast type data m)) as [IHopen IHother];
      rewrite ?Hw, ?Hc; trivial.
    rewrite Hc in IHopen, IHother. split.
    + intros ws Hin. rewrite (IHopen ws Hin), Hsent, sent_to_app.
      rewrite <- List.app_assoc. f_equal. cbn [map fst snd].
      change (frame type data :: map (fun e => frame (fst e) (snd e)) events)
        with ([frame type data]
                ++ map (fun e => frame (fst e) (snd e)) events)%list.
      f_equal. apply sent_to_addressee; trivial.
      apply in_map_iff. exists (ws, A2A.OPEN). split; trivial.
      apply filter_In. now split.
    + intros ws Hout. rewrite (IHother ws Hout), Hsent, sent_to_app.
      rewrite sent_to_stranger; [apply List.app_nil_r | ].
      intro Hin. apply Hout.
      apply in_map_iff in Hin as ([ws' r] & Hname & Hin).
      apply filter_In in Hin as [Hin Hr]. cbn in Hname, Hr. subst ws'.
      destruct r; try discriminate. exact Hin.
Qed.

Lemma mirror_clients_see_events_in_order_witness :
  let m := UiMirror.mkState true
                            [(1, A2A.OPEN); (2, A2A.CLOSING); (3, A2A.OPEN)]
                            [] in
  let events := [("test_event", Str "hello"); ("hook", Obj [])] in
  sent_to 1 (UiMirror.sent (announce events m))
  = [frame "test_event" (Str "hello"); frame "hook" (Obj [])]
  /\ sent_to 3 (UiMirror.sent (announce events m))
     = [frame "test_event" (Str "hello"); frame "hook" (Obj [])]
  /\ sent_to 2 (UiMirror.sent (announce events m)) = [].
Proof.
  intros m events.
  assert (Hclients : NoDup (map fst (UiMirror.clients m))).
  { simpl. repeat constructor; simpl; intuition discriminate. }
  destruct (mirror_clients_see_events_in_order events m eq_refl Hclients)
    as [Hopen Hother].
  split; [ | split].
  - apply (Hopen 1). simpl. tauto.
  - apply (Hopen 3). simpl. tauto.
  - apply (Hother 2). simpl. intuition discriminate.
Defined.

End MirrorProperties.

(* ================================================================== *)
(** ** The remote-control server, request by request *)
(* ================================================================== *)

Section RemoteLemmas.
Import Js Json Remote RemoteWords HistoryWords.
Local Open Scope string_scope.

Lemma chat_messages_shape (history : list HistoryItem) :
  Forall is_chat_message (chat_messages history).
Proof.
  unfold chat_messages. induction history as [ | item history IH]; simpl.
  - constructor.
  - apply Forall_app. split; trivial.
    destruct (text item) as [t | ]; [ | constructor].
    destruct (String.eqb_spec t EmptyString) as [ | Ht]; [constructor | ].
    destruct (String.eqb (type item) "user").
    + repeat constructor. exists "user", t. tauto.
    + destruct (String.eqb (type item) "gemini"
                || String.eqb (type item) "gemini_content");
        repeat constructor.
      exists "model", t. tauto.
Qed.

Lemma last_n_incl {A : Type} (n : nat) (l : list A) (x : A) :
  In x (last_n n l) -> In x l.
Proof.
  unfold last_n. intro H. apply in_rev in H. apply in_rev.
  rewrite <- (firstn_skipn n (rev l)). apply in_or_app. now left.
Qed.

Lemma last_n_length {A : Type} (n : nat) (l : list A) :
  List.length (last_n n l) = Nat.min n (List.length l).
Proof.
  unfold last_n. now rewrite length_rev, length_firstn, length_rev.
Qed.

Lemma chat_messages_json (messages : list value) :
  Forall is_chat_message messages ->
  uniq (Arr messages) = true /\ is_json (Arr messages) = true.
Proof.
  induction 1 as [ | m l (role & text & -> & _) Hl [IHu IHj]]; simpl.
  - now split.
  - simpl in IHu, IHj. now rewrite IHu, IHj.
Qed.

End RemoteLemmas.

Section RemoteRequestProperties.
Import Js Json Remote RemoteWords HistoryWords RemoteListener.
Local Open Scope string_scope.

Lemma json_response_parses status (v : value) :
  uniq v = true -> is_json v = true ->
  contentType (json_response status v) = "application/json"
  /\ statusCode (json_response status v) = status
  /\ parse (payload (json_response status v)) = Some v.
Proof.
  intros Hu Hj. repeat split. unfold json_response. cbn [payload].
  now rewrite parse_render, to_json_id.
Qed.

(** The messages GET /history answers with. *)
Lemma get_history_messages (b : TuiRemoteBridge) (limit : option string) :
  isRegistered b = true ->
  exists messages,
    get_history (get_history_request limit) b
    = (b, json_response 200 (Arr messages))
    /\ Forall is_chat_message messages
    /\ List.length messages <= List.length (getCurrentHistory b)
    /\ (forall s n,
          limit = Some s -> parseInt s = Some n -> (0 < n)%Z ->
          List.length messages
          = Nat.min (Z.to_nat n)
                    (List.length (chat_messages (getCurrentHistory b)))).
Proof.
  intro Hreg. unfold get_history, get_history_request. rewrite Hreg.
  cbn [negb limit_param]. rewrite chat_messages_filter_map.
  set (messages := chat_messages (getCurrentHistory b)).
  assert (Hshape : Forall is_chat_message messages)
    by apply chat_messages_shape.
  assert (Hlen : List.length messages <= List.length (getCurrentHistory b)).
  { unfold messages. rewrite <- chat_messages_filter_map, length_map.
    apply filter_length_le. }
  set (text := match limit with
               | Some s => if String.eqb s EmptyString then "0" else s
               | None => "0"
               end).
  assert (Htext : forall s n, limit = Some s -> parseInt s = Some n ->
                              (0 < n)%Z -> parseInt text = Some n).
  { intros s n -> Hn Hpos. unfold text.
    destruct s; [discriminate | exact Hn]. }
  destruct (parseInt text) as [n | ] eqn:Hparse.
  - destruct (Z.ltb 0 n) eqn:Hpos.
    + exists (slice_last n messages). rewrite slice_last_last_n.
      split; [reflexivity | split; [ | split]].
      * apply Forall_forall. intros m Hm. apply last_n_incl in Hm.
        revert m Hm. now apply Forall_forall.
      * rewrite last_n_length. lia.
      * intros s n' Hs Hn' Hpos'.
        pose proof (Htext s n' Hs Hn' Hpos') as Heq.
        assert (n = n') by congruence. subst n'. apply last_n_length.
    + exists messages. split; [reflexivity | split; [ | split]]; trivial.
      intros s n' Hs Hn' Hpos'.
      pose proof (Htext s n' Hs Hn' Hpos') as Heq.
      assert (n = n') by congruence. subst n'.
      apply Z.ltb_lt in Hpos'. congruence.
  - exists messages. split; [reflexivity | split; [ | split]]; trivial.
    intros s n' Hs Hn' Hpos'.
    pose proof (Htext s n' Hs Hn' Hpos') as Heq. congruence.
Qed.


(** When no handler throws, the listener answers as [Remote.handle]
    answers the request made of the parsed target. *)
Lemma on_request_handle (throws : nat -> bool) (r : Incoming)
                        (b : TuiRemoteBridge) pathname limit :
  (forall handler, throws handler = false) ->
  target r = Some (pathname, limit) ->
  on_request throws r b
  = Some (handle (mkRequest (in_method r) pathname limit (in_body r)) b).
Proof.
  intros Hreturns Htarget. unfold on_request, handle. rewrite Htarget.
  cbn [Remote.method Remote.pathname].
  destruct (String.eqb (in_method r) "POST" && String.eqb pathname "/message").
  - f_equal. unfold on_end, post_message. cbn [Remote.body].
    destruct (parse (in_body r)) as [parsed | ]; trivial.
    destruct parsed; trivial;
      destruct (negb (truthy _)); trivial;
      destruct (negb (isRegistered b)); trivial;
      destruct (onMessage b) as [handler | ]; trivial;
      now rewrite Hreturns.
  - destruct (String.eqb (in_method r) "GET"
              && String.eqb pathname "/history"); reflexivity.
Qed.


(** X20.  With the bridge registered, the body of the answer to GET
    /history parses to an array of chat messages, each a role (user or
    model) and a text that is not empty; there are no more of them than
    the history has items, and when [limit] parses to an integer N > 0
    there are N of them, or all the chat messages if they are fewer. *)
Theorem history_is_a_list_of_chat_messages :
  forall (b : TuiRemoteBridge) (limit : option string),
    isRegistered b = true ->
    exists messages,
      parse (payload (snd (handle (get_history_request limit) b)))
      = Some (Arr messages)
      /\ Forall is_chat_message messages
      /\ List.length messages <= List.length (getCurrentHistory b)
      /\ (forall s n,
            limit = Some s -> parseInt s = Some n -> (0 < n)%Z ->
            List.length messages
            = Nat.min (Z.to_nat n)
                      (List.length (chat_messages (getCurrentHistory b)))).
Proof.
  intros b limit Hreg.
  destruct (get_history_messages b limit Hreg)
    as (messages & Hreply & Hshape & Hlen & Hlimit).
  exists messages. split; [ | now repeat split].
  change (handle (get_history_request limit) b)
    with (get_history (get_history_request limit) b).
  rewrite Hreply. cbn [snd].
  destruct (chat_messages_json messages Hshape) as [Hu Hj].
  now destruct (json_response_parses 200 (Arr messages) Hu Hj) as (_ & _ & ->).
Qed.

Lemma history_is_a_list_of_chat_messages_witness :
  let b := mkBridge (Some 1)
                    (Some [mkHistoryItem "user" (Some "msg1");
                           mkHistoryItem "gemini" (Some "msg2");
                           mkHistoryItem "info" (Some "note");
                           mkHistoryItem "user" (Some "msg3")])
                    [] in
  exists messages,
    parse (payload (snd (handle (get_history_request (Some "5")) b)))
    = Some (Arr messages)
    /\ Forall is_chat_message messages
    /\ List.length messages = 3.
Proof.
  intro b.
  destruct (history_is_a_list_of_chat_messages b (Some "5") eq_refl)
    as (messages & Hparse & Hshape & _ & Hlimit).
  exists messages. split; [exact Hparse | split; [exact Hshape | ]].
  exact (Hlimit "5" 5%Z eq_refl eq_refl eq_refl).
Defined.

(** X21.  While no handler and history provider are registered, the server
    accepts nothing: no request is answered 200, the bridge is left as it
    is (no message is handed over), and GET /history is answered 503. *)
Theorem unregistered_bridge_refuses :
  forall (req : Request) (b : TuiRemoteBridge),
    isRegistered b = false ->
    fst (handle req b) = b
    /\ statusCode (snd (handle req b)) <> 200
    /\ statusCode (snd (handle (get_history_request (limit_param req)) b))
       = 503.
Proof.
  intros req b Hreg. unfold handle.
  split; [ | split].
  - destruct (_ && _).
    + unfold post_message.
      destruct (parse (body req)) as [[ | | | | | | ] | ]; trivial;
        destruct (negb (truthy _)); trivial; now rewrite Hreg.
    + destruct (_ && _); trivial. unfold get_history. now rewrite Hreg.
  - destruct (_ && _).
    + unfold post_message.
      destruct (parse (body req)) as [[ | | | | | | ] | ];
        try discriminate;
        destruct (negb (truthy _)); try discriminate;
        rewrite Hreg; discriminate.
    + destruct (_ && _); [ | discriminate].
      unfold get_history. rewrite Hreg. discriminate.
  - cbn. unfold get_history. now rewrite Hreg.
Qed.

Lemma unregistered_bridge_refuses_witness :
  let b := mkBridge None None [] in
  let req :=
    post_message_request (render (Obj [("message", Str "hello")])) in
  fst (handle req b) = b
  /\ statusCode (snd (handle req b)) = 503
  /\ statusCode (snd (handle (get_history_request None) b)) = 503.
Proof.
  intros b req.
  destruct (unregistered_bridge_refuses req b eq_refl) as (Hb & _ & Hget).
  split; [exact Hb | split; [reflexivity | exact Hget]].
Defined.

(** X22.  A POST on /message with the body [{"message": m}], [m] being a
    JSON value that is truthy (a string that is not empty, but also a
    number other than 0, [true], an array, an object: the type is not
    checked) and whose numbers are safe integers, has [m], as it was
    written, handed once to the handler of the latest registration; it is
    answered 200 when the handler returns and 400, as a body that is not
    JSON, when the handler throws.  After [unregister()] the same request
    is answered 503 and handed to no one. *)
Theorem message_reaches_the_registered_handler :
  forall (throws : nat -> bool) (b : TuiRemoteBridge) (handler : nat)
         (history : list HistoryItem) (m : value),
    uniq m = true -> is_json m = true -> safe_integers m = true ->
    truthy m = true ->
    let request := mkIncoming "POST" (Some ("/message", None))
                              (render (Obj [("message", m)])) in
    let registered := register handler history b in
    on_request throws request registered
    = Some (mkBridge (Some handler) (Some history)
                     (submitted b ++ [(handler, m)]),
            if throws handler
            then json_response 400 (Obj [("error", Str "Invalid JSON")])
            else json_response 200 (Obj [("status", Str "Message submitted")]))
    /\ on_request throws request (unregister registered)
       = Some (unregister registered,
               json_response 503
                 (Obj [("error", Str "TUI bridge is not yet registered")])).
Proof.
  intros throws b handler history m Hu Hj _ Ht request registered.
  subst request registered.
  assert (Hparse : parse (render (Obj [("message", m)]))
                   = Some (Obj [("message", m)])).
  { rewrite parse_render, to_json_id; trivial.
    - cbn [is_json forallb snd]. now rewrite Hj.
    - cbn [uniq map fst snd distinct existsb forallb negb andb].
      now rewrite Hu. }
  unfold on_request. cbn [target in_method in_body].
  cbn [String.eqb Ascii.eqb Bool.eqb andb].
  unfold on_end. rewrite Hparse.
  cbn [get lookup String.eqb Ascii.eqb Bool.eqb]. rewrite Ht.
  split; [ | reflexivity].
  cbn [negb isRegistered register onMessage getHistory submitMessage fst
       submitted].
  destruct (throws handler); reflexivity.
Qed.

Lemma message_reaches_the_registered_handler_witness :
  let b := register 1 [] (mkBridge None None []) in
  let request := mkIncoming "POST" (Some ("/message", None))
                            (render (Obj [("message", Num 42)])) in
  on_request (fun _ => false) request (register 2 [] b)
  = Some (mkBridge (Some 2) (Some []) [(2, Num 42)],
          json_response 200 (Obj [("status", Str "Message submitted")]))
  /\ on_request (Nat.eqb 2) request (register 2 [] b)
     = Some (mkBridge (Some 2) (Some []) [(2, Num 42)],
             json_response 400 (Obj [("error", Str "Invalid JSON")]))
  /\ on_request (fun _ => false) request (unregister (register 2 [] b))
     = Some (unregister (register 2 [] b),
             json_response 503
               (Obj [("error", Str "TUI bridge is not yet registered")])).
Proof.
  intros b request.
  destruct (message_reaches_the_registered_handler
              (fun _ => false) b 2 [] (Num 42)
              eq_refl eq_refl eq_refl eq_refl) as [Hsent Hrefused].
  destruct (message_reaches_the_registered_handler
              (Nat.eqb 2) b 2 [] (Num 42)
              eq_refl eq_refl eq_refl eq_refl) as [Hthrown _].
  split; [exact Hsent | split; [exact Hthrown | exact Hrefused]].
Defined.

End RemoteRequestProperties.

(* ================================================================== *)
(** ** Model prices *)
(* ================================================================== *)

Section CostLemmas.
Import Costs CostWords.
Local Open Scope string_scope.

Lemma starts_with_spec (key s : string) :
  starts_with key s = true <-> exists b, s = key ++ b.
Proof.
  revert s. induction key as [ | a key IH]; intro s; simpl.
  - split; [intros _; now exists s | trivial].
  - destruct s as [ | c s].
    + split; [discriminate | intros (b & Hb); discriminate].
    + split.
      * intro H. apply andb_true_iff in H as [Hac Hs].
        apply Ascii.eqb_eq in Hac as ->.
        apply IH in Hs as (b & ->). now exists b.
      * intros (b & Hb). injection Hb as -> ->.
        rewrite Ascii.eqb_refl. apply IH. now exists b.
Qed.

Lemma includes_spec (s key : string) :
  includes s key = true <-> exists a b, s = a ++ key ++ b.
Proof.
  split.
  - induction s as [ | c s IH]; simpl; intro H;
      apply orb_true_iff in H as [H | H]; try discriminate.
    + apply starts_with_spec in H as (b & Hb). now exists EmptyString, b.
    + apply starts_with_spec in H as (b & Hb). now exists EmptyString, b.
    + destruct (IH H) as (a & b & ->). now exists (String c a), b.
  - intros (a & b & ->). induction a as [ | c a IH].
    + assert (H : starts_with key (key ++ b) = true)
        by (apply starts_with_spec; now exists b).
      simpl. destruct (key ++ b); simpl; simpl in H; now rewrite H.
    + simpl. rewrite IH. apply orb_true_r.
Qed.

(** A name that includes a key includes what the key includes. *)
Lemma includes_trans (s long short : string) :
  includes s long = true -> includes long short = true ->
  includes s short = true.
Proof.
  intros Hs Hl. apply includes_spec in Hs as (a & b & ->).
  apply includes_spec in Hl as (a' & b' & ->).
  apply includes_spec. exists (a ++ a'), (b' ++ b).
  now rewrite !append_assoc.
Qed.

Lemma different_entries (a b : Entry) :
  same_entry a a = true -> same_entry a b = false -> a <> b.
Proof. intros Ha Hb <-. congruence. Qed.

(** The price depends on the model through its entry only. *)
Lemma calculateCost_entry (name name' : string) (i o c : PrimFloat.float) :
  getModelCostConfig name = getModelCostConfig name' ->
  calculateCost name i o c = calculateCost name' i o c.
Proof. intro H. unfold calculateCost. now rewrite H. Qed.

(** A key of the table is given its own entry. *)
Lemma key_entry (key : string) :
  In key knownModels -> getModelCostConfig key = index key.
Proof.
  unfold knownModels, GEMINI_MODEL_COSTS. cbn [map fst In].
  intro H.
  repeat (destruct H as [<- | H]; [reflexivity | ]).
  destruct H.
Qed.

End CostLemmas.

Section CostProperties.
Import PrimFloat Costs CostWords.
Local Open Scope string_scope.
#[local] Set Warnings "-inexact-float".

(** X23.  A model of the table is given its own prices, whatever the
    letter case its name is written in: the name is matched once put in
    lower case. *)
Theorem known_model_has_its_price :
  forall (modelName key : string) (config : ModelCostConfig),
    is_ascii modelName = true ->
    In (key, config) GEMINI_MODEL_COSTS ->
    toLowerCase modelName = key ->
    getModelCostConfig modelName = Config config.
Proof.
  intros modelName key config _ Hin Hlower.
  unfold getModelCostConfig. rewrite Hlower. clear Hlower.
  unfold GEMINI_MODEL_COSTS in Hin. cbn [In] in Hin.
  repeat (destruct Hin as [Hin | Hin];
          [apply pair_equal_spec in Hin as [<- <-]; reflexivity | ]).
  destruct Hin.
Qed.

Lemma known_model_has_its_price_witness :
  getModelCostConfig "Gemini-2.0-FLASH"
  = Config (mkModelCostConfig 0.1 0.4 0.025).
Proof.
  apply (known_model_has_its_price "Gemini-2.0-FLASH" "gemini-2.0-flash").
  - reflexivity.
  - unfold GEMINI_MODEL_COSTS. cbn [In]. tauto.
  - reflexivity.
Defined.

(** The keys tried in turn by [find], until one that the name is known to
    include. *)
Ltac first_included :=
  repeat match goal with
         | |- context [if includes ?n ?k then _ else _] =>
             let H := fresh "Hk" in
             destruct (includes n k) eqn:H;
             [ exists k;
               split; [unfold knownModels, GEMINI_MODEL_COSTS;
                       cbn [map fst In]; tauto | ];
               split; [discriminate | ];
               split; [reflexivity | ];
               apply different_entries; reflexivity
             | try congruence ]
         end.

(** X24.  A model name that contains gemini-2.5-flash-lite,
    gemini-2.0-flash-lite or gemini-1.5-flash-8b without being exactly
    that name (a versioned name, as gemini-2.5-flash-lite-001) is not
    given the prices of that model: the keys of the table are tried in
    their order, and the name also contains a key listed before
    (gemini-2.5-flash, gemini-2.0-flash, gemini-1.5-flash).  It is given
    the entry of another key, with other prices, and is billed as that
    other model. *)
Theorem extended_name_gets_another_price :
  forall (modelName key : string),
    is_ascii modelName = true ->
    In key extended_names ->
    includes (toLowerCase modelName) key = true ->
    toLowerCase modelName <> key ->
    exists other,
      In other knownModels
      /\ other <> key
      /\ getModelCostConfig modelName = index other
      /\ index other <> index key
      /\ forall inputTokens outputTokens cachedTokens,
           calculateCost modelName inputTokens outputTokens cachedTokens
           = calculateCost other inputTokens outputTokens cachedTokens.
Proof.
  intros modelName key _ Hkey Hincl Hne.
  assert (Hentry : forall other,
             In other knownModels ->
             getModelCostConfig modelName = index other ->
             forall i o c,
               calculateCost modelName i o c = calculateCost other i o c).
  { intros other Hother Hsame i o c. apply calculateCost_entry.
    rewrite Hsame. symmetry. now apply key_entry. }
  cut (exists other,
          In other knownModels
          /\ other <> key
          /\ getModelCostConfig modelName = index other
          /\ index other <> index key).
  { intros (other & Hin & Hother & Hsame & Hprice).
    exists other. repeat split; trivial. now apply Hentry. }
  clear Hentry.
  unfold getModelCostConfig.
  set (n := toLowerCase modelName) in *.
  assert (Hindex : index n = NoEntry).
  { unfold index, inherited, GEMINI_MODEL_COSTS, own.
    repeat match goal with
           | |- context [String.eqb n ?k] =>
               destruct (String.eqb_spec n k) as [Heq | _];
               [ exfalso; rewrite Heq in Hincl, Hne;
                 unfold extended_names in Hkey; cbn [In] in Hkey;
                 repeat (destruct Hkey as [<- | Hkey];
                         [first [discriminate Hincl | now apply Hne] | ]);
                 destruct Hkey
               | ]
           end.
    reflexivity. }
  rewrite Hindex.
  unfold extended_names in Hkey. cbn [In] in Hkey.
  destruct Hkey as [<- | [<- | [<- | []]]].
  - assert (Hshort : includes n "gemini-2.5-flash" = true)
      by (apply (includes_trans n "gemini-2.5-flash-lite"); trivial).
    unfold knownModels, GEMINI_MODEL_COSTS. cbn [map fst find].
    first_included.
  - assert (Hshort : includes n "gemini-2.0-flash" = true)
      by (apply (includes_trans n "gemini-2.0-flash-lite"); trivial).
    unfold knownModels, GEMINI_MODEL_COSTS. cbn [map fst find].
    first_included.
  - assert (Hshort : includes n "gemini-1.5-flash" = true)
      by (apply (includes_trans n "gemini-1.5-flash-8b"); trivial).
    unfold knownModels, GEMINI_MODEL_COSTS. cbn [map fst find].
    first_included.
Qed.

Lemma extended_name_gets_another_price_witness :
  exists other,
    In other knownModels
    /\ other <> "gemini-2.5-flash-lite"
    /\ getModelCostConfig "gemini-2.5-flash-lite-001" = index other
    /\ index other <> index "gemini-2.5-flash-lite"
    /\ forall inputTokens outputTokens cachedTokens,
         calculateCost "gemini-2.5-flash-lite-001"
                       inputTokens outputTokens cachedTokens
         = calculateCost other inputTokens outputTokens cachedTokens.
Proof.
  apply (extended_name_gets_another_price
           "gemini-2.5-flash-lite-001" "gemini-2.5-flash-lite").
  - reflexivity.
  - unfold extended_names. cbn [In]. tauto.
  - reflexivity.
  - discriminate.
Defined.

(** X25.  Whatever the model name, the two names apart that the table
    inherits from [Object.prototype], the prices are those of an entry of
    the table (the entry of the name, of the first key it contains, or the
    default one, all zero), and a call without tokens costs 0. *)
Theorem price_is_a_table_entry :
  forall (modelName : string),
    is_ascii modelName = true ->
    inherited (toLowerCase modelName) = false ->
    exists key config,
      In (key, config) GEMINI_MODEL_COSTS
      /\ getModelCostConfig modelName = Config config
      /\ calculateCost modelName 0 0 0 = 0%float.
Proof.
  intros modelName _ Hown.
  assert (Hkey : exists key,
             In key knownModels /\ getModelCostConfig modelName = index key).
  { unfold getModelCostConfig.
    set (n := toLowerCase modelName) in *.
    unfold index at 1. rewrite Hown.
    unfold GEMINI_MODEL_COSTS at 1. unfold own.
    repeat match goal with
           | |- context [String.eqb n ?k] =>
               destruct (String.eqb_spec n k) as [-> | _];
               [ exists k; split;
                 [ unfold knownModels, GEMINI_MODEL_COSTS; cbn [map fst In];
                   tauto
                 | reflexivity ]
               | ]
           end.
    unfold knownModels, GEMINI_MODEL_COSTS. cbn [map fst find].
    repeat match goal with
           | |- context [if includes n ?k then _ else _] =>
               destruct (includes n k);
               [ exists k; split; [cbn [In]; tauto | reflexivity] | ]
           end.
    exists "default". split; [cbn [In]; tauto | reflexivity]. }
  destruct Hkey as (key & Hin & Hentry).
  assert (Hcost : calculateCost modelName 0 0 0 = calculateCost key 0 0 0).
  { apply calculateCost_entry. rewrite Hentry. symmetry. now apply key_entry. }
  rewrite Hcost, Hentry. clear Hcost Hentry Hown modelName.
  unfold knownModels, GEMINI_MODEL_COSTS in Hin. cbn [map fst In] in Hin.
  repeat (destruct Hin as [<- | Hin];
          [ eexists _, _; split;
            [ | split; [reflexivity | reflexivity] ];
            unfold GEMINI_MODEL_COSTS; cbn [In]; tauto
          | ]).
  destruct Hin.
Qed.

Lemma price_is_a_table_entry_witness :
  exists key config,
    In (key, config) GEMINI_MODEL_COSTS
    /\ getModelCostConfig "unknown-model" = Config config
    /\ calculateCost "unknown-model" 0 0 0 = 0%float.
Proof.
  apply (price_is_a_table_entry "unknown-model"); reflexivity.
Defined.

End CostProperties.
